(* ===== verification/_CoqProject ===== *)
-Q . S2P
Prelude.v
CommandLine.v
KeyFile.v
KeyFileParse.v
Json.v
GLib.v
Ownership.v
App.v
Config.v
Loop.v
Main.v
ReadOnly.v
Safety.v
Scenarios.v
Lifecycle.v
