(* ===== verification/Prelude.v ===== *)
(** * A verification of dmx2c2ip's [main.c]

    The program ([src/src/main.c], 167 lines of C) is a small GLib
    service: it parses the command line ([-c FILE]), reads a key file,
    opens a DMX receiver on the configured serial device, creates,
    configures and starts an HTTP server, runs the GLib main loop until
    SIGINT and tears its global context [app_ctxt] down.  Its parts
    interact only through that context and through the libraries it
    calls (GLib, GObject, json-glib, the DMX and HTTP libraries, which
    are not under [src/]).

    ** Files (in dependency order)
    - [Prelude]: this header; the state-and-exit monad [st] in which the
      C code is written ([ret], [bind], [halt], [get], [put],
      [modify]), its notation [x <- m ;; k], its weakest precondition
      [wp] with the rules [wp_bind], [wp_seq], [wp_mono], and the C
      integer widths ([gint], [guint], the conversion [gint_to_guint]).
    - [CommandLine] (Module [CommandLine]): GOption's parsing of [argv]
      against the option table of [main] ([app_options], lines 110-112:
      [-c]/[--config-file] with a filename argument): long options with
      [=] or a separate argument, groups of short options, [--], the
      built-in [--help]/[-h]/[-?], the last occurrence winning, and the
      errors (unknown option, missing argument); [parse_args] runs on
      fuel, and [goption_parse] gives it [length argv], which is enough.
    - [KeyFile] (Module [KeyFile]): GKeyFile, the ConfigStore of the
      spec: a loaded file as a map group -> key -> value, the lookups
      [get_string] and [get_integer] and GLib's integer parser
      ([strtol] in base 10 and the checks of
      [g_key_file_parse_value_as_integer]), which reads back the
      decimal text of every [gint] and rejects every other integer
      (so [main_speed_out_of_range]: an out-of-range speed falls back
      to the default).
    - [KeyFileParse] (Module [KeyFileParse]): GLib's key-file parser,
      which [g_key_file_load_from_file] runs on the text of the file:
      lines ([split_lines]), comments, group headers and [key=value]
      pairs ([parse_line]) with GLib's name checks, and their effect on
      the loaded map ([parse_lines], [parse_keyfile]), the first error
      ending the parse; a printer [print_keyfile] and the roundtrip
      [parse_print]: a well-formed key file printed and parsed is
      itself.
    - [Json] (Module [Json]): json-glib's [JsonBuilder] as a stack
      machine ([step], [run]) that refuses what json-glib refuses (a
      value outside an open container, a container begun once the root
      exists), the builder calls of [configure_http_server] as data
      ([value_root_ops]) and the tree they build ([value_root_tree],
      [value_root_ops_run]).
    - [GLib] (Module [GLib]): the process state [world]: the heap of
      live blocks (each with its allocation site, a line of
      [main.c]), the context [app_ctxt] ([AppContext], lines 16-34), the
      log of observable calls and the installed SIGINT source; the
      library calls the program makes, as programs of [M := st world
      stop]; the environment [env] that decides what the program does
      not (the command line, the text of the files, the device, the
      server's start, the stimuli), a file being loaded by
      [read_keyfile] (read, then parsed by [KeyFileParse]); [wp] rules for every primitive and the symbolic
      execution tactic [wp_step].
    - [Ownership] (Module [Ownership]): the ownership invariant [inv]
      (every non-[NULL] field of the context points to a live block of
      its kind, every live block of those kinds is held by its field,
      nothing is live above the allocation frontier) and the tactics
      that keep it through a program ([inv_tac], [wp_run], [wp_call]).
    - [App] (Module [App]): [app_init], [app_cleanup] (lines 36-50),
      [configure_string_property] (52-64) and [configure_http_server]
      (66-98), with what teardown releases, its order, the double free
      of a second teardown, and the invariant kept by configuration.
    - [Config] (Module [Config]): the spec's ConfigStore contract as
      the type class [ConfigStore] with its laws, GKeyFile as an
      instance, and the explicit server configuration of the spec (9)
      ([config_of], [apply_config]); the properties
      [configure_http_server] sets are those of that configuration, so
      a key file without [HTTP] keeps every default
      ([configure_http_server_defaults]).
    - [Loop] (Module [Loop]): [sigint_handler] (9-14) and the GLib main
      loop ([g_main_loop_new], [g_unix_signal_add], [g_main_loop_run],
      [g_main_loop_unref]); one iteration per stimulus.
    - [Main] (Module [Main]): [main] (107-168) as its seven stages
      [main_options], [main_config], [main_device], [main_speed],
      [main_acquire], [main_http], [main_run], each early [return] an
      [Exit] after [fail_with] (diagnostic and [app_cleanup]).
    - [ReadOnly] (Module [ReadOnly]): the ConfigStore is read-only
      after load (spec, 1): [main_after_config], the part of [main]
      after line 132, creates, changes or reloads no key file
      ([main_config_read_only]); proved call by call with [preserves]
      and the hint database [readonly].
    - [Safety] (Module [Safety]): a [wp] specification per stage and
      the theorem [main_safe]: every run releases the whole context
      before it returns, and its only possible crash is [NullError],
      the [NULL] [GError] dereference (a [NULL] device name or any
      other [NULL] pointer reaching a library call would be the
      distinct crash [NullDeref]).
    - [Scenarios] (Module [Scenarios]): [run_main], the whole run of
      [main] from the initial state; the spec's scenarios as runs of it:
      a failed parse, a [--help] before any other option, an
      unreadable or malformed file, a missing device, no [-c], a
      device that does not open, a run interrupted by SIGINT (whether
      the server starts or not); and
      [main_refines_lifecycle]: every run ends as the abstract
      [lifecycle_outcome] of its environment predicts.
    - [Lifecycle] (Module [Lifecycle]): the LifecycleSequencer state
      machine of the spec (4.4) as a labelled transition relation
      [lc_step] between [phase]s over the logged calls, decided by
      [lc_next]/[lc_run]; a phase specification per stage of [main],
      joined with the stage specifications of [Safety]; and the theorem
      [main_follows_lifecycle]: the log of every run is a trace of the
      machine from [Init] whose last phase matches how the run ends.

    ** How the model corresponds to the code
    Each C function is a definition of the same name; a statement that
    changes the context is a [set_ctx] with the setter of its field; a
    call that allocates is an [alloc] at its site; [g_free],
    [g_object_unref], [g_clear_object] and [g_key_file_unref] release
    blocks, and releasing a dead block is the crash [InvalidFree];
    [err->message] on a [NULL] [GError] is the crash [NullError],
    any other [NULL] dereference the crash [NullDeref].  The
    [GError *err] of [main] is not a variable of the model: each call
    returns the error it raises with its result, which is the same
    thing because every error set in [main] either ends the run or is
    cleared ([g_clear_error]) before the next call that takes [&err].
    The libraries outside [src/] are modelled from their documented
    contracts (marked spec-modelled in the manifest).  The whole
    process state is the record [world]; the environment [env] fixes
    what the program does not decide (argv, files, device, server
    start, stimuli), so a run of [main] is a function of [env].

    ** Bounds and fuel
    Only the option parser uses fuel: each round of [parse_args]
    consumes at least one word of [argv], so [length argv] rounds are
    enough ([parse_args_fuel_eq]: any larger fuel gives the same
    result).  The main loop runs over the finite list of stimuli of
    the environment (a run that exhausts it is [Blocked],
    waiting forever in [g_main_loop_run]), and the builder calls are a
    fixed list.  Integers are [Z] with the range checks of the C types
    written out ([in_gint], [gint_to_guint] modulo [2^32]).

    ** Not modelled
    [g_type_init] and [g_debug] (no effect on the state); the DMX
    decoding and the HTTP server's request serving (libraries outside
    [src/]: only their creation, properties, start and release are
    modelled); the decoding of backslash escapes that
    [g_key_file_get_string] applies to a value (a value is returned as
    the file stores it, which is exact for values without a
    backslash), the partial content GLib leaves in a key file whose
    parse failed (the program frees it at once), and the comments and
    blank lines GLib keeps for [g_key_file_to_data], which the program
    never calls; the text of the diagnostics beyond their prefix and
    cause. *)

(** * Prelude: the state-and-exit monad, machine integers, shared lemmas

    This file holds what every component file of the development uses:
    - [st S H A], a state monad with an early-exit channel [H], in which
      the C functions of [src/src/main.c] are written (an early [return]
      of [main] or a crash is an exit value of type [H]);
    - its notation [x <- m ;; k] in the scope [glib_scope];
    - the C integer widths the program uses ([gint], [guint]) and the
      conversion of a [gint] to a [guint];
    - the hint databases [glib] (resolution) and [glib_rw] (rewriting)
      and the tactics built on them. *)

From stdpp Require Export base gmap strings list.
From Stdlib Require Export ZArith Lia.

Declare Scope glib_scope.
Delimit Scope glib_scope with glib.

Create HintDb glib.
Create Rewrite HintDb glib_rw.

(** ** The state-and-exit monad *)

(** The outcome of a computation: a value, or an exit of type [H]. *)
Inductive res (H A : Type) : Type :=
| Ok (a : A)
| Halt (h : H).
Arguments Ok {H A} a.
Arguments Halt {H A} h.

Definition st (S H A : Type) : Type := S -> res H A * S.

Section Monad.
Context {S H : Type}.

Definition ret {A} (a : A) : st S H A := fun s => (Ok a, s).

Definition bind {A B} (m : st S H A) (k : A -> st S H B) : st S H B :=
  fun s => match m s with
           | (Ok a, s') => k a s'
           | (Halt h, s') => (Halt h, s')
           end.

Definition halt {A} (h : H) : st S H A := fun s => (Halt h, s).
Definition get : st S H S := fun s => (Ok s, s).
Definition put (s : S) : st S H unit := fun _ => (Ok tt, s).
Definition modify (f : S -> S) : st S H unit := fun s => (Ok tt, f s).

(** A predicate [P] on states that every run of [m] preserves, on both
    exits. *)
Definition preserves {A} (P : S -> Prop) (m : st S H A) : Prop :=
  forall s r s', P s -> m s = (r, s') -> P s'.

(** The weakest precondition of [m] for the postconditions [Q] (normal
    return) and [R] (exit), at the state [s]. *)
Definition wp {A} (m : st S H A) (Q : A -> S -> Prop) (R : H -> S -> Prop) (s : S) : Prop :=
  match m s with
  | (Ok a, s') => Q a s'
  | (Halt h, s') => R h s'
  end.
End Monad.

Notation "x <- m ;; k" := (bind m (fun x => k))
  (at level 100, m at next level, right associativity) : glib_scope.
Notation "m ;; k" := (bind m (fun _ => k))
  (at level 100, right associativity) : glib_scope.

(** ** C integers *)

Open Scope Z_scope.

(** [G_MININT] and [G_MAXINT]: the range of a 32-bit [gint]. *)
Definition G_MININT : Z := - 2 ^ 31.
Definition G_MAXINT : Z := 2 ^ 31 - 1.
Definition G_MAXUINT : Z := 2 ^ 32 - 1.

Definition in_gint (z : Z) : bool := (G_MININT <=? z) && (z <=? G_MAXINT).

(** The C conversion of a [gint] to a [guint]: modulo [2^32]. *)
Definition gint_to_guint (z : Z) : Z := z mod 2 ^ 32.

(** ** Lemmas *)

Section MonadLemmas.
Context {S H : Type}.

Lemma bind_ret_l {A B} (a : A) (k : A -> st S H B) s :
  bind (ret a) k s = k a s.
Proof. reflexivity. Qed.

Lemma bind_assoc {A B C} (m : st S H A) (k : A -> st S H B)
      (k' : B -> st S H C) s :
  bind (bind m k) k' s = bind m (fun a => bind (k a) k') s.
Proof. unfold bind. by destruct (m s) as [[a|h] s']. Qed.

Lemma bind_halt {A B} (h : H) (k : A -> st S H B) s :
  bind (halt h) k s = (Halt h, s).
Proof. reflexivity. Qed.

(** Running [bind m k] when [m] is known to return [a] in [s']. *)
Lemma bind_Ok {A B} (m : st S H A) (k : A -> st S H B) s a s' :
  m s = (Ok a, s') -> bind m k s = k a s'.
Proof. unfold bind. by intros ->. Qed.

Lemma bind_Halt {A B} (m : st S H A) (k : A -> st S H B) s h s' :
  m s = (Halt h, s') -> bind m k s = (Halt h, s').
Proof. unfold bind. by intros ->. Qed.

Lemma preserves_bind {A B} (P : S -> Prop) (m : st S H A)
      (k : A -> st S H B) :
  preserves P m -> (forall a, preserves P (k a)) -> preserves P (bind m k).
Proof.
  intros Hm Hk s r s' HP. unfold bind.
  destruct (m s) as [[a|h] s1] eqn:E.
  - intros Hr. eapply Hk; [eapply Hm; eauto | exact Hr].
  - intros [= <- <-]. eapply Hm; eauto.
Qed.

(** Regroup the first two calls of a sequence, to reason about them
    together. *)
Lemma preserves_reassoc {A B C} (P : S -> Prop) (m : st S H A) (k : A -> st S H B)
      (k' : B -> st S H C) :
  preserves P (bind (bind m k) k') -> preserves P (bind m (fun a => bind (k a) k')).
Proof. intros Hp s r s' HP Hr. rewrite <- bind_assoc in Hr. eauto. Qed.

Lemma preserves_ret {A} (P : S -> Prop) (a : A) : @preserves S H A P (ret a).
Proof. by intros s r s' HP [= _ <-]. Qed.

Lemma preserves_halt {A} (P : S -> Prop) (h : H) :
  preserves P (halt (A:=A) h).
Proof. by intros s r s' HP [= _ <-]. Qed.
Lemma wp_bind {A B} (m : st S H A) (k : A -> st S H B) Q R s :
  wp m (fun a => wp (k a) Q R) R s -> wp (bind m k) Q R s.
Proof. unfold wp, bind. by destruct (m s) as [[a|h] s']. Qed.

Lemma wp_ret {A} (a : A) (Q : A -> S -> Prop) (R : H -> S -> Prop) s :
  Q a s -> wp (ret a) Q R s.
Proof. done. Qed.

Lemma wp_halt {A} (h : H) (Q : A -> S -> Prop) R s : R h s -> wp (halt h) Q R s.
Proof. done. Qed.

Lemma wp_modify f (Q : unit -> S -> Prop) (R : H -> S -> Prop) s :
  Q tt (f s) -> wp (modify f) Q R s.
Proof. done. Qed.

Lemma wp_get (Q : S -> S -> Prop) (R : H -> S -> Prop) s : Q s s -> wp get Q R s.
Proof. done. Qed.

(** A computation whose run is known. *)
Lemma wp_eval {A} (m : st S H A) Q R s r s' :
  m s = (r, s') -> match r with Ok a => Q a s' | Halt h => R h s' end -> wp m Q R s.
Proof. unfold wp. by intros ->. Qed.

(** Two specifications of the same computation hold together. *)
Lemma wp_conj {A} (m : st S H A) (Q1 Q2 : A -> S -> Prop) (R1 R2 : H -> S -> Prop) s :
  wp m Q1 R1 s -> wp m Q2 R2 s ->
  wp m (fun a s' => Q1 a s' /\ Q2 a s') (fun h s' => R1 h s' /\ R2 h s') s.
Proof. unfold wp. destruct (m s) as [[a|h] s']; tauto. Qed.

Lemma wp_mono {A} (m : st S H A) (Q Q' : A -> S -> Prop) (R R' : H -> S -> Prop) s :
  wp m Q R s -> (forall a s', Q a s' -> Q' a s') -> (forall h s', R h s' -> R' h s') ->
  wp m Q' R' s.
Proof. unfold wp. destruct (m s) as [[a|h] s']; eauto. Qed.
Lemma wp_seq {A B} (m : st S H A) (k : A -> st S H B) (P : A -> S -> Prop) Q R s :
  wp m P R s -> (forall a s', P a s' -> wp (k a) Q R s') -> wp (bind m k) Q R s.
Proof. intros Hm Hk. apply wp_bind. eapply wp_mono; [exact Hm | exact Hk | done]. Qed.

End MonadLemmas.

#[export] Hint Rewrite @bind_ret_l @bind_assoc @bind_halt : glib_rw.
#[export] Hint Resolve preserves_bind preserves_ret preserves_halt : glib.

Lemma gint_to_guint_bounds z : 0 <= gint_to_guint z <= G_MAXUINT.
Proof.
  unfold gint_to_guint, G_MAXUINT.
  pose proof (Z.mod_pos_bound z (2 ^ 32)). lia.
Qed.

Lemma gint_to_guint_nonneg z : 0 <= z -> z <= G_MAXINT -> gint_to_guint z = z.
Proof. unfold gint_to_guint, G_MAXINT. intros. apply Z.mod_small. lia. Qed.

Lemma gint_to_guint_neg z : G_MININT <= z < 0 -> gint_to_guint z = z + 2 ^ 32.
Proof.
  unfold gint_to_guint, G_MININT. intros.
  rewrite <- (Z.mod_small (z + 2 ^ 32) (2 ^ 32)) by lia.
  rewrite Z.add_mod, Z.mod_same, Z.add_0_r, Z.mod_mod by lia. done.
Qed.

Lemma in_gint_spec z : in_gint z = true <-> G_MININT <= z <= G_MAXINT.
Proof. unfold in_gint. rewrite andb_true_iff, !Z.leb_le. done. Qed.

#[export] Hint Resolve gint_to_guint_bounds : glib.

(** ** Tactics *)

(** Unfold monadic glue and case on the outcome of the first call. *)
Ltac st_simpl := autorewrite with glib_rw; cbn [bind ret halt get put modify].

(** Close the goal [preserves P m] by decomposing binds. *)
Ltac preserves_auto :=
  repeat (apply preserves_bind; [| intros ?]); eauto with glib.
