(* ===== verification/CommandLine.v ===== *)
(** * CommandLine: the option table and GOption's parsing of [argv]

    [main] declares one option ([app_options], [src/src/main.c] lines
    101-105): [--config-file FILE], short [-c], of kind
    [G_OPTION_ARG_FILENAME], stored in [app_ctxt.config_filename].
    [g_option_context_parse] (line 117) is GLib's; it is modelled here
    from its documented behaviour, for a context with the help options
    enabled (the default) and unknown options not ignored:
    - [argv[0]] is the program name and is skipped;
    - [--] ends the options; a lone [-] and any word not starting with
      [-] are arguments, left alone;
    - [--NAME=VALUE] and [--NAME VALUE] give a long option its value;
      [--help] and [--help-all] print the help and exit with status 0;
    - [-XYZ] is a group of short options, read left to right; [h] and
      [?] print the help; an option that takes a value takes the next
      word of [argv], whatever it is, and only one option of a group
      may do so;
    - an option not in the table, or one that needs a value at the end
      of [argv], is an error;
    - a later occurrence of [-c] replaces the value of an earlier one.
    The parser is a [Fixpoint] on a fuel bound: every iteration consumes
    at least one word, so the length of [argv] is enough fuel
    ([parse_args_fuel]). *)

From S2P Require Import Prelude.
From Stdlib Require Import Ascii String.

Module CommandLine.

(** ** The option table *)

Inductive option_arg := ArgNone | ArgFilename.

Record option_entry := mkEntry {
  long_name : string;
  short_name : ascii;
  arg : option_arg }.

(** [app_options] (lines 101-105); the value goes to
    [app_ctxt.config_filename]. *)
Definition app_options : list option_entry :=
  [mkEntry "config-file" "c" ArgFilename].

(** ** Outcomes *)

Inductive parse_error :=
| UnknownOption (opt : string)
| MissingArgument (opt : string)
| TwoValuesInGroup (opt : string).   (* "Error parsing option": two short options of a group take a value *)

Inductive parse_result :=
| ParseError (e : parse_error)
| ParseHelp                          (* the help is printed and the process exits with 0 *)
| Parsed (config_file : option string).

Section Parser.

(** The entries added with [g_option_context_add_main_entries] (line
    116). *)
Variable entries : list option_entry.

Definition find_long (name : string) : option option_entry :=
  List.find (fun e => String.eqb (long_name e) name) entries.

Definition find_short (c : ascii) : option option_entry :=
  List.find (fun e => Ascii.eqb (short_name e) c) entries.

(** ** The parser *)

(** [--NAME=VALUE] split at the first [=]. *)
Fixpoint split_eq (s : string) : string * option string :=
  match s with
  | EmptyString => (EmptyString, None)
  | String c r =>
      if Ascii.eqb c "=" then (EmptyString, Some r)
      else let '(n, v) := split_eq r in (String c n, v)
  end.

(** A group of short options [cs], the words after it [rest]: the value
    of [-c] if one is given, and the number of words taken (0 or 1). *)
Inductive short_result :=
| ShortError (e : parse_error)
| ShortHelp
| ShortOk (value : option string) (taken : nat).

Fixpoint parse_short (cs : string) (rest : list string) (value : option string) (taken : nat)
  : short_result :=
  match cs with
  | EmptyString => ShortOk value taken
  | String c cs' =>
      if Ascii.eqb c "h" || Ascii.eqb c "?" then ShortHelp
      else match find_short c with
           | None => ShortError (UnknownOption (String "-" (String c EmptyString)))
           | Some e =>
               match arg e with
               | ArgNone => parse_short cs' rest value taken
               | ArgFilename =>
                   if Nat.eqb taken 0 then
                     match rest with
                     | v :: _ => parse_short cs' rest (Some v) 1
                     | [] => ShortError (MissingArgument (String "-" (String c EmptyString)))
                     end
                   else ShortError (TwoValuesInGroup (String "-" (String c EmptyString)))
               end
           end
  end.

(** A long option [--body] and the words after it: the value and the
    words left, or the outcome. *)
Inductive long_result :=
| LongStop (r : parse_result)
| LongOk (value : option string) (rest : list string).

Definition parse_long (body : string) (rest : list string) : long_result :=
  if String.eqb body "help" || String.eqb body "help-all" then LongStop ParseHelp
  else
    let '(name, inline) := split_eq body in
    match find_long name with
    | None => LongStop (ParseError (UnknownOption (String "-" (String "-" name))))
    | Some e =>
        match arg e, inline with
        | ArgNone, _ => LongOk None rest
        | ArgFilename, Some v => LongOk (Some v) rest
        | ArgFilename, None =>
            match rest with
            | v :: rest' => LongOk (Some v) rest'
            | [] => LongStop (ParseError (MissingArgument (String "-" (String "-" name))))
            end
        end
    end.

(** The last value given wins. *)
Definition update (cfg : option string) (v : option string) : option string :=
  match v with Some _ => v | None => cfg end.

(** The words after [argv[0]], with the value of [-c] so far. *)
Fixpoint parse_args (fuel : nat) (args : list string) (cfg : option string) : parse_result :=
  match fuel with
  | O => Parsed cfg
  | S fuel' =>
      match args with
      | [] => Parsed cfg
      | a :: rest =>
          match a with
          | String "-" (String "-" EmptyString) => Parsed cfg          (* "--" *)
          | String "-" (String "-" body) =>
              match parse_long body rest with
              | LongStop r => r
              | LongOk v rest' => parse_args fuel' rest' (update cfg v)
              end
          | String "-" (String c cs) =>
              match parse_short (String c cs) rest None 0 with
              | ShortError e => ParseError e
              | ShortHelp => ParseHelp
              | ShortOk v k => parse_args fuel' (List.skipn k rest) (update cfg v)
              end
          | _ => parse_args fuel' rest cfg                          (* an argument *)
          end
      end
  end.

(** [g_option_context_parse] with the table [entries]. *)
Definition goption_parse (argv : list string) : parse_result :=
  match argv with
  | [] => Parsed None
  | _ :: args => parse_args (List.length args) args None
  end.

End Parser.

(** A word GOption reads as an option: [-] followed by something. *)
Definition is_option_word (a : string) : bool :=
  match a with String "-" (String _ _) => true | _ => false end.

(** ** Lemmas *)

Section Lemmas.
Variable entries : list option_entry.

Lemma parse_long_rest body rest v rest' :
  parse_long entries body rest = LongOk v rest' -> (List.length rest' <= List.length rest)%nat.
Proof.
  unfold parse_long. destruct (_ || _); [done|]. destruct (split_eq body) as [name inline].
  destruct (find_long entries name) as [e|]; [|done].
  destruct (arg e), inline, rest; cbn; intros [= <- <-]; cbn; lia.
Qed.

(** Every iteration consumes a word: any fuel above the number of
    words gives the same outcome. *)
Lemma parse_args_fuel_eq n m args cfg :
  (List.length args <= n)%nat -> (List.length args <= m)%nat ->
  parse_args entries n args cfg = parse_args entries m args cfg.
Proof.
  revert m args cfg. induction n as [|n IH]; intros m args cfg Hn Hm.
  - destruct args; [|cbn in Hn; lia]. by destruct m.
  - destruct args as [|a rest]; [by destruct m|]. destruct m as [|m]; [cbn in Hm; lia|].
    cbn in Hn, Hm. cbn [parse_args].
    destruct a as [|c1 [|c2 body]]; [apply IH; lia|..].
    + repeat case_match; try done; apply IH; lia.
    + repeat case_match; try done; subst;
        try (apply IH; lia);
        try (apply IH; rewrite length_skipn; lia);
        try (apply IH; match goal with H : parse_long _ _ _ = LongOk _ _ |- _ => apply parse_long_rest in H end; lia).
Qed.

Lemma parse_args_plain n a rest cfg :
  is_option_word a = false ->
  parse_args entries (S n) (a :: rest) cfg = parse_args entries n rest cfg.
Proof.
  intros Ha. destruct a as [|c [|c' r]]; [done| |];
    destruct c as [[] [] [] [] [] [] [] []]; try discriminate; reflexivity.
Qed.

(** Words that are not options leave the value as it is. *)
Lemma parse_args_plains n args cfg :
  Forall (fun a => is_option_word a = false) args -> parse_args entries n args cfg = Parsed cfg.
Proof.
  intros Hp. revert n. induction Hp as [|a args Ha Hp IH]; intros [|n]; try done.
  by rewrite parse_args_plain.
Qed.

Lemma parse_args_plains_app n args rest cfg :
  Forall (fun a => is_option_word a = false) args ->
  parse_args entries (List.length args + n) (args ++ rest) cfg = parse_args entries n rest cfg.
Proof.
  intros Hp. induction Hp as [|a args Ha Hp IH]; [done|]. cbn [List.length Nat.add app].
  by rewrite parse_args_plain.
Qed.

(** [--help] after words that are not options: the help, whatever
    follows. *)
Lemma goption_help_after_plains prog args rest :
  Forall (fun a => is_option_word a = false) args ->
  goption_parse entries (prog :: args ++ "--help" :: rest) = ParseHelp.
Proof.
  intros Hp. unfold goption_parse. rewrite length_app. cbn [List.length].
  by rewrite parse_args_plains_app.
Qed.

End Lemmas.

(** One step of each spelling of the option. *)
Lemma parse_args_c n f rest cfg :
  parse_args app_options (S n) ("-c" :: f :: rest) cfg = parse_args app_options n rest (Some f).
Proof. reflexivity. Qed.

Lemma parse_args_config_file n f rest cfg :
  parse_args app_options (S n) ("--config-file" :: f :: rest) cfg = parse_args app_options n rest (Some f).
Proof. reflexivity. Qed.

Lemma parse_args_config_file_eq n f rest cfg :
  parse_args app_options (S n) (String.append "--config-file=" f :: rest) cfg =
    parse_args app_options n rest (Some f).
Proof. reflexivity. Qed.

(** C13: The three spellings of the option are equivalent: [-c FILE],
    [--config-file FILE] and [--config-file=FILE] give the same outcome,
    whatever follows. *)
Theorem goption_spellings_equiv p f args :
  goption_parse app_options (p :: "-c" :: f :: args) =
    goption_parse app_options (p :: "--config-file" :: f :: args) /\
  goption_parse app_options (p :: "-c" :: f :: args) =
    goption_parse app_options (p :: String.append "--config-file=" f :: args).
Proof.
  unfold goption_parse. cbn [List.length].
  rewrite parse_args_c, parse_args_config_file, parse_args_config_file_eq.
  split; [done|]. apply parse_args_fuel_eq; lia.
Qed.

(** C11: [-c FILE] followed by plain arguments stores exactly [FILE],
    whatever it is (also a word that looks like an option, such as
    [--help]: GOption takes the next word as the value). *)
Theorem goption_config_roundtrip p f args :
  Forall (fun a => is_option_word a = false) args ->
  goption_parse app_options (p :: "-c" :: f :: args) = Parsed (Some f).
Proof.
  intros Hp. unfold goption_parse. cbn [List.length]. by rewrite parse_args_c, parse_args_plains.
Qed.

(** C23: Given twice, the option keeps the last value. *)
Theorem goption_last_wins p f g args :
  Forall (fun a => is_option_word a = false) args ->
  goption_parse app_options (p :: "-c" :: f :: "-c" :: g :: args) = Parsed (Some g).
Proof.
  intros Hp. unfold goption_parse. cbn [List.length]. by rewrite !parse_args_c, parse_args_plains.
Qed.

(** C22: The option as the last word, without its value, is an error,
    in both spellings. *)
Theorem goption_missing_argument p args :
  Forall (fun a => is_option_word a = false) args ->
  goption_parse app_options (p :: args ++ ["-c"]) = ParseError (MissingArgument "-c") /\
  goption_parse app_options (p :: args ++ ["--config-file"]) = ParseError (MissingArgument "--config-file").
Proof.
  intros Hp. unfold goption_parse. rewrite !length_app, !parse_args_plains_app by done. done.
Qed.

(** ** Examples *)

Lemma goption_config_roundtrip_witness :
  goption_parse app_options ["dmx2c2ip"; "-c"; "--help"; "extra"] = Parsed (Some "--help").
Proof. apply goption_config_roundtrip. repeat constructor. Defined.

Lemma goption_last_wins_witness :
  goption_parse app_options ["dmx2c2ip"; "-c"; "a.conf"; "-c"; "b.conf"] = Parsed (Some "b.conf").
Proof. apply goption_last_wins. constructor. Defined.

Lemma goption_missing_argument_witness :
  goption_parse app_options ["dmx2c2ip"; "extra"; "-c"] = ParseError (MissingArgument "-c").
Proof. apply (goption_missing_argument "dmx2c2ip" ["extra"]). repeat constructor. Defined.

End CommandLine.
