(* ===== verification/KeyFile.v ===== *)
(** * KeyFile: the configuration store (GLib's [GKeyFile])

    The program reads its configuration through [g_key_file_get_string]
    and [g_key_file_get_integer] ([src/src/main.c] lines 58, 72, 134,
    141).  [GKeyFile] is a GLib library, not code of this repository; it
    is modelled here from its contract (the spec's ConfigStore, 4.1): a
    loaded key file is a map from group names to maps from keys to
    values, and a lookup reports an absent group or key as an error
    value, never as a crash.  How the text of a file becomes such a map
    is [KeyFileParse]; a value is the string that the file gives for
    it (GLib's backslash escapes are not decoded).  The integer reader follows GLib's
    [g_key_file_parse_value_as_integer]: [strtol] in base 10, then the
    checks that the whole value was consumed (up to white space) and
    that the result fits a [gint]. *)

From S2P Require Import Prelude.
From Stdlib Require Import Ascii String.
Open Scope Z_scope.

Module KeyFile.

(** The [GKeyFileError] codes a lookup can raise. *)
Inductive keyfile_error :=
| GroupNotFound (group : string)
| KeyNotFound (group key : string)
| InvalidValue (value : string)      (* not a number *)
| IntOutOfRange (value : string).    (* a number, but not a [gint] *)

#[export] Instance keyfile_error_eq_dec : EqDecision keyfile_error.
Proof. solve_decision. Defined.

(** A loaded key file: group -> key -> value. *)
Abbreviation keyfile := (gmap string (gmap string string)).

(** [g_key_file_get_value] *)
Definition get_value (kf : keyfile) (group key : string)
  : keyfile_error + string :=
  match kf !! group with
  | None => inl (GroupNotFound group)
  | Some g => match g !! key with
              | None => inl (KeyNotFound group key)
              | Some v => inr v
              end
  end.

(** [g_key_file_get_string] on a loaded key file: the value, or the
    lookup error. *)
Definition get_string (kf : keyfile) (group key : string)
  : keyfile_error + string := get_value kf group key.

(** ** [strtol] in base 10 *)

(** C's [isspace] (and [g_ascii_isspace]) in the C locale. *)
Definition c_isspace (c : Ascii.ascii) : bool :=
  let n := Ascii.nat_of_ascii c in
  ((n =? 32) || ((9 <=? n) && (n <=? 13)))%nat.

Definition digit_of (c : Ascii.ascii) : option Z :=
  let n := Ascii.nat_of_ascii c in
  if ((48 <=? n) && (n <=? 57))%nat then Some (Z.of_nat n - 48) else None.

Fixpoint skip_space (s : string) : string :=
  match s with
  | String c r => if c_isspace c then skip_space r else s
  | EmptyString => EmptyString
  end.

(** Scan the longest prefix of decimal digits, accumulating its value
    onto [acc]; returns the value, the number of digits and the rest. *)
Fixpoint scan_digits (acc : Z) (s : string) : Z * nat * string :=
  match s with
  | String c r =>
      match digit_of c with
      | Some d => let '(v, n, rest) := scan_digits (acc * 10 + d) r in
                  (v, S n, rest)
      | None => (acc, O, s)
      end
  | EmptyString => (acc, O, EmptyString)
  end.

(** [strtol(s, &end, 10)]: the value read and the string at [end].  When
    no digit is found, [strtol] returns 0 and sets [end] to [s] itself.
    The value is the exact integer: [strtol]'s clamping at the [long]
    range (with [ERANGE]) only happens outside the [gint] range, which
    the caller rejects in both cases. *)
Definition strtol10 (s : string) : Z * string :=
  let s1 := skip_space s in
  let '(neg, s2) :=
    match s1 with
    | String c r =>
        if Ascii.eqb c "-"%char then (true, r)
        else if Ascii.eqb c "+"%char then (false, r) else (false, s1)
    | EmptyString => (false, s1)
    end in
  let '(v, n, rest) := scan_digits 0 s2 in
  if (n =? 0)%nat then (0, s) else (if neg then - v else v, rest).

Definition str_is_empty (s : string) : bool :=
  match s with EmptyString => true | _ => false end.

Definition str_head_isspace (s : string) : bool :=
  match s with String c _ => c_isspace c | EmptyString => false end.

(** [g_key_file_parse_value_as_integer]:
    [if ( *value == '\0' || ( *eof_int != '\0' && !g_ascii_isspace ( *eof_int)))]
    the value is not a number; if it does not fit a [gint] it is out of
    range. *)
Definition parse_value_as_integer (value : string) : keyfile_error + Z :=
  let '(v, eof) := strtol10 value in
  if str_is_empty value || (negb (str_is_empty eof) && negb (str_head_isspace eof))
  then inl (InvalidValue value)
  else if in_gint v then inr v else inl (IntOutOfRange value).

(** [g_key_file_get_integer] on a loaded key file: the [gint] and the
    error, which is set exactly when the result is [0] by failure. *)
Definition get_integer (kf : keyfile) (group key : string)
  : Z * option keyfile_error :=
  match get_value kf group key with
  | inl e => (0, Some e)
  | inr v => match parse_value_as_integer v with
             | inl e => (0, Some e)
             | inr n => (n, None)
             end
  end.

(** ** Printing an integer

    [int_to_string n] is the decimal text of [n] that
    [g_key_file_set_integer] writes ([g_strdup_printf ("%d", n)]): a
    minus sign for a negative [n], then the digits, most significant
    first.  [digit_list] splits off the last digit at each step; 20
    steps are enough for any [|n| < 10^20], which covers every [gint]. *)
Definition digit_char (d : Z) : ascii := ascii_of_nat (Z.to_nat d + 48).

Fixpoint digit_list (fuel : nat) (n : Z) (acc : list Z) : list Z :=
  match fuel with
  | O => acc
  | S f => if n <? 10 then n :: acc else digit_list f (n / 10) (n mod 10 :: acc)
  end.

(** The digits [ds] in front of [rest]. *)
Definition string_of_digits (ds : list Z) (rest : string) : string :=
  fold_right (fun d s => String (digit_char d) s) rest ds.

Definition int_to_string (n : Z) : string :=
  let ds := string_of_digits (digit_list 20 (Z.abs n) []) EmptyString in
  if n <? 0 then String "-" ds else ds.

Definition digits_value (ds : list Z) (a : Z) : Z := fold_left (fun a d => a * 10 + d) ds a.

(** ** Lemmas *)

Lemma digit_of_digit_char d : 0 <= d < 10 -> digit_of (digit_char d) = Some d.
Proof.
  intros Hd. unfold digit_of, digit_char. rewrite nat_ascii_embedding by lia.
  replace ((48 <=? Z.to_nat d + 48)%nat && (Z.to_nat d + 48 <=? 57)%nat) with true
    by (symmetry; apply andb_true_iff; split; apply Nat.leb_le; lia).
  f_equal. lia.
Qed.

Lemma digit_list_app f n acc : digit_list f n acc = digit_list f n [] ++ acc.
Proof.
  revert n acc. induction f as [|f IH]; intros n acc; [done|]. cbn.
  destruct (n <? 10); [done|]. rewrite IH, (IH _ [n mod 10]). by rewrite <-app_assoc.
Qed.

Lemma digit_list_S f n acc :
  digit_list (S f) n acc = if n <? 10 then n :: acc else digit_list f (n / 10) (n mod 10 :: acc).
Proof. done. Qed.

Lemma digit_list_spec f n :
  0 <= n < 10 ^ Z.of_nat (S f) ->
  digit_list (S f) n [] <> [] /\ Forall (fun d => 0 <= d < 10) (digit_list (S f) n []) /\
  digits_value (digit_list (S f) n []) 0 = n.
Proof.
  revert n. induction f as [|f IH]; intros n Hn; rewrite digit_list_S;
    destruct (n <? 10) eqn:E; try apply Z.ltb_lt in E; try apply Z.ltb_ge in E.
  1,3: split; [done | split; [apply Forall_singleton; lia | cbn; lia]].
  - cbn in Hn. lia.
  - rewrite digit_list_app. destruct (IH (n / 10)) as (Hne & Hf & Hv).
    { split; [apply Z.div_pos; lia|]. apply Z.div_lt_upper_bound; [lia|].
      rewrite (Nat2Z.inj_succ (S f)), Z.pow_succ_r in Hn; lia. }
    split; [|split].
    + intros Hx. by apply app_eq_nil in Hx as [_ ?].
    + apply Forall_app; split; [done|]. apply Forall_singleton. apply Z.mod_pos_bound; lia.
    + unfold digits_value in *. rewrite fold_left_app, Hv. cbn.
      rewrite (Z.div_mod n 10) at 3 by lia. lia.
Qed.

Lemma scan_digits_cons a c r :
  scan_digits a (String c r) =
    match digit_of c with
    | Some d => let '(v, n, rest) := scan_digits (a * 10 + d) r in (v, S n, rest)
    | None => (a, O, String c r)
    end.
Proof. done. Qed.

Lemma scan_digits_string ds a rest :
  Forall (fun d => 0 <= d < 10) ds ->
  (match rest with String c _ => digit_of c = None | EmptyString => True end) ->
  scan_digits a (string_of_digits ds rest) = (digits_value ds a, List.length ds, rest).
Proof.
  intros Hds Hr. revert a. induction Hds as [|d ds Hd Hds IH]; intros a.
  - unfold string_of_digits; cbn [fold_right].
    destruct rest as [|c r]; [done|]. by rewrite scan_digits_cons, Hr.
  - change (string_of_digits (d :: ds) rest) with (String (digit_char d) (string_of_digits ds rest)).
    rewrite scan_digits_cons, digit_of_digit_char by done. by rewrite IH.
Qed.

Lemma digit_char_head d :
  0 <= d < 10 ->
  c_isspace (digit_char d) = false /\ Ascii.eqb (digit_char d) "-" = false /\
  Ascii.eqb (digit_char d) "+" = false.
Proof.
  intros Hd. assert (d = 0 \/ d = 1 \/ d = 2 \/ d = 3 \/ d = 4 \/ d = 5 \/ d = 6 \/ d = 7 \/
                     d = 8 \/ d = 9) as Hc by lia.
  repeat destruct Hc as [->|Hc]; [..|subst]; vm_compute; auto.
Qed.

Lemma append_String c s r : String.append (String c s) r = String c (String.append s r).
Proof. done. Qed.

Lemma append_string_of_digits ds r :
  String.append (string_of_digits ds EmptyString) r = string_of_digits ds r.
Proof. induction ds as [|d ds IH]; [done|]. unfold string_of_digits in *. cbn [foldr]. rewrite <-IH. reflexivity. Qed.

Lemma strtol10_digits ds rest :
  ds <> [] -> Forall (fun d => 0 <= d < 10) ds ->
  (match rest with String c _ => digit_of c = None | EmptyString => True end) ->
  strtol10 (string_of_digits ds rest) = (digits_value ds 0, rest) /\
  strtol10 (String "-" (string_of_digits ds rest)) = (- digits_value ds 0, rest).
Proof.
  intros Hne Hds Hr. destruct ds as [|d ds']; [done|].
  pose proof (Forall_inv Hds) as Hd. destruct (digit_char_head d Hd) as (Hsp & Hm & Hp).
  unfold strtol10. split.
  - change (string_of_digits (d :: ds') rest) with (String (digit_char d) (string_of_digits ds' rest)).
    cbn [skip_space]. rewrite Hsp, Hm, Hp.
    change (String (digit_char d) (string_of_digits ds' rest)) with (string_of_digits (d :: ds') rest).
    by rewrite scan_digits_string.
  - cbn [skip_space]. replace (c_isspace "-") with false by reflexivity.
    replace (Ascii.eqb "-" "-") with true by reflexivity.
    by rewrite scan_digits_string.
Qed.

Lemma c_isspace_not_digit c : c_isspace c = true -> digit_of c = None.
Proof.
  unfold c_isspace, digit_of. intros H.
  rewrite orb_true_iff, andb_true_iff, Nat.eqb_eq, !Nat.leb_le in H.
  destruct ((48 <=? _)%nat && (_ <=? 57)%nat) eqn:E; [|done].
  apply andb_true_iff in E. rewrite !Nat.leb_le in E. lia.
Qed.

Lemma parse_value_accept s v rest :
  strtol10 s = (v, rest) -> str_is_empty s = false ->
  (str_is_empty rest || str_head_isspace rest) = true -> in_gint v = true ->
  parse_value_as_integer s = inr v.
Proof.
  intros Hs He Hr Hv. unfold parse_value_as_integer. rewrite Hs, He, Hv.
  by destruct (str_is_empty rest), (str_head_isspace rest).
Qed.

Lemma parse_value_in_gint v n : parse_value_as_integer v = inr n -> in_gint n = true.
Proof.
  unfold parse_value_as_integer. destruct (strtol10 v) as [z eof].
  destruct (_ || _); [done|]. destruct (in_gint z) eqn:E; [|done]. by intros [= <-].
Qed.

(** [strtol] reads back what [int_to_string] prints, for every [n] of
    at most 20 digits, also when white space and any text follow it. *)
Lemma strtol10_int_to_string n rest :
  Z.abs n < 10 ^ 20 -> (str_is_empty rest || str_head_isspace rest) = true ->
  strtol10 (String.append (int_to_string n) rest) = (n, rest) /\
  str_is_empty (String.append (int_to_string n) rest) = false.
Proof.
  intros Hn Hr.
  destruct (digit_list_spec 19 (Z.abs n)) as (Hne & Hds & Hv).
  { split; [lia|]. change (10 ^ Z.of_nat 20) with (10 ^ 20). lia. }
  assert (match rest with String c _ => digit_of c = None | EmptyString => True end) as Hr'.
  { destruct rest as [|c r]; [done|]. by apply c_isspace_not_digit. }
  destruct (strtol10_digits _ rest Hne Hds Hr') as [Hpos Hneg]. rewrite Hv in Hpos, Hneg.
  unfold int_to_string. destruct (n <? 0) eqn:Hs; [apply Z.ltb_lt in Hs | apply Z.ltb_ge in Hs].
  - rewrite append_String, append_string_of_digits, Hneg. split; [f_equal; lia | done].
  - rewrite append_string_of_digits, Hpos. split; [f_equal; lia|].
    by destruct (digit_list 20 (Z.abs n) []).
Qed.

Lemma in_gint_abs n : in_gint n = true -> Z.abs n < 10 ^ 20.
Proof. intros Hn. apply in_gint_spec in Hn. unfold G_MININT, G_MAXINT in Hn. lia. Qed.

(** The integer reader reads back what [int_to_string] prints, also
    when white space and any text follow it. *)
Lemma parse_int_to_string n rest :
  in_gint n = true -> (str_is_empty rest || str_head_isspace rest) = true ->
  parse_value_as_integer (String.append (int_to_string n) rest) = inr n.
Proof.
  intros Hn Hr. destruct (strtol10_int_to_string n rest (in_gint_abs n Hn) Hr) as [Hs He].
  by apply (parse_value_accept _ _ rest).
Qed.

(** A value that is the decimal text of an integer outside the
    [gint] range (up to 20 digits, optionally followed by white space
    and text) is rejected by [g_key_file_get_integer] with
    [G_KEY_FILE_ERROR_INVALID_VALUE] for an out-of-range number and the
    result [0]: it is never truncated or wrapped to an [int]. *)
Lemma get_integer_out_of_range kf group key n rest :
  get_value kf group key = inr (String.append (int_to_string n) rest) ->
  in_gint n = false -> Z.abs n < 10 ^ 20 ->
  (str_is_empty rest || str_head_isspace rest) = true ->
  get_integer kf group key = (0, Some (IntOutOfRange (String.append (int_to_string n) rest))).
Proof.
  intros Hv Hn Ha Hr. unfold get_integer, parse_value_as_integer. rewrite Hv.
  destruct (strtol10_int_to_string n rest Ha Hr) as [-> ->]. rewrite Hn.
  by destruct (str_is_empty rest), (str_head_isspace rest).
Qed.

End KeyFile.
