(* ===== verification/KeyFileParse.v ===== *)
(** * KeyFileParse: the syntax of a key file

    [g_key_file_load_from_file] ([src/src/main.c] lines 122-130) reads
    the configuration file and parses it into the groups and keys that
    [KeyFile] looks up.  [GKeyFile] is a GLib library, not code of this
    repository; its parser is modelled here from its documented
    behaviour ([g_key_file_parse_data] and [g_key_file_parse_line]):
    the text is cut into lines at ['\n'] (a ['\r'] before it dropped, a
    last line without ['\n'] kept when it is not empty), leading white
    space is skipped, and a line is a comment (empty or ['#']), a group
    header ([[name]] followed only by blanks), a key-value pair (an
    ['='] that is not the first character; the key chomped, the value
    chugged), or a parse error.  A pair before any group is an error,
    an invalid group or key name is an error, a group seen twice is
    re-entered, and the last value of a key wins; a key [Encoding] in
    the first group of the file must have the value [UTF-8] (in any
    case).  The parse stops at the first error.  GLib keeps a
    localized key ([key[ll]]) only when [ll] is one of the user's
    locales; the model, which has no locale, keeps every one under its
    full name, and the program never looks one up.  The escapes of a value
    ([\s], [\n], [\t], [\r], [\\]) are decoded by GLib when
    [g_key_file_get_string] reads it, not by the parser, and are not
    modelled: [KeyFile.get_string] returns the stored text, which is
    the same for a value without a backslash, as every value of
    [print_keyfile] is ([value_ok]).  Below the parser: a printer
    [print_keyfile] and the theorem [parse_print] that a well-formed
    key file printed and parsed again is the same key file. *)

From S2P Require Import Prelude KeyFile.
From Stdlib Require Import Ascii String.

Module KeyFileParse.
Import KeyFile.

Abbreviation chars := (list ascii).

Definition c_nl : ascii := "010"%char.
Definition c_cr : ascii := "013"%char.

(** ** Lines *)

(** [cur] holds the current line, reversed. *)
Definition close_line (cur : chars) : chars :=
  match cur with
  | c :: r => if Ascii.eqb c c_cr then rev r else rev cur
  | [] => []
  end.

Fixpoint lines_acc (s : chars) (cur : chars) : list chars :=
  match s with
  | [] => match cur with [] => [] | _ => [rev cur] end
  | c :: r => if Ascii.eqb c c_nl then close_line cur :: lines_acc r []
              else lines_acc r (c :: cur)
  end.

(** [g_key_file_parse_data] and [g_key_file_flush_parse_buffer]. *)
Definition split_lines (s : chars) : list chars := lines_acc s [].

(** [g_strchug] and [g_strchomp]. *)
Fixpoint chug (l : chars) : chars :=
  match l with c :: r => if c_isspace c then chug r else l | [] => [] end.

Definition chomp (l : chars) : chars := rev (chug (rev l)).

(** The text before and after the first [c]. *)
Fixpoint break_at (c : ascii) (l : chars) : option (chars * chars) :=
  match l with
  | [] => None
  | x :: r => if Ascii.eqb x c then Some ([], r)
              else match break_at c r with
                   | Some (a, b) => Some (x :: a, b)
                   | None => None
                   end
  end.

(** ** Line classes *)

(** [g_key_file_line_is_comment] *)
Definition line_is_comment (l : chars) : bool :=
  match l with [] => true | c :: _ => Ascii.eqb c "#" end.

Definition is_blank (c : ascii) : bool := Ascii.eqb c " " || Ascii.eqb c "009".

(** [g_key_file_line_is_group]: ['['], a [']'], then only blanks. *)
Definition line_is_group (l : chars) : bool :=
  match l with
  | c :: r => Ascii.eqb c "[" &&
              match break_at "]" r with
              | Some (_, tail) => forallb is_blank tail
              | None => false
              end
  | [] => false
  end.

(** [g_key_file_line_is_key_value_pair]: an ['='] that is not the
    first character. *)
Definition line_is_key_value_pair (l : chars) : bool :=
  match l with
  | c :: r => negb (Ascii.eqb c "=") && existsb (fun x => Ascii.eqb x "=") r
  | [] => false
  end.

(** [g_ascii_iscntrl] and [g_ascii_isalnum]. *)
Definition c_iscntrl (c : ascii) : bool :=
  let n := nat_of_ascii c in ((n <? 32) || (n =? 127))%nat.

Definition c_isalnum (c : ascii) : bool :=
  let n := nat_of_ascii c in
  ((48 <=? n) && (n <=? 57) || (65 <=? n) && (n <=? 90) || (97 <=? n) && (n <=? 122))%nat.

Definition nonempty (l : chars) : bool := match l with [] => false | _ => true end.

(** [g_key_file_is_group_name] *)
Definition is_group_name (g : chars) : bool :=
  nonempty g &&
  forallb (fun c => negb (Ascii.eqb c "[" || Ascii.eqb c "]" || c_iscntrl c)) g.

Definition key_char (c : ascii) : bool :=
  negb (Ascii.eqb c "=" || Ascii.eqb c "[" || Ascii.eqb c "]").

Definition locale_char (c : ascii) : bool :=
  c_isalnum c || Ascii.eqb c "-" || Ascii.eqb c "_" || Ascii.eqb c "." || Ascii.eqb c "@".

Fixpoint take_while (p : ascii -> bool) (l : chars) : chars :=
  match l with c :: r => if p c then c :: take_while p r else [] | [] => [] end.

Definition head_is (p : ascii -> bool) (l : chars) : bool :=
  match l with c :: _ => p c | [] => false end.

(** [g_key_file_is_key_name]: a non-empty name of key characters that
    neither starts nor ends with a space, then optionally a locale
    [[ll]] of locale characters. *)
Definition is_key_name (k : chars) : bool :=
  let base := take_while key_char k in
  let rest := drop (List.length base) k in
  nonempty base && negb (head_is (Ascii.eqb " ") base)
  && negb (head_is (Ascii.eqb " ") (rev base)) &&
  match rest with
  | [] => true
  | c :: r => Ascii.eqb c "[" &&
              match drop (List.length (take_while locale_char r)) r with
              | [x] => Ascii.eqb x "]"
              | _ => false
              end
  end.

(** ** Parsing *)

(** The [G_KEY_FILE_ERROR]s of a parse. *)
Inductive keyfile_parse_error :=
| BadLine (line : string)          (* G_KEY_FILE_ERROR_PARSE *)
| BadGroupName (group : string)    (* G_KEY_FILE_ERROR_PARSE *)
| BadKeyName (key : string)        (* G_KEY_FILE_ERROR_PARSE *)
| NoGroup                          (* G_KEY_FILE_ERROR_GROUP_NOT_FOUND *)
| UnknownEncoding (value : string).  (* G_KEY_FILE_ERROR_UNKNOWN_ENCODING *)

#[export] Instance keyfile_parse_error_eq_dec : EqDecision keyfile_parse_error.
Proof. solve_decision. Defined.

(** What a line is, before the names are checked. *)
Inductive line_kind :=
| LComment
| LGroup (name : chars)
| LPair (key value : chars).

(** [g_key_file_parse_line]: classify the chugged line; a group is
    checked by [g_key_file_parse_group], a pair by
    [g_key_file_parse_key_value_pair] (in [parse_lines]), which needs
    the current group first. *)
Definition parse_line (line : chars) : keyfile_parse_error + line_kind :=
  let l := chug line in
  if line_is_comment l then inr LComment
  else if line_is_group l then
    match l with
    | _ :: r => match break_at "]" r with
                | Some (g, _) => if is_group_name g then inr (LGroup g)
                                 else inl (BadGroupName (string_of_list_ascii g))
                | None => inl (BadLine (string_of_list_ascii line))
                end
    | [] => inl (BadLine (string_of_list_ascii line))
    end
  else if line_is_key_value_pair l then
    match break_at "=" l with
    | Some (k, v) => inr (LPair (chomp k) (chug v))
    | None => inl (BadLine (string_of_list_ascii line))
    end
  else inl (BadLine (string_of_list_ascii line)).

(** [g_key_file_add_group]: a group seen again is re-entered. *)
Definition add_group (g : string) (kf : keyfile) : keyfile :=
  match kf !! g with Some _ => kf | None => <[g := ∅]> kf end.

(** [g_key_file_add_key]: the last value of a key wins. *)
Definition add_key (g k v : string) (kf : keyfile) : keyfile :=
  <[g := <[k := v]> (default ∅ (kf !! g))]> kf.

(** [g_ascii_tolower] *)
Definition ascii_lower (c : ascii) : ascii :=
  let n := nat_of_ascii c in
  if ((65 <=? n) && (n <=? 90))%nat then ascii_of_nat (n + 32) else c.

(** The check of [g_key_file_parse_key_value_pair] on the key
    [Encoding] of the first group of the file ([start]): its value must
    be [UTF-8], in any case. *)
Definition encoding_ok (start : option string) (g k : string) (v : chars) : bool :=
  match start with
  | Some s => negb (String.eqb s g && String.eqb k "Encoding")
              || bool_decide (map ascii_lower v = list_ascii_of_string "utf-8")
  | None => true
  end.

(** The lines in order, in the group [cur] (none before the first
    header), [start] the first group of the file. *)
Fixpoint parse_lines (ls : list chars) (start cur : option string) (kf : keyfile)
  : keyfile_parse_error + keyfile :=
  match ls with
  | [] => inr kf
  | l :: r =>
      match parse_line l with
      | inl e => inl e
      | inr LComment => parse_lines r start cur kf
      | inr (LGroup g) =>
          let g' := string_of_list_ascii g in
          parse_lines r (match start with None => Some g' | _ => start end) (Some g')
                      (add_group g' kf)
      | inr (LPair k v) =>
          match cur with
          | None => inl NoGroup
          | Some g =>
              if is_key_name k then
                if encoding_ok start g (string_of_list_ascii k) v
                then parse_lines r start cur
                       (add_key g (string_of_list_ascii k) (string_of_list_ascii v) kf)
                else inl (UnknownEncoding (string_of_list_ascii v))
              else inl (BadKeyName (string_of_list_ascii k))
          end
      end
  end.

(** [g_key_file_load_from_data] on a fresh key file. *)
Definition parse_keyfile (text : string) : keyfile_parse_error + keyfile :=
  parse_lines (split_lines (list_ascii_of_string text)) None None ∅.

(** ** Printing *)

(** A key file written as text: for each group its header line, then
    one [key=value] line per key, each line ended by ['\n']. *)
Definition group_line (g : string) : chars := "["%char :: list_ascii_of_string g ++ ["]"%char].
Definition pair_line (kv : string * string) : chars :=
  list_ascii_of_string kv.1 ++ "="%char :: list_ascii_of_string kv.2.
Definition group_lines (gm : string * gmap string string) : list chars :=
  group_line gm.1 :: map pair_line (map_to_list gm.2).
Definition join_lines (ls : list chars) : chars := List.concat (map (fun l => l ++ [c_nl]) ls).
Definition print_keyfile (kf : keyfile) : string :=
  string_of_list_ascii (join_lines (List.concat (map group_lines (map_to_list kf)))).

(** What such a text can hold: a group name GLib accepts; a key name
    GLib accepts, printable, not starting with ['#'], without a locale
    (GLib keeps a translation only for the user's locales) and other
    than [Encoding] (checked in the first group); a value
    without ['\n'], without leading white space (which the parser
    skips), not ending in ['\r'] (which it drops) and without a
    backslash, so that GLib's escapes leave it as it is. *)
Definition printable (c : ascii) : bool := negb (c_iscntrl c).
Definition group_ok (g : string) : bool := is_group_name (list_ascii_of_string g).
Definition key_ok (k : string) : bool :=
  let l := list_ascii_of_string k in
  is_key_name l && forallb printable l && negb (head_is (Ascii.eqb "#") l)
  && forallb key_char l && negb (String.eqb k "Encoding").
Definition value_ok (v : string) : bool :=
  let l := list_ascii_of_string v in
  forallb (fun c => negb (Ascii.eqb c c_nl || Ascii.eqb c "\"%char)) l && negb (head_is c_isspace l)
  && negb (head_is (Ascii.eqb c_cr) (rev l)).
Definition wf_keyfile (kf : keyfile) : Prop :=
  map_Forall (fun g m => group_ok g = true /\
                         map_Forall (fun k v => key_ok k = true /\ value_ok v = true) m) kf.

(** A line of a printed text: no ['\n'] inside, no ['\r'] at the end. *)
Definition line_ok (l : chars) : Prop := (c_nl ∉ l) /\ last l <> Some c_cr.

#[export] Instance wf_keyfile_dec kf : Decision (wf_keyfile kf).
Proof. unfold wf_keyfile. apply _. Defined.

(** ** Lines *)

Lemma lines_acc_app l s cur :
  c_nl ∉ l -> lines_acc (l ++ s) cur = lines_acc s (rev l ++ cur).
Proof.
  revert cur. induction l as [|c l IH]; intros cur Hn; [done|].
  apply not_elem_of_cons in Hn as [Hc Hn]. cbn.
  rewrite (proj2 (Ascii.eqb_neq c c_nl) (not_eq_sym Hc)), IH by done. by rewrite <- app_assoc.
Qed.

Lemma close_line_rev l : last l <> Some c_cr -> close_line (rev l) = l.
Proof.
  destruct l as [|x l _] using rev_ind; [done|]. rewrite last_snoc, rev_unit. cbn.
  intros Hx. destruct (Ascii.eqb_spec x c_cr); [congruence|]. by rewrite rev_involutive.
Qed.

Lemma split_join ls : Forall line_ok ls -> split_lines (join_lines ls) = ls.
Proof.
  unfold split_lines. intros H. induction H as [|l ls [Hn Hc] _ IH]; [done|].
  change (join_lines (l :: ls)) with ((l ++ [c_nl]) ++ join_lines ls).
  rewrite <- app_assoc, lines_acc_app by done. cbn [app lines_acc]. rewrite Ascii.eqb_refl.
  by rewrite app_nil_r, close_line_rev, IH.
Qed.

(** ** Characters *)

Lemma break_at_app c a b : c ∉ a -> break_at c (a ++ c :: b) = Some (a, b).
Proof.
  induction a as [|x a IH]; intros Hn; cbn; [by rewrite Ascii.eqb_refl|].
  apply not_elem_of_cons in Hn as [Hx Hn].
  by rewrite (proj2 (Ascii.eqb_neq x c) (not_eq_sym Hx)), IH.
Qed.

Lemma isspace_cntrl c : c_isspace c = true -> c = " "%char \/ c_iscntrl c = true.
Proof.
  unfold c_isspace, c_iscntrl. intros H.
  apply orb_true_iff in H as [H|H].
  - left. apply Nat.eqb_eq in H. by rewrite <- (ascii_nat_embedding c), H.
  - right. apply andb_true_iff in H as [_ H]. apply Nat.leb_le in H.
    apply orb_true_iff. left. apply Nat.ltb_lt. lia.
Qed.

Lemma printable_not_space c : printable c = true -> c <> " "%char -> c_isspace c = false.
Proof.
  unfold printable. intros Hp Hs. destruct (c_isspace c) eqn:H; [|done].
  destruct (isspace_cntrl c H) as [->|Hc]; [done|]. by rewrite Hc in Hp.
Qed.

Lemma printable_not_nl c : printable c = true -> c <> c_nl.
Proof. by intros Hp ->. Qed.

Lemma printable_not_cr c : printable c = true -> c <> c_cr.
Proof. by intros Hp ->. Qed.

Lemma take_while_drop p l : take_while p l ++ drop (List.length (take_while p l)) l = l.
Proof. induction l as [|c l IH]; cbn; [done|]. destruct (p c); cbn; by rewrite ?IH. Qed.

Lemma take_while_Forall p l : Forall (fun x => p x = true) (take_while p l).
Proof. induction l as [|c l IH]; cbn; [done|]. destruct (p c) eqn:H; by constructor. Qed.

Lemma head_is_rev p l : head_is p (rev l) = match last l with Some x => p x | None => false end.
Proof. destruct l as [|x l _] using rev_ind; [done|]. by rewrite rev_unit, last_snoc. Qed.

Lemma chug_id l : head_is c_isspace l = false -> chug l = l.
Proof. destruct l as [|c l]; cbn; [done|]. by intros ->. Qed.

Lemma chomp_id l : (forall x, last l = Some x -> c_isspace x = false) -> chomp l = l.
Proof.
  destruct l as [|x l _] using rev_ind; [done|]. rewrite last_snoc. intros H.
  unfold chomp. rewrite rev_unit. cbn. rewrite H by done. cbn. by rewrite rev_involutive.
Qed.

Lemma key_char_not_eq x : key_char x = true -> x <> "="%char.
Proof. by intros H ->. Qed.

Lemma locale_char_not_eq x : locale_char x = true -> x <> "="%char.
Proof. by intros H ->. Qed.

(** The shape [g_key_file_is_key_name] accepts: key characters, not
    starting or ending with a space, then an optional locale. *)
Lemma is_key_name_parts l :
  is_key_name l = true ->
  exists c b loc, l = c :: b ++ loc /\ Forall (fun x => key_char x = true) (c :: b) /\
    c <> " "%char /\ last (c :: b) <> Some " "%char /\
    (loc = [] \/ exists t, loc = "["%char :: t ++ ["]"%char] /\
                           Forall (fun x => locale_char x = true) t).
Proof.
  unfold is_key_name. cbv zeta.
  pose proof (take_while_drop key_char l) as Hl. pose proof (take_while_Forall key_char l) as Hf.
  destruct (take_while key_char l) as [|c b]; [done|].
  intros H. apply andb_true_iff in H as [H HD]. apply andb_true_iff in H as [H HC].
  apply andb_true_iff in H as [_ HB].
  exists c, b, (drop (List.length (c :: b)) l). split; [done|]. split; [done|].
  split; [by intros ->|]. split.
  { rewrite head_is_rev in HC. intros Hlast. by rewrite Hlast in HC. }
  destruct (drop (List.length (c :: b)) l) as [|x r]; [by left|]. right.
  apply andb_true_iff in HD as [Hx HD]. apply Ascii.eqb_eq in Hx as ->.
  pose proof (take_while_drop locale_char r) as Hr. pose proof (take_while_Forall locale_char r).
  destruct (drop (List.length (take_while locale_char r)) r) as [|y [|]]; try done.
  apply Ascii.eqb_eq in HD as ->. exists (take_while locale_char r). by rewrite Hr.
Qed.

Lemma forallb_Forall' (p : ascii -> bool) l : forallb p l = true -> Forall (fun x => p x = true) l.
Proof. induction l as [|c l IH]; cbn; [done|]. intros [? ?]%andb_true_iff. by constructor; [|apply IH]. Qed.

Lemma last_elem (l : chars) x : last l = Some x -> x ∈ l.
Proof. intros [l' ->]%last_Some. set_solver. Qed.

Lemma not_elem_Forall (c : ascii) l : Forall (fun x => x <> c) l -> c ∉ l.
Proof. rewrite Forall_forall. intros H Hin. by apply (H c Hin). Qed.

(** What [key_ok] gives the parser: the line starts with a character
    that is neither white space nor a comment, group or ['='] mark, the
    key has no ['='] and is printable, and does not end in white
    space. *)
Lemma key_ok_line k :
  key_ok k = true ->
  exists c r, list_ascii_of_string k = c :: r /\ c_isspace c = false /\ c <> "#"%char /\
    c <> "["%char /\ c <> "="%char /\ ("="%char ∉ list_ascii_of_string k) /\
    Forall (fun x => printable x = true) (list_ascii_of_string k) /\
    (forall x, last (list_ascii_of_string k) = Some x -> c_isspace x = false).
Proof.
  unfold key_ok. set (l := list_ascii_of_string k). clearbody l.
  intros [[[[Hk Hp]%andb_true_iff Hh]%andb_true_iff _]%andb_true_iff _]%andb_true_iff.
  apply forallb_Forall' in Hp.
  destruct (is_key_name_parts l Hk) as (c & b & loc & -> & Hkc & Hc & Hlast & Hloc).
  pose proof (Forall_inv Hkc) as Hkc0.
  exists c, (b ++ loc). split; [done|]. split; [by apply printable_not_space; [apply (Forall_inv Hp)|]|].
  split; [by intros ->|]. split; [by intros ->|]. split; [by intros ->|].
  split; [|split; [done|]].
  - apply not_elem_Forall. rewrite app_comm_cons. apply Forall_app. split.
    + eapply Forall_impl; [exact Hkc|]. intros x. apply key_char_not_eq.
    + destruct Hloc as [->|(t & -> & Ht)]; [done|]. constructor; [done|].
      apply Forall_app. split; [|by repeat constructor].
      eapply Forall_impl; [exact Ht|]. intros x. apply locale_char_not_eq.
  - intros x Hx. apply printable_not_space.
    + apply (proj1 (Forall_forall _ _) Hp), last_elem, Hx.
    + destruct Hloc as [->|(t & -> & _)].
      * rewrite app_nil_r in Hx. congruence.
      * rewrite app_comm_cons, app_comm_cons, app_assoc, last_snoc in Hx. by injection Hx as <-.
Qed.

Lemma value_ok_facts v :
  value_ok v = true ->
  (c_nl ∉ list_ascii_of_string v) /\ head_is c_isspace (list_ascii_of_string v) = false /\
  last (list_ascii_of_string v) <> Some c_cr.
Proof.
  unfold value_ok. set (l := list_ascii_of_string v). clearbody l.
  intros [[Hn Hs]%andb_true_iff Hc]%andb_true_iff. apply forallb_Forall' in Hn.
  apply negb_true_iff in Hs, Hc. rewrite head_is_rev in Hc. split; [|split; [done|]].
  - apply not_elem_Forall. eapply Forall_impl; [exact Hn|]. intros x Hx ->.
    by rewrite Ascii.eqb_refl in Hx.
  - intros Hl. by rewrite Hl in Hc.
Qed.

Lemma parse_line_pair k v :
  key_ok k = true -> value_ok v = true ->
  parse_line (pair_line (k, v)) =
    inr (LPair (list_ascii_of_string k) (list_ascii_of_string v)).
Proof.
  intros Hk Hv. destruct (key_ok_line k Hk) as (c & r & Hl & Hs & H1 & H2 & H3 & He & _ & Hlast).
  destruct (value_ok_facts v Hv) as (_ & Hvs & _).
  unfold parse_line, pair_line. cbn [fst snd]. rewrite Hl. cbn [app chug]. rewrite Hs.
  cbn [line_is_comment line_is_group line_is_key_value_pair].
  rewrite (proj2 (Ascii.eqb_neq _ _) H1), (proj2 (Ascii.eqb_neq _ _) H2),
    (proj2 (Ascii.eqb_neq _ _) H3). cbn [negb andb].
  replace (existsb _ _) with true.
  2: { symmetry. apply existsb_exists. exists "="%char. split; [|done].
       apply in_or_app. right. by left. }
  rewrite app_comm_cons, <- Hl, break_at_app by done.
  by rewrite chomp_id, chug_id.
Qed.

Lemma line_ok_pair k v : key_ok k = true -> value_ok v = true -> line_ok (pair_line (k, v)).
Proof.
  intros Hk Hv. destruct (key_ok_line k Hk) as (c & r & _ & _ & _ & _ & _ & _ & Hp & _).
  destruct (value_ok_facts v Hv) as (Hn & _ & Hc). unfold pair_line. cbn [fst snd]. split.
  - rewrite elem_of_app, elem_of_cons. intros [Hin|[Heq|Hin]]; [|done|done].
    rewrite Forall_forall in Hp. by apply (printable_not_nl c_nl (Hp _ Hin)).
  - rewrite last_app_cons, last_cons.
    destruct (last (list_ascii_of_string v)) eqn:E; [congruence | by intros [=]].
Qed.

Lemma group_ok_facts g :
  group_ok g = true ->
  ("]"%char ∉ list_ascii_of_string g) /\ Forall (fun x => printable x = true) (list_ascii_of_string g).
Proof.
  unfold group_ok, is_group_name. intros [_ H]%andb_true_iff. apply forallb_Forall' in H. split.
  - apply not_elem_Forall. eapply Forall_impl; [exact H|]. intros x Hx ->. done.
  - eapply Forall_impl; [exact H|]. intros x Hx. cbv beta in Hx. unfold printable.
    destruct (c_iscntrl x); [|done]. by rewrite !orb_true_r in Hx.
Qed.

Lemma parse_line_group g :
  group_ok g = true -> parse_line (group_line g) = inr (LGroup (list_ascii_of_string g)).
Proof.
  intros Hg. pose proof Hg as Hg'. apply group_ok_facts in Hg' as [Hb _].
  unfold parse_line. rewrite (chug_id (group_line g)) by reflexivity. unfold group_line.
  cbn [line_is_comment line_is_group Ascii.eqb Bool.eqb andb].
  rewrite break_at_app by done. cbn [forallb]. unfold group_ok in Hg. by rewrite Hg.
Qed.

Lemma line_ok_group g : group_ok g = true -> line_ok (group_line g).
Proof.
  intros [_ Hp]%group_ok_facts. unfold group_line. split.
  - rewrite elem_of_cons, elem_of_app, list_elem_of_singleton. intros [Heq|[Hin|Heq]]; [done| |done].
    rewrite Forall_forall in Hp. by apply (printable_not_nl c_nl (Hp _ Hin)).
  - by rewrite app_comm_cons, last_snoc.
Qed.

(** ** Parsing a printed key file *)

Lemma key_ok_name k : key_ok k = true -> is_key_name (list_ascii_of_string k) = true.
Proof. unfold key_ok. by intros [[[[? _]%andb_true_iff _]%andb_true_iff _]%andb_true_iff _]%andb_true_iff. Qed.

Lemma key_ok_encoding start g k v :
  key_ok k = true -> encoding_ok start g (string_of_list_ascii (list_ascii_of_string k)) v = true.
Proof.
  rewrite string_of_list_ascii_of_string. unfold key_ok, encoding_ok.
  intros [_ Hk]%andb_true_iff. destruct start; [|done].
  apply negb_true_iff in Hk. by rewrite Hk, andb_false_r.
Qed.

(** The pair lines of a group, read in the group [g] already holding
    [m0], add their keys over [m0]. *)
Lemma parse_pairs start g kvs rest kf m0 :
  Forall (fun kv => key_ok kv.1 = true /\ value_ok kv.2 = true) kvs -> NoDup kvs.*1 ->
  kf !! g = Some m0 ->
  parse_lines (map pair_line kvs ++ rest) start (Some g) kf =
  parse_lines rest start (Some g) (<[g := list_to_map kvs ∪ m0]> kf).
Proof.
  revert kf m0. induction kvs as [|[k v] kvs IH]; intros kf m0 Hok Hnd Hg.
  - cbn. by rewrite (left_id_L ∅ (∪)), insert_id.
  - apply Forall_cons in Hok as [[Hk Hv] Hok]. apply NoDup_cons in Hnd as [Hk' Hnd].
    cbn [map app parse_lines]. rewrite parse_line_pair, key_ok_name, key_ok_encoding by done.
    rewrite !string_of_list_ascii_of_string.
    rewrite (IH _ (<[k := v]> m0)); [|done|done|by unfold add_key; rewrite Hg, lookup_insert_eq].
    unfold add_key. rewrite Hg, insert_insert_eq. cbn [list_to_map foldr fst snd].
    rewrite <- insert_union_r by (by apply not_elem_of_list_to_map_1).
    by rewrite insert_union_l.
Qed.

Lemma parse_groups gs kf start cur :
  Forall (fun gm => group_ok gm.1 = true /\
                    map_Forall (fun k v => key_ok k = true /\ value_ok v = true) gm.2) gs ->
  NoDup gs.*1 -> (forall g, g ∈ gs.*1 -> kf !! g = None) ->
  parse_lines (List.concat (map group_lines gs)) start cur kf = inr (list_to_map gs ∪ kf).
Proof.
  revert kf start cur. induction gs as [|[g m] gs IH]; intros kf start cur Hok Hnd Hfresh.
  - cbn. by rewrite (left_id_L ∅ (∪)).
  - apply Forall_cons in Hok as [[Hg Hm] Hok]. apply NoDup_cons in Hnd as [Hg' Hnd].
    cbn [map List.concat group_lines fst snd app parse_lines].
    rewrite parse_line_group by done. cbn iota. rewrite string_of_list_ascii_of_string.
    unfold add_group. rewrite Hfresh by (cbn; set_solver).
    rewrite (parse_pairs _ _ _ _ _ ∅); [| apply map_Forall_to_list in Hm; eapply Forall_impl; [exact Hm|]; by intros [] | apply NoDup_fst_map_to_list
                          | apply lookup_insert_eq].
    rewrite list_to_map_to_list, (right_id_L ∅ (∪)), insert_insert_eq.
    rewrite IH; [|done|done|].
    + cbn [list_to_map foldr fst snd].
      rewrite <- insert_union_r by (by apply not_elem_of_list_to_map_1).
      by rewrite insert_union_l.
    + intros g'' Hin. rewrite lookup_insert_ne by set_solver. apply Hfresh. cbn. set_solver.
Qed.

Lemma print_lines_ok kf : wf_keyfile kf ->
  Forall line_ok (List.concat (map group_lines (map_to_list kf))).
Proof.
  intros Hwf. apply Forall_concat, Forall_map. apply map_Forall_to_list in Hwf.
  eapply Forall_impl; [exact Hwf|]. intros [g m] [Hg Hm]. cbn in Hg, Hm |- *.
  constructor; [by apply line_ok_group|]. apply Forall_map.
  apply map_Forall_to_list in Hm. eapply Forall_impl; [exact Hm|].
  intros [k v] [Hk Hv]. by apply line_ok_pair.
Qed.

(** Printing then parsing gives back every well-formed key file. *)
Lemma parse_print kf : wf_keyfile kf -> parse_keyfile (print_keyfile kf) = inr kf.
Proof.
  intros Hwf. unfold parse_keyfile, print_keyfile.
  rewrite list_ascii_of_string_of_list_ascii, split_join by by apply print_lines_ok.
  rewrite parse_groups.
  - by rewrite list_to_map_to_list, (right_id_L ∅ (∪)).
  - apply map_Forall_to_list in Hwf. eapply Forall_impl; [exact Hwf|]. by intros [g m].
  - apply NoDup_fst_map_to_list.
  - intros g _. apply lookup_empty.
Qed.

End KeyFileParse.
