(* ===== verification/Json.v ===== *)
(** * Json: the value tree and its builder (json-glib's [JsonBuilder])

    [configure_http_server] ([src/src/main.c] lines 85-97) builds the
    value tree served by the HTTP endpoint with json-glib's
    [JsonBuilder], a library the program only calls.  The builder is
    modelled from its contract (the spec's ValueTreeBuilder, 4.3) as a
    stack machine: a stack of open containers, each an object (with the
    member name set by [json_builder_set_member_name], if any) or an
    array, and the root, set when the outermost container is closed.
    A call whose precondition fails ([g_return_val_if_fail] in the
    library) is [None]: a value can only be added inside an open
    container (an object after its member name, or an array), a
    container can only be begun while there is no root, and only the
    innermost container can be closed.  Doubles are IEEE binary64
    values ([spec_float]), so a C literal such as [3.1415] denotes its
    nearest double.  The calls of [configure_http_server] are the list
    [value_root_ops]; from a new builder they complete the root
    [{"foo": 78, "bar": [3.1415, -1.41]}] ([value_root_ops_run]). *)

From S2P Require Import Prelude.
From Stdlib Require Import Floats.
Open Scope Z_scope.

Module Json.

Local Set Warnings "-register-all".
(** [JsonNode] *)
Inductive node :=
| JNull
| JBool (b : bool)
| JInt (z : Z)
| JDouble (f : spec_float)
| JString (s : string)
| JObject (members : list (string * node))
| JArray (elems : list node).

(** [json_object_set_member]: replace the member of that name, or
    append a new one. *)
Fixpoint obj_set (ms : list (string * node)) (k : string) (v : node)
  : list (string * node) :=
  match ms with
  | [] => [(k, v)]
  | (k', v') :: r => if decide (k = k') then (k, v) :: r else (k', v') :: obj_set r k v
  end.

(** An open container of the builder: an object in mode OBJECT
    ([pending = None]) or MEMBER ([pending = Some name]), or an array. *)
Inductive frame :=
| FObject (members : list (string * node)) (pending : option string)
| FArray (elems : list node).

Record builder := mkBuilder { stack : list frame; root : option node }.

(** [json_builder_new] *)
Definition builder_new : builder := mkBuilder [] None.

(** A finished value goes into the open container: the member of the
    name set last in an object, or the end of an array. *)
Definition attach (n : node) (stk : list frame) : option (list frame) :=
  match stk with
  | FObject ms (Some k) :: rest => Some (FObject (obj_set ms k n) None :: rest)
  | FArray es :: rest => Some (FArray (es ++ [n]) :: rest)
  | _ => None
  end.

(** [json_builder_add_value] (and the [add_*_value] calls): refused
    when no container is open or an object waits for a member name. *)
Definition add_node (n : node) (b : builder) : option builder :=
  match attach n (stack b) with
  | Some stk => Some (mkBuilder stk (root b))
  | None => None
  end.

(** The modes in which a container may be begun: no root yet, and no
    container open or one that accepts a value. *)
Definition accepts (b : builder) : bool :=
  match root b with
  | Some _ => false
  | None => match stack b with
            | [] | FObject _ (Some _) :: _ | FArray _ :: _ => true
            | FObject _ None :: _ => false
            end
  end.

(** A closed container: the root when it was the outermost one, else a
    value of the enclosing container. *)
Definition close_frame (n : node) (rest : list frame) (b : builder) : option builder :=
  match rest with
  | [] => Some (mkBuilder [] (Some n))
  | _ => add_node n (mkBuilder rest (root b))
  end.

(** [json_builder_begin_object] / [json_builder_begin_array] *)
Definition begin_frame (f : frame) (b : builder) : option builder :=
  if accepts b then Some (mkBuilder (f :: stack b) (root b)) else None.

(** [json_builder_set_member_name]: only in mode OBJECT. *)
Definition set_member_name (k : string) (b : builder) : option builder :=
  match stack b with
  | FObject ms None :: rest => Some (mkBuilder (FObject ms (Some k) :: rest) (root b))
  | _ => None
  end.

(** [json_builder_end_object]: only in mode OBJECT. *)
Definition end_object (b : builder) : option builder :=
  match stack b with
  | FObject ms None :: rest => close_frame (JObject ms) rest b
  | _ => None
  end.

(** [json_builder_end_array] *)
Definition end_array (b : builder) : option builder :=
  match stack b with
  | FArray es :: rest => close_frame (JArray es) rest b
  | _ => None
  end.

(** [json_builder_get_root]: the root, if one was completed. *)
Definition get_root (b : builder) : option node := root b.

(** The builder calls, as data. *)
Inductive op :=
| BeginObject | EndObject | BeginArray | EndArray
| SetMemberName (k : string)
| AddValue (n : node).   (* add_int_value, add_double_value, ... *)

Definition step (o : op) (b : builder) : option builder :=
  match o with
  | BeginObject => begin_frame (FObject [] None) b
  | EndObject => end_object b
  | BeginArray => begin_frame (FArray []) b
  | EndArray => end_array b
  | SetMemberName k => set_member_name k b
  | AddValue n => add_node n b
  end.

Fixpoint run (os : list op) (b : builder) : option builder :=
  match os with
  | [] => Some b
  | o :: r => step o b ≫= run r
  end.

(** The value tree of [configure_http_server] (lines 86-94). *)
Local Set Warnings "-inexact-float".
Definition value_root_ops : list op :=
  [ BeginObject;
    SetMemberName "foo"; AddValue (JInt 78);
    SetMemberName "bar";
    BeginArray;
      AddValue (JDouble (Prim2SF 3.1415%float));
      AddValue (JDouble (Prim2SF (-1.41)%float));
    EndArray;
    EndObject ].

Definition value_root_tree : node :=
  JObject [("foo", JInt 78);
           ("bar", JArray [JDouble (Prim2SF 3.1415%float);
                           JDouble (Prim2SF (-1.41)%float)])].
Local Set Warnings "+inexact-float".

(** ** The calls of [configure_http_server] *)

(** From a new builder they complete [value_root_tree] as the root. *)
Lemma value_root_ops_run :
  run value_root_ops builder_new = Some (mkBuilder [] (Some value_root_tree)).
Proof. vm_compute. reflexivity. Qed.

End Json.
