(* ===== verification/GLib.v ===== *)
(** * GLib: the process state the program runs in

    The C program keeps its state in the global [app_ctxt] (an
    [AppContext], [src/src/main.c] lines 16-34) and in heap blocks that
    it obtains from GLib, GObject, json-glib and the DMX and HTTP
    libraries and releases with [g_free], [g_object_unref],
    [g_clear_object] and [g_key_file_unref].  This file models that
    state as a [world]:
    - [w_heap]: the live heap blocks, by address; every block records
      the allocation site (the line of [main.c] whose call created it),
      so that theorems can name the blocks the context owns;
    - [w_ctx]: the global [app_ctxt];
    - [w_log]: the observable calls made so far, oldest first.
    Pointers are [option loc] ([None] is [NULL]).  A computation is a
    [st world stop] program: it can end early by [return] from [main]
    ([Exit]), by a crash (a [NULL] dereference or an invalid free), or
    by waiting forever in the main loop ([Blocked]).

    The library calls whose outcome the program does not decide
    (command-line parsing, file reading, opening the DMX port, starting
    the HTTP server, the signals received) take it from an environment
    [env]; their effect on the heap follows the libraries' contracts
    (the spec, 6). *)

From S2P Require Import Prelude CommandLine KeyFile KeyFileParse Json.
Open Scope glib_scope.
Open Scope Z_scope.

Module GLib.
Import CommandLine KeyFile KeyFileParse Json.

Abbreviation loc := positive.
Abbreviation ptr := (option positive).

(** Allocation sites (lines of [src/src/main.c]). *)
Inductive site :=
| SiteConfigFilename  (* 117: [G_OPTION_ARG_FILENAME] stores a new string *)
| SiteOptionContext   (* 115: [g_option_context_new] *)
| SiteKeyFile         (* 124: [g_key_file_new] *)
| SiteDevice          (* 134: [g_key_file_get_string] of DMXPort.Device *)
| SiteDmxRecv         (* 147: [dmx_recv_new] *)
| SiteHttpServer      (* 153: [http_server_new] *)
| SitePropertyString  (* 58: [g_key_file_get_string] of an HTTP key *)
| SiteJsonBuilder     (* 85: [json_builder_new] *)
| SiteJsonRoot        (* 96: [json_builder_get_root], transfer full *)
| SiteMainLoop.       (* 160: [g_main_loop_new] *)

#[export] Instance site_eq_dec : EqDecision site.
Proof. solve_decision. Defined.

(** Property values of a [GObject]. *)
Inductive gvalue := VUInt (n : Z) | VString (s : string) | VNode (n : option node).

(** The objects the program creates. *)
Inductive gobject :=
| ODmxRecv (device : string)
| OHttpServer (props : gmap string gvalue)
| OJsonBuilder (b : builder).

Inductive data :=
| DString (s : string)
| DKeyFile (kf : keyfile)
| DOptionContext
| DObject (o : gobject) (refcount : nat)
| DNode (n : node)
| DMainLoop (running : bool).

Record block := mkBlock { b_site : site; b_data : data }.

(** [struct AppContext] and its initializer [app_ctxt] (lines 16-34). *)
Record AppContext := mkAppContext {
  config_filename : ptr;
  config_file : ptr;
  dmx_device : ptr;
  dmx_speed : Z;
  dmx_recv : ptr;
  http_server : ptr }.

Definition app_ctxt_init : AppContext := mkAppContext None None None 250000 None None.

Definition set_config_filename p a := mkAppContext p (config_file a) (dmx_device a) (dmx_speed a) (dmx_recv a) (http_server a).
Definition set_config_file p a := mkAppContext (config_filename a) p (dmx_device a) (dmx_speed a) (dmx_recv a) (http_server a).
Definition set_dmx_device p a := mkAppContext (config_filename a) (config_file a) p (dmx_speed a) (dmx_recv a) (http_server a).
Definition set_dmx_speed z a := mkAppContext (config_filename a) (config_file a) (dmx_device a) z (dmx_recv a) (http_server a).
Definition set_dmx_recv p a := mkAppContext (config_filename a) (config_file a) (dmx_device a) (dmx_speed a) p (http_server a).
Definition set_http_server p a := mkAppContext (config_filename a) (config_file a) (dmx_device a) (dmx_speed a) (dmx_recv a) p.

(** Why [g_key_file_load_from_file] fails: the file cannot be read
    ([G_FILE_ERROR]), or its text is not a key file. *)
Inductive load_error :=
| LoadNoFile
| LoadParse (e : KeyFileParse.keyfile_parse_error).

#[export] Instance load_error_eq_dec : EqDecision load_error.
Proof. solve_decision. Defined.

(** [GError]s, by the call that raised them. *)
Inductive gerror :=
| EOption (e : parse_error)     (* g_option_context_parse *)
| EKeyFileLoad (e : load_error) (* g_key_file_load_from_file *)
| EKeyFile (e : keyfile_error)  (* key-file lookups *)
| EDmx                          (* dmx_recv_new *)
| EHttp.                        (* http_server_start *)

(** The observable calls. *)
Inductive event :=
| EvOptionParse (ok : bool)
| EvHelp                         (* GOption printed the help and called [exit (0)] *)
| EvKeyFileLoad (path : string) (ok : bool)
| EvDmxRecvNew (device : string) (ok : bool)
| EvHttpServerNew
| EvHttpServerStart (ok : bool)
| EvSignalAdd
| EvLoopRun
| EvSigInt                       (* [sigint_handler] dispatched *)
| EvPrintErr (what : string) (cause : gerror)
| EvCritical (fn : string)       (* a [g_return_if_fail] check failed *)
| EvRelease (s : site).          (* the block allocated at [s] died *)

(** How a run crashes: [err->message] on a [NULL] [GError *]
    ([NullError]), any other [NULL] pointer dereferenced ([NullDeref]),
    a free of a dead block, an access to a dead block or to a block of
    another kind. *)
Inductive crash := NullError | NullDeref | InvalidFree (l : loc) | BadAccess (l : loc).
(** How a run ends: [return] from [main], a crash, waiting forever in
    the main loop for an event that never comes, or death by a signal
    whose default action was not overridden. *)
Inductive stop := Exit (code : Z) | Crash (c : crash) | Blocked | Signalled.

Definition EXIT_SUCCESS : Z := 0.
Definition EXIT_FAILURE : Z := 1.

Record world := mkWorld {
  w_heap : gmap loc block;
  w_next : loc;
  w_ctx : AppContext;
  w_log : list event;
  w_sigint : option loc }.  (* the SIGINT source of the default main context, by its user_data *)

Abbreviation M := (st world stop).

(** Asynchronous stimuli the main loop receives. *)
Inductive gevent := SigInt | IoEvent.

#[export] Instance gevent_eq_dec : EqDecision gevent.
Proof. solve_decision. Defined.

(** The outcomes decided outside the program. *)
Record env := mkEnv {
  env_argv : list string;                (* the command line, [argv[0]] first *)
  env_files : string -> option string;    (* the text of a readable file *)
  env_dmx : string -> bool;               (* the DMX port opens *)
  env_http : gmap string gvalue -> bool;  (* the HTTP server starts *)
  env_events : list gevent }.

(** The file [path] read and parsed by GLib's key-file parser. *)
Definition read_keyfile (E : env) (path : string) : load_error + keyfile :=
  match env_files E path with
  | None => inl LoadNoFile
  | Some text => match parse_keyfile text with
                 | inl e => inl (LoadParse e)
                 | inr kf => inr kf
                 end
  end.

(** ** Heap primitives *)

Definition add_log (e : event) (w : world) : world :=
  mkWorld (w_heap w) (w_next w) (w_ctx w) (w_log w ++ [e]) (w_sigint w).

Definition log (e : event) : M unit := modify (add_log e).

Definition get_ctx : M AppContext := fun w => (Ok (w_ctx w), w).

Definition with_ctx (f : AppContext -> AppContext) (w : world) : world :=
  mkWorld (w_heap w) (w_next w) (f (w_ctx w)) (w_log w) (w_sigint w).

Definition set_ctx (f : AppContext -> AppContext) : M unit := modify (with_ctx f).

(** The heap updates, as functions on worlds. *)
Definition alloc_world (s : site) (d : data) (w : world) : world :=
  mkWorld (<[w_next w := mkBlock s d]> (w_heap w)) (Pos.succ (w_next w))
          (w_ctx w) (w_log w) (w_sigint w).

Definition put_block (l : loc) (b : block) (w : world) : world :=
  mkWorld (<[l := b]> (w_heap w)) (w_next w) (w_ctx w) (w_log w) (w_sigint w).

Definition drop_block (l : loc) (b : block) (w : world) : world :=
  mkWorld (delete l (w_heap w)) (w_next w) (w_ctx w) (w_log w ++ [EvRelease (b_site b)])
          (w_sigint w).

(** Install or remove the SIGINT source of the default main context. *)
Definition set_sigint (src : option loc) (w : world) : world :=
  mkWorld (w_heap w) (w_next w) (w_ctx w) (w_log w) src.

(** [g_malloc] and friends: a new block at the next free address. *)
Definition alloc (s : site) (d : data) : M loc :=
  fun w => (Ok (w_next w), alloc_world s d w).

Definition load (l : loc) : M data :=
  fun w => match w_heap w !! l with
           | Some b => (Ok (b_data b), w)
           | None => (Halt (Crash (BadAccess l)), w)
           end.

Definition store (l : loc) (d : data) : M unit :=
  fun w => match w_heap w !! l with
           | Some b => (Ok tt, put_block l (mkBlock (b_site b) d) w)
           | None => (Halt (Crash (BadAccess l)), w)
           end.

(** Free the block at [l]; freeing a dead block is a crash. *)
Definition release (l : loc) : M unit :=
  fun w => match w_heap w !! l with
           | Some b => (Ok tt, drop_block l b w)
           | None => (Halt (Crash (InvalidFree l)), w)
           end.

(** [g_free]: [NULL] is ignored. *)
Definition g_free (p : ptr) : M unit :=
  match p with None => ret tt | Some l => release l end.

(** [g_object_unref]: drop a reference; the last one finalizes. *)
Definition g_object_unref (l : loc) : M unit :=
  d <- load l ;;
  match d with
  | DObject o (S (S n)) => store l (DObject o (S n))
  | DObject _ _ => release l
  | _ => halt (Crash (BadAccess l))
  end.

(** [g_clear_object(&p)]: unref a non-[NULL] [p]; the new value of [p]
    is [NULL]. *)
Definition g_clear_object (p : ptr) : M ptr :=
  match p with None => ret None | Some l => g_object_unref l ;; ret None end.

(** [g_key_file_unref]: [g_return_if_fail (key_file != NULL)]. *)
Definition g_key_file_unref (p : ptr) : M unit :=
  match p with None => log (EvCritical "g_key_file_unref") | Some l => release l end.

(** [err->message]: dereferencing a [NULL] [GError *] crashes. *)
Definition deref_error (e : option gerror) : M gerror :=
  match e with Some g => ret g | None => halt (Crash NullError) end.

(** [g_printerr("...: %s\n", err->message)] *)
Definition g_printerr (what : string) (e : option gerror) : M unit :=
  g <- deref_error e ;; log (EvPrintErr what g).

(** ** Library calls *)

Definition load_string (p : ptr) : M string :=
  match p with
  | None => halt (Crash NullDeref)
  | Some l => d <- load l ;;
              match d with DString s => ret s | _ => halt (Crash (BadAccess l)) end
  end.

Definition load_keyfile (l : loc) : M keyfile :=
  d <- load l ;; match d with DKeyFile kf => ret kf | _ => halt (Crash (BadAccess l)) end.

(** [g_option_context_new] / [g_option_context_free] *)
Definition g_option_context_new : M loc := alloc SiteOptionContext DOptionContext.
Definition g_option_context_free (l : loc) : M unit := release l.

(** [g_option_context_parse] with the table [app_options]
    ([CommandLine.goption_parse]): the FILE of [--config-file]/[-c], when
    given, is stored as a new string in [app_ctxt.config_filename]; on a
    parse error GOption reverts what it stored, so the context is left
    as it was; [--help] prints the help and ends the process with
    [exit (0)]. *)
Definition g_option_context_parse (E : env) : M (bool * option gerror) :=
  match goption_parse app_options (env_argv E) with
  | ParseError e => log (EvOptionParse false) ;; ret (false, Some (EOption e))
  | ParseHelp => log EvHelp ;; halt (Exit EXIT_SUCCESS)
  | Parsed None => log (EvOptionParse true) ;; ret (true, None)
  | Parsed (Some f) =>
      l <- alloc SiteConfigFilename (DString f) ;;
      set_ctx (set_config_filename (Some l)) ;;
      log (EvOptionParse true) ;; ret (true, None)
  end.

(** [g_key_file_new] *)
Definition g_key_file_new : M loc := alloc SiteKeyFile (DKeyFile ∅).

(** [g_key_file_load_from_file] *)
Definition g_key_file_load_from_file (E : env) (kfp : ptr) (path : ptr)
  : M (bool * option gerror) :=
  match kfp with
  | None => log (EvCritical "g_key_file_load_from_file") ;; ret (false, None)
  | Some l =>
      _ <- load_keyfile l ;;
      f <- load_string path ;;
      match read_keyfile E f with
      | inr kf => store l (DKeyFile kf) ;; log (EvKeyFileLoad f true) ;; ret (true, None)
      | inl e => log (EvKeyFileLoad f false) ;; ret (false, Some (EKeyFileLoad e))
      end
  end.

(** [g_key_file_get_string]: a new string, or [NULL] and the error.  On
    a [NULL] key file, [g_return_val_if_fail] returns [NULL] and leaves
    the error unset.  [s] is the allocation site of the call. *)
Definition g_key_file_get_string (s : site) (kfp : ptr) (group key : string)
  : M (ptr * option gerror) :=
  match kfp with
  | None => log (EvCritical "g_key_file_get_string") ;; ret (None, None)
  | Some l =>
      kf <- load_keyfile l ;;
      match get_string kf group key with
      | inr v => l' <- alloc s (DString v) ;; ret (Some l', None)
      | inl e => ret (None, Some (EKeyFile e))
      end
  end.

(** [g_key_file_get_integer]: on a [NULL] key file it returns [-1] and
    leaves the error unset. *)
Definition g_key_file_get_integer (kfp : ptr) (group key : string)
  : M (Z * option gerror) :=
  match kfp with
  | None => log (EvCritical "g_key_file_get_integer") ;; ret (-1, None)
  | Some l =>
      kf <- load_keyfile l ;;
      let '(n, e) := get_integer kf group key in ret (n, option_map EKeyFile e)
  end.

(** [dmx_recv_new(device, &err)]: opens the port named [device]. *)
Definition dmx_recv_new (E : env) (dev : ptr) : M (ptr * option gerror) :=
  d <- load_string dev ;;
  if env_dmx E d
  then l <- alloc SiteDmxRecv (DObject (ODmxRecv d) 1) ;;
       log (EvDmxRecvNew d true) ;; ret (Some l, None)
  else log (EvDmxRecvNew d false) ;; ret (None, Some EDmx).

(** [http_server_new]: an HTTP server object with its default
    properties (none set). *)
Definition http_server_new : M ptr :=
  l <- alloc SiteHttpServer (DObject (OHttpServer ∅) 1) ;;
  log EvHttpServerNew ;; ret (Some l).

Definition load_server_props (l : loc) : M (gmap string gvalue) :=
  d <- load l ;;
  match d with
  | DObject (OHttpServer props) _ => ret props
  | _ => halt (Crash (BadAccess l))
  end.

(** [http_server_start(server, &err)] *)
Definition http_server_start (E : env) (p : ptr) : M (bool * option gerror) :=
  match p with
  | None => log (EvCritical "http_server_start") ;; ret (false, None)
  | Some l =>
      props <- load_server_props l ;;
      if env_http E props
      then log (EvHttpServerStart true) ;; ret (true, None)
      else log (EvHttpServerStart false) ;; ret (false, Some EHttp)
  end.

(** [g_object_set(obj, prop, v, NULL)] on the HTTP server: sets the
    property; on anything else GObject warns and does nothing. *)
Definition g_object_set (p : ptr) (prop : string) (v : gvalue) : M unit :=
  match p with
  | None => log (EvCritical "g_object_set")
  | Some l =>
      d <- load l ;;
      match d with
      | DObject (OHttpServer props) rc => store l (DObject (OHttpServer (<[prop := v]> props)) rc)
      | _ => log (EvCritical "g_object_set")
      end
  end.

(** [json_builder_new] *)
Definition json_builder_new : M loc :=
  alloc SiteJsonBuilder (DObject (OJsonBuilder builder_new) 1).

(** One [json_builder_*] call; a failed precondition leaves the builder
    unchanged. *)
Definition json_builder_call (l : loc) (o : op) : M unit :=
  d <- load l ;;
  match d with
  | DObject (OJsonBuilder b) rc =>
      match step o b with
      | Some b' => store l (DObject (OJsonBuilder b') rc)
      | None => log (EvCritical "json_builder")
      end
  | _ => halt (Crash (BadAccess l))
  end.

(** [json_builder_get_root]: a new copy of the root, or [NULL]. *)
Definition json_builder_get_root (l : loc) : M ptr :=
  d <- load l ;;
  match d with
  | DObject (OJsonBuilder b) _ =>
      match get_root b with
      | Some n => r <- alloc SiteJsonRoot (DNode n) ;; ret (Some r)
      | None => ret None
      end
  | _ => halt (Crash (BadAccess l))
  end.

(** The [JsonNode] behind a pointer, for a boxed property copy. *)
Definition load_node (p : ptr) : M (option node) :=
  match p with
  | None => ret None
  | Some l => d <- load l ;;
              match d with DNode n => ret (Some n) | _ => halt (Crash (BadAccess l)) end
  end.

(** ** Lemmas *)

Lemma with_ctx_heap f w : w_heap (with_ctx f w) = w_heap w.
Proof. done. Qed.
Lemma with_ctx_ctx f w : w_ctx (with_ctx f w) = f (w_ctx w).
Proof. done. Qed.
Lemma add_log_heap e w : w_heap (add_log e w) = w_heap w.
Proof. done. Qed.
Lemma add_log_ctx e w : w_ctx (add_log e w) = w_ctx w.
Proof. done. Qed.

Lemma with_ctx_log f w : w_log (with_ctx f w) = w_log w.
Proof. done. Qed.
Lemma add_log_log e w : w_log (add_log e w) = w_log w ++ [e].
Proof. done. Qed.

#[export] Hint Rewrite with_ctx_heap with_ctx_ctx with_ctx_log add_log_heap add_log_ctx
  add_log_log : glib_rw.

Lemma alloc_world_heap s d w :
  w_heap (alloc_world s d w) = <[w_next w := mkBlock s d]> (w_heap w).
Proof. done. Qed.
Lemma alloc_world_ctx s d w : w_ctx (alloc_world s d w) = w_ctx w.
Proof. done. Qed.
Lemma alloc_world_log s d w : w_log (alloc_world s d w) = w_log w.
Proof. done. Qed.
Lemma put_block_heap l b w : w_heap (put_block l b w) = <[l := b]> (w_heap w).
Proof. done. Qed.
Lemma put_block_ctx l b w : w_ctx (put_block l b w) = w_ctx w.
Proof. done. Qed.
Lemma put_block_log l b w : w_log (put_block l b w) = w_log w.
Proof. done. Qed.
Lemma drop_block_heap l b w : w_heap (drop_block l b w) = delete l (w_heap w).
Proof. done. Qed.
Lemma drop_block_ctx l b w : w_ctx (drop_block l b w) = w_ctx w.
Proof. done. Qed.
Lemma drop_block_log l b w : w_log (drop_block l b w) = w_log w ++ [EvRelease (b_site b)].
Proof. done. Qed.

Lemma alloc_world_next s d w : w_next (alloc_world s d w) = Pos.succ (w_next w).
Proof. done. Qed.
Lemma put_block_next l b w : w_next (put_block l b w) = w_next w.
Proof. done. Qed.
Lemma drop_block_next l b w : w_next (drop_block l b w) = w_next w.
Proof. done. Qed.
Lemma add_log_next e w : w_next (add_log e w) = w_next w.
Proof. done. Qed.
Lemma with_ctx_next f w : w_next (with_ctx f w) = w_next w.
Proof. done. Qed.

Lemma set_sigint_heap src w : w_heap (set_sigint src w) = w_heap w.
Proof. done. Qed.
Lemma set_sigint_ctx src w : w_ctx (set_sigint src w) = w_ctx w.
Proof. done. Qed.
Lemma set_sigint_next src w : w_next (set_sigint src w) = w_next w.
Proof. done. Qed.
Lemma set_sigint_log src w : w_log (set_sigint src w) = w_log w.
Proof. done. Qed.

#[export] Hint Rewrite set_sigint_heap set_sigint_ctx set_sigint_next set_sigint_log : glib_rw.
#[export] Hint Rewrite alloc_world_next put_block_next drop_block_next add_log_next
  with_ctx_next : glib_rw.
#[export] Hint Rewrite alloc_world_heap alloc_world_ctx alloc_world_log put_block_heap
  put_block_ctx put_block_log drop_block_heap drop_block_ctx drop_block_log : glib_rw.

(** *** Weakest preconditions of the primitives *)

Section WpRules.
Context {A : Type} (Q : A -> world -> Prop) (Qu : unit -> world -> Prop)
        (R : stop -> world -> Prop) (w : world).

Lemma wp_alloc s d (Ql : loc -> world -> Prop) :
  Ql (w_next w) (alloc_world s d w) -> wp (alloc s d) Ql R w.
Proof. done. Qed.

Lemma wp_log e : Qu tt (add_log e w) -> wp (log e) Qu R w.
Proof. done. Qed.

Lemma wp_set_ctx f : Qu tt (with_ctx f w) -> wp (set_ctx f) Qu R w.
Proof. done. Qed.

Lemma wp_get_ctx (Qa : AppContext -> world -> Prop) :
  Qa (w_ctx w) w -> wp get_ctx Qa R w.
Proof. done. Qed.

Lemma wp_load l b (Qd : data -> world -> Prop) :
  w_heap w !! l = Some b -> Qd (b_data b) w -> wp (load l) Qd R w.
Proof. unfold wp, load. by intros ->. Qed.

Lemma wp_store l b d :
  w_heap w !! l = Some b -> Qu tt (put_block l (mkBlock (b_site b) d) w) -> wp (store l d) Qu R w.
Proof. unfold wp, store. by intros ->. Qed.

Lemma wp_release l b :
  w_heap w !! l = Some b -> Qu tt (drop_block l b w) -> wp (release l) Qu R w.
Proof. unfold wp, release. by intros ->. Qed.

Lemma wp_release_dead l :
  w_heap w !! l = None -> R (Crash (InvalidFree l)) w -> wp (release l) Qu R w.
Proof. unfold wp, release. by intros ->. Qed.

Lemma wp_g_printerr what e :
  (match e with Some g => Qu tt (add_log (EvPrintErr what g) w)
              | None => R (Crash NullError) w end) ->
  wp (g_printerr what e) Qu R w.
Proof. by destruct e. Qed.
End WpRules.

(** *** Tactics *)

(** Read a block in a heap built by the updates above. *)
Ltac lookup_tac :=
  autorewrite with glib_rw;
  repeat first [rewrite lookup_insert_ne by (lia || (intros ?; subst; congruence))
               | rewrite lookup_delete_ne by (lia || (intros ?; subst; congruence))];
  rewrite ?lookup_insert_eq; first [reflexivity | eassumption].

Ltac head_of t := lazymatch t with ?f _ => head_of f | _ => t end.

(** One step of symbolic execution: apply the rule of the primitive in
    head position, or unfold the function called there. *)
Ltac wp_step :=
  lazymatch goal with
  | |- wp (bind _ _) _ _ _ => apply wp_bind
  | |- wp (ret _) _ _ _ => apply wp_ret
  | |- wp (halt _) _ _ _ => apply wp_halt
  | |- wp (alloc _ _) _ _ _ => apply wp_alloc
  | |- wp (log _) _ _ _ => apply wp_log
  | |- wp (set_ctx _) _ _ _ => apply wp_set_ctx
  | |- wp get_ctx _ _ _ => apply wp_get_ctx
  | |- wp (modify _) _ _ _ => apply wp_modify
  | |- wp (load _) _ _ _ => eapply wp_load; [lookup_tac|]
  | |- wp (store _ _) _ _ _ => eapply wp_store; [lookup_tac|]
  | |- wp (release _) _ _ _ => eapply wp_release; [lookup_tac|]
  | |- wp ?m _ _ _ => let h := head_of m in progress unfold h
  end; cbv beta iota.

End GLib.
