(* ===== verification/Ownership.v ===== *)
(** * Ownership: what the context owns, and the operations that leave it alone

    The ownership invariant [ctx_wf] of the global [app_ctxt]
    ([src/src/main.c] lines 16-34) over the heap of [GLib.world]: each
    non-[NULL] pointer field of the context points to a live block of
    its allocation site and kind, each live block of those sites is
    pointed to by its field, and a key file is held only together with
    its file name.  The frame relation [ctx_frame] says that a
    computation kept the context and its blocks (changing only their
    contents in kind), allocated only at fresh addresses, and touched
    no other owned data; the operations that satisfy it are [neutral].
    The tactics here read owned blocks and separate owned addresses. *)

From S2P Require Import Prelude KeyFile Json GLib.
Open Scope glib_scope.
Open Scope Z_scope.

Module Ownership.
Import KeyFile Json GLib.

(** ** Ownership of the context *)

(** The sites whose blocks the context owns, and the field that holds
    each. *)
Definition ctx_site (s : site) : bool :=
  match s with
  | SiteConfigFilename | SiteKeyFile | SiteDevice | SiteDmxRecv | SiteHttpServer => true
  | _ => false
  end.

Definition field_of (s : site) (a : AppContext) : ptr :=
  match s with
  | SiteConfigFilename => config_filename a
  | SiteKeyFile => config_file a
  | SiteDevice => dmx_device a
  | SiteDmxRecv => dmx_recv a
  | SiteHttpServer => http_server a
  | _ => None
  end.

(** The kind of block each owned field points to: strings, the key
    file, and objects of which the context holds the only reference. *)
Definition shape_ok (s : site) (d : data) : Prop :=
  match s with
  | SiteConfigFilename | SiteDevice => exists str, d = DString str
  | SiteKeyFile => exists kf, d = DKeyFile kf
  | SiteDmxRecv => exists dev, d = DObject (ODmxRecv dev) 1
  | SiteHttpServer => exists props, d = DObject (OHttpServer props) 1
  | _ => True
  end.

(** The ownership invariant: every non-[NULL] field points to a live
    block of its site and kind, every live block of an owned site is
    the one its field points to, and a key file is only held with its
    file name (so that [app_cleanup] reaches it). *)
Record ctx_wf (w : world) : Prop := {
  wf_fields : forall s l, ctx_site s = true -> field_of s (w_ctx w) = Some l ->
              exists d, w_heap w !! l = Some (mkBlock s d) /\ shape_ok s d;
  wf_owned : forall l b, w_heap w !! l = Some b -> ctx_site (b_site b) = true ->
             field_of (b_site b) (w_ctx w) = Some l;
  wf_config : is_Some (config_file (w_ctx w)) -> is_Some (config_filename (w_ctx w)) }.

(** A decision procedure for [ctx_wf], for concrete states. *)
Definition shape_okb (s : site) (d : data) : bool :=
  match s, d with
  | SiteConfigFilename, DString _ | SiteDevice, DString _ => true
  | SiteKeyFile, DKeyFile _ => true
  | SiteDmxRecv, DObject (ODmxRecv _) 1 | SiteHttpServer, DObject (OHttpServer _) 1 => true
  | SiteConfigFilename, _ | SiteDevice, _ | SiteKeyFile, _
  | SiteDmxRecv, _ | SiteHttpServer, _ => false
  | _, _ => true
  end.

Definition ctx_sites : list site :=
  [SiteConfigFilename; SiteKeyFile; SiteDevice; SiteDmxRecv; SiteHttpServer].

Definition field_okb (w : world) (s : site) : bool :=
  match field_of s (w_ctx w) with
  | None => true
  | Some l => match w_heap w !! l with
              | Some b => bool_decide (b_site b = s) && shape_okb s (b_data b)
              | None => false
              end
  end.

Definition ctx_wfb (w : world) : bool :=
  forallb (field_okb w) ctx_sites &&
  forallb (fun lb => negb (ctx_site (b_site lb.2)) ||
                     bool_decide (field_of (b_site lb.2) (w_ctx w) = Some lb.1))
          (map_to_list (w_heap w)) &&
  (if config_file (w_ctx w) is Some _ then if config_filename (w_ctx w) is Some _ then true else false
   else true).

(** The world after freeing the block behind [p], if it is live. *)
Definition free_opt (p : ptr) (w : world) : world :=
  match p with
  | None => w
  | Some l =>
      match w_heap w !! l with
      | Some b => mkWorld (delete l (w_heap w)) (w_next w) (w_ctx w)
                          (w_log w ++ [EvRelease (b_site b)]) (w_sigint w)
      | None => w
      end
  end.

Definition delete_opt (p : ptr) (h : gmap loc block) : gmap loc block :=
  match p with None => h | Some l => delete l h end.


(** The setter of the field that owns the blocks of site [s]. *)
Definition set_field (s : site) (p : ptr) (a : AppContext) : AppContext :=
  match s with
  | SiteConfigFilename => set_config_filename p a
  | SiteKeyFile => set_config_file p a
  | SiteDevice => set_dmx_device p a
  | SiteDmxRecv => set_dmx_recv p a
  | SiteHttpServer => set_http_server p a
  | _ => a
  end.

(** Every address from [w_next] on is unused. *)
Definition fresh (w : world) : Prop :=
  forall l, (w_next w <= l)%positive -> w_heap w !! l = None.

(** The invariant of the program's state between two statements. *)
Definition inv (w : world) : Prop := ctx_wf w /\ fresh w.

(** A block of site [s] at [l] was just obtained and is about to be
    stored in its (empty) field: the state is well formed once it is. *)
Definition pending (s : site) (l : loc) (w : world) : Prop :=
  field_of s (w_ctx w) = None /\ inv (with_ctx (set_field s (Some l)) w).

(** The state [w'] keeps the invariant and the context of [w]. *)
Definition kept (w w' : world) : Prop := inv w' /\ w_ctx w' = w_ctx w.

(** A decision procedure for [inv], for concrete states. *)
Definition freshb (w : world) : bool :=
  bool_decide (map_Forall (fun l _ => (l < w_next w)%positive) (w_heap w)).
Definition invb (w : world) : bool := ctx_wfb w && freshb w.

(** ** Lemmas *)

Lemma shape_okb_sound s d : shape_okb s d = true -> shape_ok s d.
Proof. destruct s, d as [| | |[| |] [|[|]]| |]; cbn; try done; eauto. Qed.

Lemma ctx_wfb_sound w : ctx_wfb w = true -> ctx_wf w.
Proof.
  unfold ctx_wfb. rewrite !andb_true_iff, !forallb_forall. intros [[Hf Ho] Hc]. split.
  - intros s l Hs Hl. assert (Hin : s ∈ ctx_sites) by (destruct s; set_solver).
    apply list_elem_of_In, Hf in Hin. unfold field_okb in Hin. rewrite Hl in Hin.
    destruct (w_heap w !! l) as [[s' d]|]; [|done].
    apply andb_true_iff in Hin as [Hs' Hd]. apply bool_decide_eq_true in Hs'. cbn in *. subst.
    eauto using shape_okb_sound.
  - intros l b Hb Hs. apply elem_of_map_to_list, list_elem_of_In, Ho in Hb. cbn in Hb.
    rewrite Hs in Hb. by apply bool_decide_eq_true in Hb.
  - intros [l Hl]. rewrite Hl in Hc. destruct (config_filename (w_ctx w)); [by eexists|done].
Qed.

Lemma inv_ctx_wf w : inv w -> ctx_wf w.
Proof. by intros []. Qed.

Lemma invb_sound w : invb w = true -> inv w.
Proof.
  unfold invb, freshb. rewrite andb_true_iff, bool_decide_eq_true. intros [Hc Hf].
  split; [by apply ctx_wfb_sound|]. intros l Hl. destruct (w_heap w !! l) eqn:E; [|done].
  apply Hf in E. lia.
Qed.

Lemma free_opt_heap p w : w_heap (free_opt p w) = delete_opt p (w_heap w).
Proof.
  destruct p as [l|]; [|done]. cbn.
  destruct (w_heap w !! l) eqn:E; [done|]. by rewrite delete_id.
Qed.

Lemma free_opt_ctx p w : w_ctx (free_opt p w) = w_ctx w.
Proof. destruct p as [l|]; cbn; [destruct (w_heap w !! l)|]; done. Qed.

Lemma lookup_delete_opt p h l :
  delete_opt p h !! l = if decide (p = Some l) then None else h !! l.
Proof.
  destruct p as [l'|]; cbn; [|done].
  rewrite lookup_delete. repeat case_decide; congruence.
Qed.

#[export] Hint Rewrite free_opt_heap free_opt_ctx lookup_delete_opt : glib_rw.

Lemma g_free_spec p w :
  (forall l, p = Some l -> is_Some (w_heap w !! l)) ->
  g_free p w = (Ok tt, free_opt p w).
Proof.
  destruct p as [l|]; intros Hl; [|done]. cbn. unfold release.
  by destruct (Hl l eq_refl) as [b ->].
Qed.

Lemma g_clear_object_spec p w :
  (forall l, p = Some l -> exists s o, w_heap w !! l = Some (mkBlock s (DObject o 1))) ->
  g_clear_object p w = (Ok None, free_opt p w).
Proof.
  destruct p as [l|]; intros Hl; [|done].
  destruct (Hl l eq_refl) as (s & o & Hb).
  unfold g_clear_object, g_object_unref, bind, load, release, ret, free_opt.
  rewrite Hb. cbn. by rewrite Hb.
Qed.

Lemma g_key_file_unref_spec l w :
  is_Some (w_heap w !! l) -> g_key_file_unref (Some l) w = (Ok tt, free_opt (Some l) w).
Proof. intros [b Hb]. cbn. unfold release. by rewrite Hb. Qed.

Section WellFormed.
Variable w : world.
Hypothesis Hwf : ctx_wf w.

Lemma wf_live s l :
  ctx_site s = true -> field_of s (w_ctx w) = Some l -> is_Some (w_heap w !! l).
Proof. intros Hs Hl. destruct (wf_fields _ Hwf s l Hs Hl) as (d & -> & _). by eexists. Qed.

Lemma wf_object s l :
  s = SiteDmxRecv \/ s = SiteHttpServer -> field_of s (w_ctx w) = Some l ->
  exists o, w_heap w !! l = Some (mkBlock s (DObject o 1)).
Proof.
  intros Hs Hl. destruct (wf_fields _ Hwf s l) as (d & Hb & Hd); [by destruct Hs as [->| ->]|done|].
  destruct Hs as [->| ->]; destruct Hd as [o ->]; eauto.
Qed.

(** Distinct owned fields hold distinct addresses. *)
Lemma wf_distinct s s' l :
  ctx_site s = true -> ctx_site s' = true ->
  field_of s (w_ctx w) = Some l -> field_of s' (w_ctx w) = Some l -> s = s'.
Proof.
  intros Hs Hs' Hl Hl'.
  destruct (wf_fields _ Hwf s l Hs Hl) as (d & Hb & _).
  destruct (wf_fields _ Hwf s' l Hs' Hl') as (d' & Hb' & _).
  rewrite Hb in Hb'. by injection Hb'.
Qed.
End WellFormed.

(** ** Tactics for the ownership proofs *)

Ltac site_of f :=
  match f with
  | dmx_recv => SiteDmxRecv | http_server => SiteHttpServer
  | config_filename => SiteConfigFilename | config_file => SiteKeyFile
  | dmx_device => SiteDevice
  end.

(** Push field reads through the context setters. *)
Ltac ctx_simpl :=
  autorewrite with glib_rw in *;
  cbn [set_http_server set_dmx_recv set_dmx_device set_config_file set_config_filename
       set_dmx_speed config_filename config_file dmx_device dmx_recv http_server
       dmx_speed] in *.

(** Two owned fields holding the same address contradict [ctx_wf]. *)
Ltac distinct_tac Hwf :=
  match goal with
  | H1 : ?f1 (w_ctx ?w) = Some ?l, H2 : ?f2 (w_ctx ?w) = Some ?l |- _ =>
      let s1 := site_of f1 in let s2 := site_of f2 in
      assert (s1 = s2) by (by apply (wf_distinct w Hwf s1 s2 l)); discriminate
  end.

Ltac live_tac Hwf := ctx_simpl; repeat case_decide; simplify_eq; try distinct_tac Hwf.

Lemma free_opt_log p w :
  w_log (free_opt p w) = w_log w ++ match p with
                                     | Some l => match w_heap w !! l with Some b => [EvRelease (b_site b)] | None => [] end
                                     | None => [] end.
Proof. destruct p as [l|]; cbn; [destruct (w_heap w !! l)|]; by rewrite ?app_nil_r. Qed.
(** Read the block an owned field points to. *)
Ltac owned_block Hwf H :=
  match type of H with
  | ?f (w_ctx ?w) = Some ?l =>
      let s := site_of f in
      let Hb := fresh "Hb" in
      destruct (wf_fields _ Hwf s l eq_refl H) as (? & Hb & _)
  end.

(** ** Preservation of the invariant *)

Lemma fresh_lt w l b : fresh w -> w_heap w !! l = Some b -> (l < w_next w)%positive.
Proof.
  intros Hf Hl. destruct (Pos.lt_total l (w_next w)) as [?|[->|?]]; [done| |];
    rewrite Hf in Hl by lia; done.
Qed.

Lemma field_of_set_field_same s p a :
  ctx_site s = true -> field_of s (set_field s p a) = p.
Proof. by destruct s. Qed.

Lemma field_of_set_field_other s s' p a :
  s <> s' -> field_of s' (set_field s p a) = field_of s' a.
Proof. by destruct s, s'. Qed.

Lemma set_field_None s a : field_of s a = None -> set_field s None a = a.
Proof. destruct s, a; cbn; intros H; subst; done. Qed.

Lemma inv_add_log e w : inv w -> inv (add_log e w).
Proof. intros [[Hf Ho Hc] Hfr]. split; [split|]; done. Qed.

(** Changing a field that owns nothing keeps the invariant. *)
Lemma inv_with_ctx f w :
  (forall s, field_of s (f (w_ctx w)) = field_of s (w_ctx w)) -> inv w -> inv (with_ctx f w).
Proof.
  intros Hs [[Hf Ho Hc] Hfr]. split; [split|]; cbn.
  - intros s l. rewrite Hs. apply Hf.
  - intros l b Hb. rewrite Hs. by apply Ho.
  - pose proof (Hs SiteKeyFile) as Hk. pose proof (Hs SiteConfigFilename) as Hn.
    cbn in Hk, Hn. rewrite Hk, Hn. apply Hc.
  - done.
Qed.

Lemma inv_alloc s d w : ctx_site s = false -> inv w -> inv (alloc_world s d w).
Proof.
  intros Hs [[Hf Ho Hc] Hfr]. split; [split|]; cbn.
  - intros s' l Hs' Hl. destruct (Hf s' l Hs' Hl) as (d' & Hb & Hd).
    exists d'. rewrite lookup_insert_ne; [done|]. intros Heq. rewrite Hfr in Hb; [done|lia].
  - intros l b Hb Hsb. rewrite lookup_insert in Hb. case_decide; simplify_eq; [cbn in *; congruence|].
    by apply Ho.
  - done.
  - intros l Hl. cbn in *. rewrite lookup_insert_ne by lia. apply Hfr. lia.
Qed.

Lemma inv_put_block l s d0 d w :
  w_heap w !! l = Some (mkBlock s d0) -> (ctx_site s = true -> shape_ok s d) ->
  inv w -> inv (put_block l (mkBlock s d) w).
Proof.
  intros Hl Hd [[Hf Ho Hc] Hfr]. split; [split|]; cbn.
  - intros s' l' Hs Hl'. destruct (Hf s' l' Hs Hl') as (d' & Hb & Hsh).
    rewrite lookup_insert. case_decide; subst; [|eauto].
    rewrite Hl in Hb. simplify_eq. eauto.
  - intros l' b' Hb' Hs. rewrite lookup_insert in Hb'. case_decide; simplify_eq; [|by apply Ho].
    cbn in *. eapply (Ho _ (mkBlock s d0)); eauto.
  - done.
  - intros l' Hl'. cbn in *. rewrite lookup_insert_ne; [by apply Hfr|]. intros ->.
    by rewrite Hfr in Hl.
Qed.

Lemma inv_drop_block l b w :
  w_heap w !! l = Some b -> ctx_site (b_site b) = false -> inv w -> inv (drop_block l b w).
Proof.
  intros Hl Hs [[Hf Ho Hc] Hfr]. split; [split|]; cbn.
  - intros s l' Hs' Hl'. destruct (Hf s l' Hs' Hl') as (d' & Hb & Hsh).
    rewrite lookup_delete_ne; [eauto|]. intros ->. rewrite Hl in Hb. simplify_eq. cbn in *. congruence.
  - intros l' b' Hb'. rewrite lookup_delete_Some in Hb'. destruct Hb'. by apply Ho.
  - done.
  - intros l' Hl'. cbn in *. rewrite lookup_delete_None. right. by apply Hfr.
Qed.

Lemma inv_set_sigint src w : inv w -> inv (set_sigint src w).
Proof. intros [[Hf Ho Hc] Hfr]. split; [split|]; done. Qed.

(** Obtaining a block of an owned site makes it pending for its field. *)
Lemma inv_alloc_pending s d w :
  ctx_site s = true -> field_of s (w_ctx w) = None -> shape_ok s d ->
  (s = SiteKeyFile -> is_Some (config_filename (w_ctx w))) ->
  inv w -> pending s (w_next w) (alloc_world s d w).
Proof.
  intros Hs Hnone Hd Hk [[Hf Ho Hc] Hfr]. split; [done|]. split; [split|]; cbn.
  - intros s' l Hs' Hl. destruct (decide (s' = s)) as [->|Hne].
    + rewrite field_of_set_field_same in Hl by done. simplify_eq.
      exists d. by rewrite lookup_insert_eq.
    + rewrite field_of_set_field_other in Hl by done.
      destruct (Hf s' l Hs' Hl) as (d' & Hb & Hd'). exists d'.
      rewrite lookup_insert_ne; [done|]. intros Heq. rewrite Hfr in Hb; [done|lia].
  - intros l b Hb Hsb. rewrite lookup_insert in Hb. case_decide; simplify_eq; cbn.
    + by rewrite field_of_set_field_same.
    + rewrite field_of_set_field_other; [by apply Ho|]. intros ->.
      pose proof (Ho l b Hb Hsb) as Hl. congruence.
  - destruct s; cbn in *; intros Hkf; eauto; by eexists.
  - intros l Hl. cbn in *. rewrite lookup_insert_ne by lia. apply Hfr. lia.
Qed.

Lemma pending_add_log s l e w : pending s l w -> pending s l (add_log e w).
Proof. intros [Hn Hi]. split; [done|]. by apply (inv_add_log e) in Hi. Qed.

Lemma pending_inv s l w : pending s l w -> inv (with_ctx (set_field s (Some l)) w).
Proof. by intros []. Qed.

(** Releasing the block of an owned field and setting the field to
    [NULL] keeps the invariant (the file name stays while a key file may
    need it). *)
Lemma inv_clear_field s l b w :
  s <> SiteConfigFilename -> ctx_site s = true -> field_of s (w_ctx w) = Some l ->
  w_heap w !! l = Some b -> inv w -> inv (with_ctx (set_field s None) (drop_block l b w)).
Proof.
  intros Hn Hs Hl Hb [Hwf Hfr]. pose proof Hwf as [Hf Ho Hc]. split; [split|]; cbn.
  - intros s' l' Hs' Hl'. destruct (decide (s = s')) as [<-|Hne].
    { by rewrite field_of_set_field_same in Hl'. }
    rewrite field_of_set_field_other in Hl' by done.
    destruct (Hf s' l' Hs' Hl') as (d & Hd & Hsh). exists d. split; [|done].
    rewrite lookup_delete_ne; [done|]. intros Heq. subst l'. by apply Hne, (wf_distinct _ Hwf s s' l).
  - intros l' b' Hb'. apply lookup_delete_Some in Hb' as [Hne Hb'].
    intros Hs'. pose proof (Ho l' b' Hb' Hs') as Hx.
    destruct (decide (s = b_site b')) as [Es|Hne'].
    + rewrite <-Es in Hx. congruence.
    + rewrite field_of_set_field_other by done. by apply Ho.
  - destruct s; cbn in *; done.
  - intros l' Hl'. cbn in *. apply lookup_delete_None. right. by apply Hfr.
Qed.

(** Setting an empty field to [NULL] again changes nothing. *)
Lemma inv_set_field_None s w :
  field_of s (w_ctx w) = None -> inv w -> inv (with_ctx (set_field s None) w).
Proof.
  intros Hn Hi. unfold with_ctx. rewrite set_field_None by done. by destruct w.
Qed.

(** An owned field points to a block below [w_next]. *)
Lemma inv_field_block w s l :
  inv w -> ctx_site s = true -> field_of s (w_ctx w) = Some l ->
  exists d, w_heap w !! l = Some (mkBlock s d) /\ shape_ok s d /\ (l < w_next w)%positive.
Proof.
  intros [Hwf Hfr] Hs Hl. destruct (wf_fields _ Hwf s l Hs Hl) as (d & Hb & Hd).
  exists d. split_and!; [done | done | by eapply fresh_lt].
Qed.

(** *** Tactics for the invariant *)

Ltac site_of_setter f :=
  lazymatch f with
  | set_config_filename => SiteConfigFilename | set_config_file => SiteKeyFile
  | set_dmx_device => SiteDevice | set_dmx_recv => SiteDmxRecv
  | set_http_server => SiteHttpServer
  end.

(** Facts about the fields of the context, from the hypotheses. *)
Ltac ctx_tac := ctx_simpl; cbn [field_of set_field] in *; first [done | congruence | eauto].

(** The same, after expressing the contexts of later states by the
    equations [w_ctx w' = ...] of the hypotheses. *)
Ltac ctx_contra :=
  repeat match goal with
         | Hc : w_ctx ?a = _, H : context [w_ctx ?a] |- _ => progress rewrite Hc in H
         end; ctx_tac.

Ltac inv_tac :=
  lazymatch goal with
  | |- inv (add_log _ _) => apply inv_add_log; inv_tac
  | |- inv (drop_block _ _ _) => eapply inv_drop_block; [lookup_tac | reflexivity | inv_tac]
  | |- inv (put_block _ (mkBlock _ _) _) =>
      eapply inv_put_block; [lookup_tac | cbn; eauto | inv_tac]
  | |- inv (alloc_world _ _ _) => apply inv_alloc; [reflexivity | inv_tac]
  | |- inv (set_sigint _ _) => apply inv_set_sigint; inv_tac
  | |- inv (with_ctx (?f None) (drop_block _ _ _)) =>
      let s := site_of_setter f in
      apply (inv_clear_field s); [done | done | ctx_tac | lookup_tac | inv_tac]
  | |- inv (with_ctx (?f (Some _)) _) =>
      let s := site_of_setter f in apply (pending_inv s); pending_tac
  | |- inv (with_ctx _ _) => apply inv_with_ctx; [intros []; ctx_tac | inv_tac]
  | |- inv _ => assumption
  end
with pending_tac :=
  lazymatch goal with
  | |- pending _ _ (add_log _ _) => apply pending_add_log; pending_tac
  | |- pending _ _ (alloc_world _ _ _) =>
      apply inv_alloc_pending; [reflexivity | ctx_tac | cbn; eauto | intros; ctx_tac | inv_tac]
  end.

(** Symbolic execution of a program under the invariant: [wp_run] steps
    through straight-line code, [wp_auto] also splits on every [match]
    whose scrutinee is unknown.  [wp_special] is a hook for the
    specifications of called functions proved later. *)
Ltac wp_special := fail.

Ltac wp_simpl :=
  progress (autorewrite with glib_rw;
            cbn [set_http_server set_dmx_recv set_dmx_device set_config_file
                 set_config_filename set_dmx_speed config_filename config_file
                 dmx_device dmx_recv http_server dmx_speed b_data b_site get_root root option_map]).

Ltac wp_rewrite_ctx :=
  match goal with
  | H : ?f (w_ctx ?w) = _ |- context [?f (w_ctx ?w)] => rewrite H
  | Hc : w_ctx ?a = w_ctx ?b |- context [w_ctx ?a] => rewrite Hc
  end.

Ltac wp_case :=
  lazymatch goal with
  | |- wp (match ?x with _ => _ end) _ _ _ => destruct x eqn:?
  end.

(** Bring the block of an owned field into the context. *)
Ltac fetch_block :=
  match goal with
  | Hi : inv ?w, H : ?f (w_ctx ?w) = Some ?l |- _ =>
      let s := site_of f in
      lazymatch goal with _ : w_heap w !! l = Some _ |- _ => fail | _ => idtac end;
      let d := fresh "d" in let Hb := fresh "Hb" in
      let Hsh := fresh "Hsh" in let Hlt := fresh "Hlt" in
      destruct (inv_field_block w s l Hi eq_refl H) as (d & Hb & Hsh & Hlt);
      cbn [shape_ok] in Hsh; destruct Hsh as [? ->]
  | Hi : inv ?w', Hc : w_ctx ?w' = w_ctx ?w, H : ?f (w_ctx ?w) = Some ?l |- _ =>
      let s := site_of f in
      lazymatch goal with _ : w_heap w' !! l = Some _ |- _ => fail | _ => idtac end;
      let d := fresh "d" in let Hb := fresh "Hb" in
      let Hsh := fresh "Hsh" in let Hlt := fresh "Hlt" in
      destruct (inv_field_block w' s l Hi eq_refl (eq_trans (f_equal f Hc) H))
        as (d & Hb & Hsh & Hlt);
      cbn [shape_ok] in Hsh; destruct Hsh as [? ->]
  end.

Ltac kept_tac :=
  lazymatch goal with
  | |- kept _ _ => split; [inv_tac | autorewrite with glib_rw in *; congruence]
  end.

(** Relate the context of a new state directly to the oldest known one. *)
Ltac chain_ctx Hc :=
  repeat match type of Hc with
         | w_ctx _ = w_ctx ?b =>
             match goal with H' : w_ctx b = w_ctx _ |- _ => rewrite H' in Hc end
         end.

(** Use the specification [spec] (a [wp] with postcondition [kept]) of
    the call in head position, then go on from the state it leaves. *)
Ltac wp_call spec :=
  lazymatch goal with
  | |- wp (bind _ _) _ _ _ =>
      eapply wp_seq; [eapply spec; try inv_tac; try (autorewrite with glib_rw in *; congruence);
                       try (wp_simpl; reflexivity)
                     | let Hc := fresh "Hc" in
                       intros ? ?w [?Hi Hc]; autorewrite with glib_rw in Hc; chain_ctx Hc]
  | |- wp _ _ _ _ =>
      eapply wp_mono; [eapply spec; try inv_tac; try (autorewrite with glib_rw in *; congruence);
                       try (wp_simpl; reflexivity)
                      | let Hc := fresh "Hc" in
                        intros ? ?w [?Hi Hc]; autorewrite with glib_rw in Hc; chain_ctx Hc | done]
  end.

Ltac wp_run := repeat first [wp_special | wp_step | wp_simpl | wp_rewrite_ctx | fetch_block].
Ltac wp_auto :=
  repeat first [wp_special | wp_step | wp_simpl | wp_rewrite_ctx | fetch_block | wp_case].

End Ownership.
