(* ===== verification/App.v ===== *)
(** * App: the service context's operations ([src/src/main.c] 36-98)

    [app_init], [app_cleanup] (the teardown of the context),
    [configure_string_property] (the property injector) and
    [configure_http_server] (the HTTP server's configuration from the key
    file and its value tree), each a [GLib.M] program over the global
    [app_ctxt].  The theorems show what teardown releases, that it is
    not idempotent, and how the server's properties follow the key file. *)

From S2P Require Import Prelude KeyFile Json GLib Ownership.
Open Scope glib_scope.
Open Scope Z_scope.

Module App.
Import KeyFile Json GLib Ownership.

(** [app_init] (lines 36-39) has an empty body. *)
Definition app_init : M unit := ret tt.

(** [app_cleanup] (lines 41-50). *)
Definition app_cleanup : M unit :=
  app <- get_ctx ;;
  p <- g_clear_object (dmx_recv app) ;; set_ctx (set_dmx_recv p) ;;
  app <- get_ctx ;;
  p <- g_clear_object (http_server app) ;; set_ctx (set_http_server p) ;;
  app <- get_ctx ;;
  g_free (config_filename app) ;;
  (match config_filename app with
   | Some _ => g_key_file_unref (config_file app)
   | None => ret tt
   end) ;;
  g_free (dmx_device app).

(** [configure_string_property] (lines 52-64): copy a string value of
    the key file into a property of [obj]; an absent key is ignored.
    The string returned by [g_key_file_get_string] is never freed. *)
Definition configure_string_property (obj : ptr) (property : string) (config : ptr)
           (group key : string) : M unit :=
  r <- g_key_file_get_string SitePropertyString config group key ;;
  let '(str, err) := r in
  match str with
  | Some _ => s <- load_string str ;; g_object_set obj property (VString s)
  | None => ret tt                                   (* g_clear_error *)
  end.

(** Run the builder calls [os] on the builder at [b], in order. *)
Fixpoint json_builder_calls (b : loc) (os : list op) : M unit :=
  match os with
  | [] => ret tt
  | o :: r => json_builder_call b o ;; json_builder_calls b r
  end.

(** [configure_http_server] (lines 66-98).  The port is read as a
    [gint] into a [guint] variable: a negative value wraps modulo
    [2^32].  The calls of lines 86-94 are [value_root_ops]. *)
Definition configure_http_server : M unit :=
  app <- get_ctx ;;
  r <- g_key_file_get_integer (config_file app) "HTTP" "Port" ;;
  let '(port, err) := r in
  (match err with
   | None => g_object_set (http_server app) "http-port" (VUInt (gint_to_guint port))
   | Some _ => ret tt                                (* g_clear_error *)
   end) ;;
  configure_string_property (http_server app) "user" (config_file app) "HTTP" "User" ;;
  configure_string_property (http_server app) "password" (config_file app) "HTTP" "Password" ;;
  configure_string_property (http_server app) "http-root" (config_file app) "HTTP" "Root" ;;
  builder <- json_builder_new ;;
  json_builder_calls builder value_root_ops ;;
  root <- json_builder_get_root builder ;;
  n <- load_node root ;;
  g_object_set (http_server app) "value-root" (VNode n) ;;
  g_object_unref builder.

(** The state [app_cleanup] leaves: the receiver, the server, the file
    name, the key file (when the file name is set) and the device name
    freed, in this order, and the two object fields set to [NULL]. *)
Definition cleanup_world (w : world) : world :=
  let a := w_ctx w in
  let w1 := with_ctx (set_http_server None)
              (free_opt (http_server a) (with_ctx (set_dmx_recv None) (free_opt (dmx_recv a) w))) in
  let w2 := free_opt (config_filename a) w1 in
  let w3 := match config_filename a, config_file a with
            | Some _, Some _ => free_opt (config_file a) w2
            | Some _, None => add_log (EvCritical "g_key_file_unref") w2
            | None, _ => w2
            end in
  free_opt (dmx_device a) w3.

(** The events of [app_cleanup]: the release of each owned block, in
    the order of lines 44-49. *)
Definition rel (p : ptr) (s : site) : list event :=
  match p with Some _ => [EvRelease s] | None => [] end.
Definition cleanup_events (a : AppContext) : list event :=
  rel (dmx_recv a) SiteDmxRecv ++ rel (http_server a) SiteHttpServer ++
  rel (config_filename a) SiteConfigFilename ++
  match config_filename a, config_file a with
  | Some _, Some _ => [EvRelease SiteKeyFile]
  | Some _, None => [EvCritical "g_key_file_unref"]
  | None, _ => []
  end ++ rel (dmx_device a) SiteDevice.

(** A state with every owned field held: the context of [main] while it
    runs the loop with the configuration [kf] (used by the examples). *)
Definition sample_world_kf (kf : keyfile) : world :=
  mkWorld (list_to_map
             [(1%positive, mkBlock SiteConfigFilename (DString "dmx.conf"));
              (2%positive, mkBlock SiteKeyFile (DKeyFile kf));
              (3%positive, mkBlock SiteDevice (DString "/dev/ttyUSB0"));
              (4%positive, mkBlock SiteDmxRecv (DObject (ODmxRecv "/dev/ttyUSB0") 1));
              (5%positive, mkBlock SiteHttpServer (DObject (OHttpServer ∅) 1));
              (6%positive, mkBlock SitePropertyString (DString "admin"))])
          7 (mkAppContext (Some 1%positive) (Some 2%positive) (Some 3%positive) 250000
                          (Some 4%positive) (Some 5%positive)) [] None.

Definition sample_world : world := sample_world_kf ∅.

(** A key file with a negative port and a user. *)
Definition http_kf : keyfile := {[ "HTTP" := {[ "Port" := "-1"; "User" := "admin" ]} ]}.

(** The contract of the PropertyInjector (spec, 4.2) and of the
    server's configuration (4.4, step 4): a key present in the file sets
    its property, an absent one leaves the property as it was; the port
    is set when it reads as an integer, as the [guint] of that [gint];
    the value tree is always set. *)
Definition inject_string (props : gmap string gvalue) (prop : string) (v : keyfile_error + string) :=
  match v with inr s => <[prop := VString s]> props | inl _ => props end.
Definition inject_port (props : gmap string gvalue) (r : Z * option keyfile_error) :=
  match r with (n, None) => <["http-port" := VUInt (gint_to_guint n)]> props | (_, Some _) => props end.
Definition server_props (kf : keyfile) (props : gmap string gvalue) : gmap string gvalue :=
  <["value-root" := VNode (Some value_root_tree)]>
    (inject_string
      (inject_string
        (inject_string (inject_port props (get_integer kf "HTTP" "Port"))
           "user" (get_string kf "HTTP" "User"))
        "password" (get_string kf "HTTP" "Password"))
      "http-root" (get_string kf "HTTP" "Root")).

(** The server's block at [ls] holds the properties [props]; the key
    file's block at [lk] holds [kf]. *)
Definition srv_at (w : world) (ls : loc) (props : gmap string gvalue) : Prop :=
  w_heap w !! ls = Some (mkBlock SiteHttpServer (DObject (OHttpServer props) 1)).
Definition kf_at (w : world) (lk : loc) (kf : keyfile) : Prop :=
  w_heap w !! lk = Some (mkBlock SiteKeyFile (DKeyFile kf)).

(** ** Lemmas *)

(** [app_cleanup] runs to completion on a well-formed context and
    leaves [cleanup_world]. *)
Lemma app_cleanup_run w : ctx_wf w -> app_cleanup w = (Ok tt, cleanup_world w).
Proof.
  intros Hwf. unfold app_cleanup, cleanup_world. cbn [bind get_ctx].
  erewrite bind_Ok; [| apply g_clear_object_spec; intros l Hl; exists SiteDmxRecv;
                       by apply (wf_object w Hwf SiteDmxRecv); [left|]].
  cbn [bind set_ctx modify get_ctx].
  erewrite bind_Ok; [| apply g_clear_object_spec; intros l Hl].
  2:{ live_tac Hwf. exists SiteHttpServer. by apply (wf_object w Hwf SiteHttpServer); [right|]. }
  cbn [bind set_ctx modify get_ctx]. ctx_simpl.
  erewrite bind_Ok; [| apply g_free_spec; intros l Hl].
  2:{ live_tac Hwf. by apply (wf_live w Hwf SiteConfigFilename). }
  destruct (config_filename (w_ctx w)) as [lf|] eqn:Efn;
    [destruct (config_file (w_ctx w)) as [lk|] eqn:Ekf|].
  - erewrite bind_Ok; [| apply g_key_file_unref_spec].
    2:{ live_tac Hwf. by apply (wf_live w Hwf SiteKeyFile). }
    apply g_free_spec. intros l Hl. live_tac Hwf. by apply (wf_live w Hwf SiteDevice).
  - cbn [bind g_key_file_unref log modify]. apply g_free_spec.
    intros l Hl. live_tac Hwf. by apply (wf_live w Hwf SiteDevice).
  - cbn [bind ret]. apply g_free_spec. intros l Hl. live_tac Hwf.
    by apply (wf_live w Hwf SiteDevice).
Qed.

Ltac cleanup_lookup Hwf :=
  repeat case_decide; simplify_eq;
  match goal with
  | H : ?f (w_ctx _) = Some ?l |- None = Some _ <-> _ =>
      owned_block Hwf H; split; [done | intros [Hl Hs]; simplify_eq; done]
  | |- _ =>
      split; [intros Hl; split; [done|] | by intros []];
      destruct (ctx_site (b_site _)) eqn:Hs; [exfalso|done];
      match goal with
      | Hl : w_heap _ !! _ = Some ?b |- _ =>
          pose proof (wf_owned _ Hwf _ _ Hl Hs) as Hf; destruct b as [[] ?]; cbn in Hf, Hs;
          try discriminate; ctx_simpl; simplify_eq; try congruence;
          try (destruct (wf_config _ Hwf) as [? ?]; [rewrite Hf; by eexists | congruence])
      end
  end.
(** After [app_cleanup], exactly the blocks the context owned are gone. *)
Lemma cleanup_world_heap w l b :
  ctx_wf w ->
  w_heap (cleanup_world w) !! l = Some b <-> w_heap w !! l = Some b /\ ctx_site (b_site b) = false.
Proof.
  intros Hwf. unfold cleanup_world.
  pose proof (wf_config _ Hwf) as Hcfg.
  destruct (config_filename (w_ctx w)) as [lf|] eqn:Efn;
    [destruct (config_file (w_ctx w)) as [lk|] eqn:Ekf|];
  ctx_simpl; rewrite ?Efn, ?Ekf in *; cbn [delete_opt]; ctx_simpl; cleanup_lookup Hwf.
Qed.

(** Freeing a pointer to a block of site [s] logs its release. *)
Lemma free_opt_rel w p s :
  (forall l, p = Some l -> exists d, w_heap w !! l = Some (mkBlock s d)) ->
  w_log (free_opt p w) = w_log w ++ rel p s.
Proof.
  intros Hp. destruct p as [l|]; cbn; [|by rewrite app_nil_r].
  by destruct (Hp l eq_refl) as [d ->].
Qed.

(** The release of each field: the block it points to survives the
    releases of the other fields, which hold other addresses. *)
Ltac site_of_ptr p :=
  lazymatch p with
  | ?f (w_ctx _) => site_of f
  | Some ?l => match goal with _ : ?f (w_ctx _) = Some l |- _ => site_of f end
  | None => SiteDevice
  end.

Ltac free_field Hwf :=
  lazymatch goal with
  | |- context [w_log (free_opt ?p ?w')] =>
      let s := site_of_ptr p in
      rewrite (free_opt_rel w' p s);
      [| let l := fresh "l" in let Hl := fresh "Hl" in
         intros l Hl; simplify_eq; autorewrite with glib_rw; cbn [delete_opt];
         repeat (case_decide; [simplify_eq; distinct_tac Hwf|]);
         match goal with H : ?f (w_ctx _) = Some l |- _ => owned_block Hwf H end; eauto]
  end.

Lemma cleanup_world_log w : ctx_wf w -> w_log (cleanup_world w) = w_log w ++ cleanup_events (w_ctx w).
Proof.
  intros Hwf. unfold cleanup_world, cleanup_events. cbv zeta.
  destruct (config_filename (w_ctx w)) as [lf|] eqn:Efn; [destruct (config_file (w_ctx w)) as [lk|] eqn:Ekf|];
    repeat first [free_field Hwf | rewrite add_log_log | rewrite with_ctx_log];
    rewrite <- ?app_assoc; cbn [rel app]; try done.
Qed.

(** A block the context owned is dead after [app_cleanup]. *)
Lemma cleanup_world_dead w s l :
  ctx_wf w -> ctx_site s = true -> field_of s (w_ctx w) = Some l ->
  w_heap (cleanup_world w) !! l = None.
Proof.
  intros Hwf Hs Hl. destruct (w_heap (cleanup_world w) !! l) as [b|] eqn:E; [|done].
  apply cleanup_world_heap in E as [E Hb]; [|done].
  destruct (wf_fields _ Hwf s l Hs Hl) as (d & E' & _). rewrite E in E'. simplify_eq. cbn in Hb. congruence.
Qed.

Lemma cleanup_world_ctx w :
  w_ctx (cleanup_world w) = set_http_server None (set_dmx_recv None (w_ctx w)).
Proof.
  unfold cleanup_world. ctx_simpl.
  by destruct (config_filename (w_ctx w)), (config_file (w_ctx w)); ctx_simpl.
Qed.

Lemma put_block_same l b w : w_heap w !! l = Some b -> put_block l b w = w.
Proof. intros Hl. destruct w. unfold put_block. cbn in *. by rewrite insert_id. Qed.

Lemma put_block_twice l b b' w : put_block l b (put_block l b' w) = put_block l b w.
Proof. unfold put_block. cbn. by rewrite insert_insert_eq. Qed.

(** The builder calls of [configure_http_server] act as [Json.run]. *)
Lemma json_builder_calls_run os b s bs bs' rc w :
  run os bs = Some bs' -> w_heap w !! b = Some (mkBlock s (DObject (OJsonBuilder bs) rc)) ->
  json_builder_calls b os w = (Ok tt, put_block b (mkBlock s (DObject (OJsonBuilder bs') rc)) w).
Proof.
  revert bs w. induction os as [|o os IH]; intros bs w Hrun Hb; cbn in Hrun.
  - simplify_eq. by rewrite put_block_same.
  - destruct (step o bs) as [bs1|] eqn:Hs; [|done]. cbn in Hrun.
    cbn. unfold json_builder_call, bind, load. rewrite Hb. cbn. rewrite Hs.
    unfold store. rewrite Hb. cbn.
    rewrite (IH bs1); [by rewrite put_block_twice | done |].
    cbn. by rewrite lookup_insert_eq.
Qed.

Lemma wp_json_builder_calls os b s bs bs' rc (Q : unit -> world -> Prop) R w :
  w_heap w !! b = Some (mkBlock s (DObject (OJsonBuilder bs) rc)) -> run os bs = Some bs' ->
  Q tt (put_block b (mkBlock s (DObject (OJsonBuilder bs') rc)) w) ->
  wp (json_builder_calls b os) Q R w.
Proof. intros Hb Hrun HQ. eapply wp_eval; [eapply json_builder_calls_run; eauto | done]. Qed.

(** *** The configuration of the server keeps the invariant *)

Lemma wp_configure_string_property w ls prop c g k R :
  inv w -> http_server (w_ctx w) = Some ls -> config_file (w_ctx w) = c ->
  wp (configure_string_property (Some ls) prop c g k) (fun _ => kept w) R w.
Proof. intros Hi Hs <-. unfold configure_string_property. wp_auto; kept_tac. Qed.

Ltac wp_special ::=
  lazymatch goal with
  | |- wp (bind (json_builder_calls _ _) _) _ _ _ =>
      apply wp_bind; eapply wp_json_builder_calls; [lookup_tac | apply value_root_ops_run |]
  | |- wp (bind (configure_string_property (Some _) _ _ _ _) _) _ _ _ =>
      wp_call wp_configure_string_property
  end.

Lemma wp_configure_http_server w ls R :
  inv w -> http_server (w_ctx w) = Some ls -> wp configure_http_server (fun _ => kept w) R w.
Proof. intros Hi Hs. unfold configure_http_server. wp_auto; kept_tac. Qed.

Lemma wp_configure_string_property_props w ls lk kf props prop g k R :
  inv w -> http_server (w_ctx w) = Some ls -> config_file (w_ctx w) = Some lk ->
  kf_at w lk kf -> srv_at w ls props ->
  wp (configure_string_property (Some ls) prop (Some lk) g k)
     (fun _ w' => kept w w' /\ kf_at w' lk kf /\ srv_at w' ls (inject_string props prop (get_string kf g k))) R w.
Proof.
  unfold kf_at, srv_at. intros Hi Hs Hk Hkf Hsv.
  pose proof (fresh_lt w ls _ (proj2 Hi) Hsv). pose proof (fresh_lt w lk _ (proj2 Hi) Hkf).
  unfold configure_string_property. wp_auto; cbn [inject_string]; (split; [kept_tac | split; lookup_tac]).
Qed.

(** *** The configuration of the server sets its properties *)

Ltac wp_special ::=
  lazymatch goal with
  | |- wp (bind (json_builder_calls _ _) _) _ _ _ =>
      apply wp_bind; eapply wp_json_builder_calls; [lookup_tac | apply value_root_ops_run |]
  | |- wp (bind (configure_string_property (Some _) _ (Some _) _ _) _) _ _ _ =>
      eapply wp_seq;
        [eapply wp_configure_string_property_props; [inv_tac | ctx_contra | ctx_contra | unfold kf_at; lookup_tac | unfold srv_at; lookup_tac]
        | let w' := fresh "w" in let Hi := fresh "Hi" in let Hc := fresh "Hc" in
          let Hk := fresh "Hk" in let Hs := fresh "Hs" in
          intros ? w' [[Hi Hc] [Hk Hs]]; unfold kf_at, srv_at in Hk, Hs;
          pose proof (fresh_lt _ _ _ (proj2 Hi) Hs); pose proof (fresh_lt _ _ _ (proj2 Hi) Hk);
          autorewrite with glib_rw in Hc; chain_ctx Hc]
  end.

(** The run of [configure_http_server] on a state holding the server
    and a loaded key file. *)
Lemma wp_configure_http_server_run w ls lk kf props R :
  inv w -> http_server (w_ctx w) = Some ls -> config_file (w_ctx w) = Some lk ->
  kf_at w lk kf -> srv_at w ls props ->
  wp configure_http_server (fun _ w' => kept w w' /\ srv_at w' ls (server_props kf props)) R w.
Proof.
  unfold kf_at, srv_at. intros Hi Hs Hk Hkf Hsv.
  pose proof (fresh_lt w ls _ (proj2 Hi) Hsv). pose proof (fresh_lt w lk _ (proj2 Hi) Hkf).
  unfold configure_http_server. wp_auto; (split; [kept_tac | unfold server_props; rewrite Heqp; destruct o; cbn in *; try discriminate; lookup_tac]).
Qed.

(** C7: [configure_http_server] implements the contract of the
    PropertyInjector: on a state holding the server and a loaded key
    file [kf], it returns, keeps the invariant and the context, and
    leaves the server with exactly the properties [server_props kf]
    gives: the port when [HTTP.Port] reads as an integer, the user,
    the password and the root when present, and the value tree;
    every other property as it was. *)
Theorem configure_http_server_props w ls lk kf props R :
  inv w -> http_server (w_ctx w) = Some ls -> config_file (w_ctx w) = Some lk ->
  kf_at w lk kf -> srv_at w ls props ->
  wp configure_http_server (fun _ w' => kept w w' /\ srv_at w' ls (server_props kf props)) R w.
Proof. apply wp_configure_http_server_run. Qed.

Lemma lookup_inject_string_ne props prop v k :
  prop <> k -> inject_string props prop v !! k = props !! k.
Proof. intros Hne. destruct v; cbn; [done|]. by rewrite lookup_insert_ne. Qed.

(** C24: A port that GLib reads as a negative [gint] [n] (say
    [HTTP.Port=-1]) is stored in the [guint] variable of line 70 and
    set on the server as [n + 2^32]. *)
Theorem configure_http_server_port_wraps w ls lk kf props v n R :
  inv w -> http_server (w_ctx w) = Some ls -> config_file (w_ctx w) = Some lk ->
  kf_at w lk kf -> srv_at w ls props ->
  get_value kf "HTTP" "Port" = inr v -> parse_value_as_integer v = inr n -> n < 0 ->
  wp configure_http_server
     (fun _ w' => exists props', srv_at w' ls props' /\ props' !! "http-port" = Some (VUInt (n + 2 ^ 32))) R w.
Proof.
  intros Hi Hs Hk Hkf Hsv Hv Hn Hneg.
  eapply wp_mono; [by eapply wp_configure_http_server_run | | done].
  intros _ w' [_ Hsrv]. eexists; split; [exact Hsrv|]. unfold server_props, inject_port, get_integer.
  rewrite Hv, Hn, lookup_insert_ne, !lookup_inject_string_ne, lookup_insert_eq by done.
  apply parse_value_in_gint, in_gint_spec in Hn. rewrite gint_to_guint_neg; [done|]. split; [apply Hn | done].
Qed.

(** C25: The string [g_key_file_get_string] returns to
    [configure_string_property] (line 58) is never freed: it is still
    live after [app_cleanup]. *)
Theorem configure_string_property_leak w ls lk kf props prop g k s R :
  inv w -> http_server (w_ctx w) = Some ls -> config_file (w_ctx w) = Some lk ->
  kf_at w lk kf -> srv_at w ls props -> get_string kf g k = inr s ->
  wp (configure_string_property (Some ls) prop (Some lk) g k)
     (fun _ w' => w_heap (cleanup_world w') !! w_next w = Some (mkBlock SitePropertyString (DString s))) R w.
Proof.
  unfold kf_at, srv_at. intros Hi Hs Hk Hkf Hsv Hg.
  pose proof (fresh_lt w ls _ (proj2 Hi) Hsv). pose proof (fresh_lt w lk _ (proj2 Hi) Hkf).
  unfold configure_string_property. wp_auto; rewrite Hg in *; simplify_eq.
  apply cleanup_world_heap; [by apply inv_ctx_wf; inv_tac | split; [lookup_tac | done]].
Qed.

(** Without a key file ([config_file] is [NULL]) the lookup of a
    string property fails its [g_return_val_if_fail] check and sets
    nothing. *)
Lemma configure_string_property_null obj prop g k w :
  configure_string_property obj prop None g k w =
    (Ok tt, add_log (EvCritical "g_key_file_get_string") w).
Proof. reflexivity. Qed.

Ltac wp_special ::=
  lazymatch goal with
  | |- wp (bind (json_builder_calls _ _) _) _ _ _ =>
      apply wp_bind; eapply wp_json_builder_calls; [lookup_tac | apply value_root_ops_run |]
  | |- wp (bind (configure_string_property _ _ None _ _) _) _ _ _ =>
      apply wp_bind; eapply wp_eval; [apply configure_string_property_null | cbv beta iota]
  end.

(** C27: [configure_http_server] without a key file ([config_file] is
    [NULL], line 72): [g_key_file_get_integer] fails its
    [g_return_val_if_fail] check, returns [-1] and leaves [err] unset,
    so the port is set to [(guint) -1 = 4294967295] instead of being
    left at the server's default; the string properties are skipped.
    ([main] never calls it so: without a key file the device lookup of
    line 134 fails first.) *)
Theorem configure_http_server_null_config w ls props R :
  inv w -> http_server (w_ctx w) = Some ls -> config_file (w_ctx w) = None -> srv_at w ls props ->
  wp configure_http_server
     (fun _ w' => srv_at w' ls (<["value-root" := VNode (Some value_root_tree)]>
                                  (<["http-port" := VUInt 4294967295]> props))) R w.
Proof.
  unfold srv_at. intros Hi Hs Hk Hsv. pose proof (fresh_lt w ls _ (proj2 Hi) Hsv).
  unfold configure_http_server. wp_auto. lookup_tac.
Qed.

(** ** Properties of the teardown *)

(** C12: [app_cleanup] on a well-formed context returns normally, frees
    exactly the blocks the context owns (receiver, server, file name,
    key file, device name) and no other block, logs the releases in the
    order of lines 44-49, and leaves the two object fields [NULL]. *)
Theorem app_cleanup_releases_owned w :
  ctx_wf w ->
  exists w', app_cleanup w = (Ok tt, w') /\
    (forall l b, w_heap w' !! l = Some b <->
                 w_heap w !! l = Some b /\ ctx_site (b_site b) = false) /\
    w_log w' = w_log w ++ cleanup_events (w_ctx w) /\
    dmx_recv (w_ctx w') = None /\ http_server (w_ctx w') = None.
Proof.
  intros Hwf. exists (cleanup_world w).
  rewrite app_cleanup_run, cleanup_world_log, cleanup_world_ctx by done.
  split_and!; [done | intros; by apply cleanup_world_heap | done | done | done].
Qed.

(** C26: the receiver is released before the server, although it was
    acquired first: teardown is not in reverse order of acquisition. *)
Theorem app_cleanup_receiver_first w lr ls :
  ctx_wf w -> dmx_recv (w_ctx w) = Some lr -> http_server (w_ctx w) = Some ls ->
  exists w' rest, app_cleanup w = (Ok tt, w') /\
    w_log w' = w_log w ++ EvRelease SiteDmxRecv :: EvRelease SiteHttpServer :: rest.
Proof.
  intros Hwf Hr Hs. exists (cleanup_world w).
  rewrite app_cleanup_run, cleanup_world_log by done. unfold cleanup_events.
  rewrite Hr, Hs. by eexists.
Qed.

(** C6: teardown is not idempotent: once the device name is set, a
    second [app_cleanup] frees a string the first one already freed,
    because [app_cleanup] does not reset [config_filename] and
    [dmx_device] to [NULL]. *)
Theorem app_cleanup_twice_double_free w l :
  ctx_wf w -> dmx_device (w_ctx w) = Some l ->
  exists l' w', (app_cleanup ;; app_cleanup) w = (Halt (Crash (InvalidFree l')), w').
Proof.
  intros Hwf Hl. erewrite bind_Ok by (by apply app_cleanup_run).
  unfold app_cleanup.
  do 3 (cbn [bind get_ctx set_ctx modify g_clear_object ret]; ctx_simpl;
        rewrite ?cleanup_world_ctx; ctx_simpl).
  unfold release. ctx_simpl.
  destruct (config_filename (w_ctx w)) as [lf|] eqn:Ef; cbn [g_free bind release].
  - erewrite bind_Halt; [by eauto|]. unfold release. ctx_simpl.
    by rewrite (cleanup_world_dead w SiteConfigFilename lf).
  - rewrite Hl. cbn [bind ret g_free]. unfold release. ctx_simpl.
    rewrite (cleanup_world_dead w SiteDevice l) by done. eauto.
Qed.

(** ** Examples *)

Lemma sample_world_wf : ctx_wf sample_world.
Proof. apply ctx_wfb_sound. vm_compute. reflexivity. Qed.

Lemma app_cleanup_releases_owned_witness :
  exists w', app_cleanup sample_world = (Ok tt, w') /\
             w_log w' = cleanup_events (w_ctx sample_world).
Proof.
  destruct (app_cleanup_releases_owned sample_world sample_world_wf)
    as (w' & Hrun & _ & Hlog & _).
  exists w'. split; [exact Hrun | exact Hlog].
Defined.

Lemma app_cleanup_receiver_first_witness :
  exists w' rest, app_cleanup sample_world = (Ok tt, w') /\
    w_log w' = EvRelease SiteDmxRecv :: EvRelease SiteHttpServer :: rest.
Proof.
  exact (app_cleanup_receiver_first sample_world 4%positive 5%positive
           sample_world_wf eq_refl eq_refl).
Defined.

Lemma app_cleanup_twice_double_free_witness :
  exists l' w', (app_cleanup ;; app_cleanup) sample_world = (Halt (Crash (InvalidFree l')), w').
Proof. exact (app_cleanup_twice_double_free sample_world 3%positive sample_world_wf eq_refl). Defined.

Lemma sample_world_inv : inv (sample_world_kf http_kf).
Proof. apply invb_sound. vm_compute. reflexivity. Qed.

Lemma configure_http_server_props_witness :
  wp configure_http_server
     (fun _ w' => kept (sample_world_kf http_kf) w' /\ srv_at w' 5 (server_props http_kf ∅))
     (fun _ _ => False) (sample_world_kf http_kf).
Proof. apply (configure_http_server_props (sample_world_kf http_kf) 5 2 http_kf ∅); [apply sample_world_inv | reflexivity..]. Defined.

Lemma configure_http_server_port_wraps_witness :
  wp configure_http_server
     (fun _ w' => exists props', srv_at w' 5 props' /\ props' !! "http-port" = Some (VUInt (-1 + 2 ^ 32)))
     (fun _ _ => False) (sample_world_kf http_kf).
Proof.
  apply (configure_http_server_port_wraps (sample_world_kf http_kf) 5 2 http_kf ∅ "-1" (-1));
    [apply sample_world_inv | reflexivity.. | lia].
Defined.

Lemma configure_http_server_null_config_witness :
  wp configure_http_server
     (fun _ w' => srv_at w' 5 (<["value-root" := VNode (Some value_root_tree)]>
                                 (<["http-port" := VUInt 4294967295]> ∅)))
     (fun _ _ => True)
     (mkWorld (delete 2%positive (w_heap sample_world)) 7
              (set_config_file None (w_ctx sample_world)) [] None).
Proof.
  apply configure_http_server_null_config; [apply invb_sound; vm_compute; reflexivity | reflexivity..].
Defined.

Lemma configure_string_property_leak_witness :
  wp (configure_string_property (Some 5%positive) "user" (Some 2%positive) "HTTP" "User")
     (fun _ w' => w_heap (cleanup_world w') !! 7%positive = Some (mkBlock SitePropertyString (DString "admin")))
     (fun _ _ => False) (sample_world_kf http_kf).
Proof.
  apply (configure_string_property_leak (sample_world_kf http_kf) 5 2 http_kf ∅ "user" "HTTP" "User" "admin");
    [apply sample_world_inv | reflexivity..].
Defined.

End App.
