(* ===== verification/Config.v ===== *)
(** * Config: the ConfigStore interface and the server's configuration

    The specification describes the configuration store (4.1) by its
    typed lookups, an absent value being "not found" rather than an
    error, and recommends (9) an explicit configuration record for the
    HTTP server instead of string-keyed properties.  This file states
    the store as a type class [ConfigStore] with its laws
    [ConfigStoreLaws], the configuration of the server a store
    determines ([config_of]) and how it applies to the server's
    properties ([apply_config]).  GKeyFile is an instance
    ([keyfile_store], laws [keyfile_store_laws]), and the properties
    [configure_http_server] ([src/src/main.c] lines 66-98) sets, as
    [App.server_props] gives them, are those of the explicit
    configuration of its key file ([server_props_config]).  What is
    proved against the class ([apply_config_empty]) holds of every
    lawful store, GKeyFile included. *)

From S2P Require Import Prelude KeyFile Json GLib Ownership App.
Open Scope glib_scope.

Module Config.
Import KeyFile Json GLib Ownership App.

(** The typed lookups of a configuration store, and the store of a
    run without a configuration source. *)
Class ConfigStore (K : Type) := {
  cs_empty : K;
  cs_string : K -> string -> string -> option string;
  cs_integer : K -> string -> string -> option Z }.

(** Without a source every lookup is absent; an integer found is a
    [gint]. *)
Class ConfigStoreLaws (K : Type) `{!ConfigStore K} := {
  cs_empty_string : forall group key, cs_string cs_empty group key = None;
  cs_empty_integer : forall group key, cs_integer cs_empty group key = None;
  cs_integer_gint : forall s group key n, cs_integer s group key = Some n -> in_gint n = true }.

(** The explicit configuration of the HTTP server (spec, 6 and 9). *)
Record server_config := mkServerConfig {
  sc_port : option Z;
  sc_user : option string;
  sc_password : option string;
  sc_root : option string }.

Definition config_of {K} `{!ConfigStore K} (s : K) : server_config :=
  mkServerConfig (cs_integer s "HTTP" "Port") (cs_string s "HTTP" "User")
                 (cs_string s "HTTP" "Password") (cs_string s "HTTP" "Root").

(** Set a property when the configuration has a value for it. *)
Definition set_opt (prop : string) (v : option gvalue) (props : gmap string gvalue) :=
  match v with Some x => <[prop := x]> props | None => props end.

(** The server's properties under a configuration: each value present
    overrides the server's default, the port as the [guint] of its
    [gint], and the value tree is attached. *)
Definition apply_config (c : server_config) (props : gmap string gvalue) : gmap string gvalue :=
  <["value-root" := VNode (Some value_root_tree)]>
    (set_opt "http-root" (VString <$> sc_root c)
      (set_opt "password" (VString <$> sc_password c)
        (set_opt "user" (VString <$> sc_user c)
          (set_opt "http-port" ((fun n => VUInt (gint_to_guint n)) <$> sc_port c) props)))).

(** GKeyFile as a store: a lookup error is an absent value. *)
#[export] Instance keyfile_store : ConfigStore keyfile := {
  cs_empty := ∅;
  cs_string kf group key :=
    match get_string kf group key with inr v => Some v | inl _ => None end;
  cs_integer kf group key :=
    match get_integer kf group key with (n, None) => Some n | (_, Some _) => None end }.

(** ** Against the interface *)

Section Generic.
Context {K : Type} `{!ConfigStore K} `{!ConfigStoreLaws K}.

(** Without a configuration source the server keeps every default and
    only receives the value tree (spec, 4.2 and 8). *)
Lemma apply_config_empty props :
  apply_config (config_of cs_empty) props = <["value-root" := VNode (Some value_root_tree)]> props.
Proof. unfold apply_config, config_of. cbn. by rewrite !cs_empty_string, cs_empty_integer. Qed.

End Generic.

(** ** GKeyFile is a lawful store *)

#[export] Instance keyfile_store_laws : ConfigStoreLaws keyfile.
Proof.
  split; [done | done |].
  intros kf group key n. cbn. destruct (get_integer kf group key) as [m [e|]] eqn:Hg; [done|].
  intros [= <-]. revert Hg. unfold get_integer.
  destruct (get_value kf group key); [done|].
  destruct (parse_value_as_integer _) eqn:Hp; [done|]. intros [= <-].
  by eapply parse_value_in_gint.
Qed.

(** The properties [configure_http_server] sets are those of the
    explicit configuration of its key file. *)
Lemma server_props_config kf props : server_props kf props = apply_config (config_of kf) props.
Proof.
  unfold server_props, apply_config, config_of, inject_port, inject_string. cbn.
  by destruct (get_integer kf "HTTP" "Port") as [n [e|]], (get_string kf "HTTP" "User"),
    (get_string kf "HTTP" "Password"), (get_string kf "HTTP" "Root").
Qed.

(** A key file without the [HTTP] group configures the server as no
    source at all. *)
Lemma config_of_no_http kf : kf !! "HTTP" = None -> config_of kf = config_of (cs_empty (K:=keyfile)).
Proof.
  intros Hg. unfold config_of. cbn. unfold get_string, get_integer, get_value. by rewrite Hg.
Qed.

(** C8: Absent configuration keeps the server's defaults (spec, 4.2
    and 8): when the key file has no [HTTP] group, the server
    configuration it determines is that of a store without any value
    ([config_of], the ConfigStore interface), and
    [configure_http_server] returns, keeps the invariant and the
    context, and leaves every property of the server as it was (its
    built-in port, root and credentials), setting only the value
    tree. *)
Theorem configure_http_server_defaults w ls lk kf props R :
  inv w -> http_server (w_ctx w) = Some ls -> config_file (w_ctx w) = Some lk ->
  kf_at w lk kf -> srv_at w ls props -> kf !! "HTTP" = None ->
  config_of kf = config_of (cs_empty (K:=keyfile)) /\
  wp configure_http_server
     (fun _ w' => kept w w' /\ srv_at w' ls (<["value-root" := VNode (Some value_root_tree)]> props))
     R w.
Proof.
  intros Hi Hs Hk Hkf Hsv Hg. split; [by apply config_of_no_http|].
  eapply wp_mono; [by eapply wp_configure_http_server_run | | done].
  intros _ w' [Hkept Hsrv]. split; [done|].
  by rewrite server_props_config, config_of_no_http, apply_config_empty in Hsrv.
Qed.

Lemma configure_http_server_defaults_witness :
  inv sample_world /\
  config_of (∅ : keyfile) = config_of (cs_empty (K:=keyfile)) /\
  wp configure_http_server
     (fun _ w' => kept sample_world w' /\
                  srv_at w' 5 (<["value-root" := VNode (Some value_root_tree)]> ∅))
     (fun _ _ => True) sample_world.
Proof.
  assert (Hi : inv sample_world) by (apply invb_sound; vm_compute; reflexivity).
  split; [exact Hi|].
  apply (configure_http_server_defaults sample_world 5 2 ∅ ∅); [exact Hi | reflexivity..].
Defined.

End Config.
