(* ===== verification/Loop.v ===== *)
(** * Loop: the run loop and the interrupt handler

    [sigint_handler] ([src/src/main.c] lines 9-14) and the GLib main
    loop calls of [main] (lines 160-164): [g_main_loop_new],
    [g_unix_signal_add(SIGINT, sigint_handler, loop)],
    [g_main_loop_run] and [g_main_loop_unref].  The loop is single
    threaded: it takes the pending stimuli of the environment in order,
    dispatches each, and stops after the iteration in which
    [g_main_loop_quit] was called.  Stimuli other than SIGINT belong to
    the DMX receiver and the HTTP server, which the program does not
    observe; they leave the modelled state unchanged. *)

From S2P Require Import Prelude KeyFile Json GLib.
Open Scope glib_scope.

Module Loop.
Import GLib.

Definition load_loop (l : loc) : M bool :=
  d <- load l ;;
  match d with DMainLoop running => ret running | _ => halt (Crash (BadAccess l)) end.

(** [g_main_loop_new(NULL, FALSE)] *)
Definition g_main_loop_new : M loc := alloc SiteMainLoop (DMainLoop false).

(** [g_main_loop_quit] *)
Definition g_main_loop_quit (l : loc) : M unit :=
  _ <- load_loop l ;; store l (DMainLoop false).

(** [g_main_loop_unref]: the program holds the only reference. *)
Definition g_main_loop_unref (l : loc) : M unit :=
  _ <- load_loop l ;; release l.

(** [sigint_handler] (lines 9-14): quit the loop given as user data and
    return [TRUE], which keeps the source installed. *)
Definition sigint_handler (user_data : loc) : M bool :=
  log EvSigInt ;; g_main_loop_quit user_data ;; ret true.

(** [g_unix_signal_add(SIGINT, sigint_handler, loop)]: install the
    SIGINT source on the default main context. *)
Definition g_unix_signal_add (user_data : loc) : M unit :=
  log EvSignalAdd ;; modify (set_sigint (Some user_data)).

Definition get_sigint_source : M (option loc) := fun w => (Ok (w_sigint w), w).

(** Dispatch one stimulus.  SIGINT runs the handler of the installed
    source; a [FALSE] result would remove the source.  With no source
    installed, SIGINT's default action kills the process. *)
Definition dispatch (ev : gevent) : M unit :=
  match ev with
  | SigInt =>
      src <- get_sigint_source ;;
      match src with
      | Some ud =>
          keep <- sigint_handler ud ;;
          if keep then ret tt
          else modify (set_sigint None)
      | None => halt Signalled
      end
  | IoEvent => ret tt
  end.

(** The iterations of [g_main_loop_run]: while the loop runs, dispatch
    the next stimulus; with none left, the loop waits forever. *)
Fixpoint loop_iterate (l : loc) (evs : list gevent) : M unit :=
  match evs with
  | [] => halt Blocked
  | ev :: rest =>
      dispatch ev ;;
      running <- load_loop l ;;
      if running then loop_iterate l rest else ret tt
  end.

(** [g_main_loop_run] *)
Definition g_main_loop_run (E : env) (l : loc) : M unit :=
  _ <- load_loop l ;;
  store l (DMainLoop true) ;;
  log EvLoopRun ;;
  loop_iterate l (env_events E).

(** A process whose loop (at address 1) runs with the SIGINT source
    installed, for the examples. *)
Definition running_world : world :=
  mkWorld {[1%positive := mkBlock SiteMainLoop (DMainLoop true)]} 2 app_ctxt_init [] (Some 1%positive).

(** ** The loop and the interrupt *)

Section Running.
Variable (l : loc) (w : world).
Hypothesis Hl : w_heap w !! l = Some (mkBlock SiteMainLoop (DMainLoop true)).
Hypothesis Hsrc : w_sigint w = Some l.

Lemma loop_iterate_io k evs :
  loop_iterate l (repeat IoEvent k ++ evs) w = loop_iterate l evs w.
Proof.
  induction k as [|k IH]; [done|]. cbn [repeat app loop_iterate].
  unfold dispatch, load_loop, bind, ret, load. rewrite Hl. cbn. exact IH.
Qed.

(** C17: The loop stops at the first SIGINT, after any number of other
    stimuli: the handler runs once and quits the loop, and the stimuli
    after it are never dispatched (a second SIGINT has no effect, spec
    9). *)
Theorem loop_first_sigint k rest :
  loop_iterate l (repeat IoEvent k ++ SigInt :: rest) w =
    (Ok tt, put_block l (mkBlock SiteMainLoop (DMainLoop false)) (add_log EvSigInt w)).
Proof.
  rewrite loop_iterate_io. cbn [loop_iterate].
  unfold dispatch, get_sigint_source, sigint_handler, g_main_loop_quit, load_loop, bind, ret, log,
    modify, load, store. rewrite Hsrc. cbn. rewrite Hl. cbn. rewrite Hl. cbn.
  by rewrite lookup_insert_eq.
Qed.

(** Without a SIGINT the loop never returns: once the stimuli run out
    it waits in [g_main_loop_run] forever, with the state as it was. *)
Theorem loop_blocks_without_sigint k :
  loop_iterate l (repeat IoEvent k) w = (Halt Blocked, w).
Proof. rewrite <-(app_nil_r (repeat IoEvent k)), loop_iterate_io. done. Qed.

End Running.

(** ** Examples *)

Lemma loop_first_sigint_witness :
  loop_iterate 1 [IoEvent; SigInt; SigInt] running_world =
    (Ok tt, put_block 1 (mkBlock SiteMainLoop (DMainLoop false)) (add_log EvSigInt running_world)).
Proof. apply (loop_first_sigint 1 running_world eq_refl eq_refl 1 [SigInt]). Defined.

End Loop.
