(* ===== verification/Main.v ===== *)
(** * Main: the startup sequence, the run and the teardown ([main],
    [src/src/main.c] lines 107-168)

    [main] is split into its stages, each a [GLib.M] program that ends
    the run with [Exit EXIT_FAILURE] (after a diagnostic and
    [app_cleanup]) on a fatal failure:
    - [main_options]  (113-122) parse the command line;
    - [main_config]   (123-132) load the key file named by [-c];
    - [main_device]   (133-139) read DMXPort.Device, required;
    - [main_speed]    (140-145) read DMXPort.Speed, default 250000;
    - [main_acquire]  (147-152) open the DMX receiver;
    - [main_http]     (153-159) create, configure and start the HTTP
      server, dropping it if it does not start;
    - [main_run]      (160-167) run the loop until SIGINT, tear down. *)

From S2P Require Import Prelude KeyFile Json GLib App Loop.
Open Scope glib_scope.
Open Scope Z_scope.

Module Main.
Import KeyFile GLib App Loop.

(** [g_printerr(what, err->message); app_cleanup(&app_ctxt); return EXIT_FAILURE;] *)
Definition fail_with (what : string) (err : option gerror) {A} : M A :=
  g_printerr what err ;; app_cleanup ;; halt (Exit EXIT_FAILURE).

Definition main_options (E : env) : M unit :=
  app_init ;;
  opt_ctxt <- g_option_context_new ;;
  r <- g_option_context_parse E ;;
  let '(ok, err) := r in
  if ok then g_option_context_free opt_ctxt
  else fail_with "Failed to parse options" err.

Definition main_config (E : env) : M unit :=
  app <- get_ctx ;;
  match config_filename app with
  | Some _ =>
      kf <- g_key_file_new ;;
      set_ctx (set_config_file (Some kf)) ;;
      app <- get_ctx ;;
      r <- g_key_file_load_from_file E (config_file app) (config_filename app) ;;
      let '(ok, err) := r in
      if ok then ret tt else fail_with "Failed to read configuration file" err
  | None => ret tt
  end.

Definition main_device : M unit :=
  app <- get_ctx ;;
  r <- g_key_file_get_string SiteDevice (config_file app) "DMXPort" "Device" ;;
  let '(dev, err) := r in
  set_ctx (set_dmx_device dev) ;;
  match dev with
  | Some _ => ret tt
  | None => fail_with "No device" err
  end.

Definition main_speed : M unit :=
  app <- get_ctx ;;
  r <- g_key_file_get_integer (config_file app) "DMXPort" "Speed" ;;
  let '(speed, err) := r in
  set_ctx (set_dmx_speed speed) ;;
  match err with
  | Some _ => set_ctx (set_dmx_speed 250000)          (* and g_clear_error *)
  | None => ret tt
  end.

Definition main_acquire (E : env) : M unit :=
  app <- get_ctx ;;
  r <- dmx_recv_new E (dmx_device app) ;;
  let '(recv, err) := r in
  set_ctx (set_dmx_recv recv) ;;
  match recv with
  | Some _ => ret tt
  | None => fail_with "Failed setup DMX port" err
  end.

Definition main_http (E : env) : M unit :=
  srv <- http_server_new ;;
  set_ctx (set_http_server srv) ;;
  configure_http_server ;;
  app <- get_ctx ;;
  r <- http_server_start E (http_server app) ;;
  let '(ok, err) := r in
  if ok then ret tt
  else g_printerr "Failed to setup HTTP server" err ;;
       app <- get_ctx ;;
       p <- g_clear_object (http_server app) ;;
       set_ctx (set_http_server p).                   (* and g_clear_error *)

Definition main_run (E : env) : M Z :=
  loop <- g_main_loop_new ;;
  g_unix_signal_add loop ;;
  g_main_loop_run E loop ;;
  g_main_loop_unref loop ;;
  app_cleanup ;;
  ret EXIT_SUCCESS.

(** [main] *)
Definition main (E : env) : M Z :=
  main_options E ;;
  main_config E ;;
  main_device ;;
  main_speed ;;
  main_acquire E ;;
  main_http E ;;
  main_run E.

(** The process at start: empty heap, [app_ctxt] initialized, no
    signal source. *)
Definition init_world : world := mkWorld ∅ 1 app_ctxt_init [] None.


(** A key file with [DMXPort.Speed] set to [speed_text], for the
    examples. *)
Definition speed_world (speed_text : string) : world :=
  mkWorld {[1%positive := mkBlock SiteKeyFile
                            (DKeyFile {[ "DMXPort" := {[ "Speed" := speed_text ]} ]})]}
          2 (set_config_file (Some 1%positive) app_ctxt_init) [] None.

(** An environment without SIGINT, for the examples. *)
Definition quiet_env : env :=
  mkEnv ["dmx2c2ip"] (fun _ => None) (fun _ => false) (fun _ => false) [IoEvent; IoEvent].

(** ** The speed *)

(** [main_speed] on a loaded key file: the value [g_key_file_get_integer]
    reads, or [250000] when it raises an error. *)
Lemma main_speed_keyfile w l kf :
  config_file (w_ctx w) = Some l -> w_heap w !! l = Some (mkBlock SiteKeyFile (DKeyFile kf)) ->
  main_speed w = (Ok tt, with_ctx (set_dmx_speed (let '(n, e) := get_integer kf "DMXPort" "Speed" in
                                                   match e with Some _ => 250000 | None => n end)) w).
Proof.
  intros Hc Hb.
  unfold main_speed, g_key_file_get_integer, load_keyfile, load, get_ctx, bind, set_ctx, modify, ret.
  rewrite Hc. cbn. rewrite Hb. cbn. by destruct (get_integer kf "DMXPort" "Speed") as [n [e|]].
Qed.

(** C15: When [DMXPort.Speed] is missing (no group or no key) or its
    value is not a [gint] GLib's reader accepts, [main_speed] succeeds
    with the speed [250000] and changes nothing else (spec, 8). *)
Theorem main_speed_default w l kf :
  config_file (w_ctx w) = Some l -> w_heap w !! l = Some (mkBlock SiteKeyFile (DKeyFile kf)) ->
  (forall v, get_value kf "DMXPort" "Speed" = inr v -> exists e, parse_value_as_integer v = inl e) ->
  main_speed w = (Ok tt, with_ctx (set_dmx_speed 250000) w).
Proof.
  intros Hc Hb Hv. rewrite (main_speed_keyfile w l kf Hc Hb). unfold get_integer.
  destruct (get_value kf "DMXPort" "Speed") as [e|v]; [done|].
  by destruct (Hv v eq_refl) as [e ->].
Qed.

(** C16: A [DMXPort.Speed] written as the decimal text of a [gint] [n]
    is read back as [n], also when white space and any text follow it
    (so [Speed=12 baud] gives 12, where the spec, 8, expects the
    default for a value that is not an integer). *)
Theorem main_speed_configured w l kf n rest :
  config_file (w_ctx w) = Some l -> w_heap w !! l = Some (mkBlock SiteKeyFile (DKeyFile kf)) ->
  get_value kf "DMXPort" "Speed" = inr (String.append (int_to_string n) rest) ->
  in_gint n = true -> (str_is_empty rest || str_head_isspace rest) = true ->
  main_speed w = (Ok tt, with_ctx (set_dmx_speed n) w).
Proof.
  intros Hc Hb Hv Hn Hr. rewrite (main_speed_keyfile w l kf Hc Hb). unfold get_integer.
  by rewrite Hv, parse_int_to_string.
Qed.

(** C14: A [DMXPort.Speed] that is the decimal text of an integer
    outside the [gint] range (such as [4294967296]) is rejected by the
    integer reader, so [main_speed] falls back to [250000]: the value is
    never truncated into the [int] field [dmx_speed]. *)
Theorem main_speed_out_of_range w l kf n rest :
  config_file (w_ctx w) = Some l -> w_heap w !! l = Some (mkBlock SiteKeyFile (DKeyFile kf)) ->
  get_value kf "DMXPort" "Speed" = inr (String.append (int_to_string n) rest) ->
  in_gint n = false -> Z.abs n < 10 ^ 20 -> (str_is_empty rest || str_head_isspace rest) = true ->
  main_speed w = (Ok tt, with_ctx (set_dmx_speed 250000) w).
Proof.
  intros Hc Hb Hv Hn Ha Hr. rewrite (main_speed_keyfile w l kf Hc Hb).
  by rewrite (get_integer_out_of_range kf _ _ n rest).
Qed.

(** ** The run *)

(** C28: Without a SIGINT among the stimuli, [main_run] never returns:
    it waits in [g_main_loop_run], so neither [app_cleanup] nor the
    [return EXIT_SUCCESS] of line 167 is reached. *)
Theorem main_run_blocks_without_sigint E w k :
  env_events E = repeat IoEvent k -> (main_run E w).1 = Halt Blocked.
Proof.
  intros Hev. unfold main_run, g_main_loop_new, g_unix_signal_add, g_main_loop_run, load_loop,
    bind, alloc, log, modify, load, store, ret.
  cbn -[loop_iterate]. rewrite lookup_insert_eq. cbn -[loop_iterate]. rewrite lookup_insert_eq.
  cbn -[loop_iterate]. rewrite Hev, loop_blocks_without_sigint; [done|]. cbn. by rewrite lookup_insert_eq.
Qed.

(** ** Examples *)

Lemma main_speed_default_witness :
  main_speed (speed_world "fast") = (Ok tt, with_ctx (set_dmx_speed 250000) (speed_world "fast")).
Proof.
  apply (main_speed_default _ 1 {[ "DMXPort" := {[ "Speed" := "fast" ]} ]}); [reflexivity..|].
  intros v [= <-]. by eexists.
Defined.

Lemma main_speed_configured_witness :
  main_speed (speed_world "12 baud") = (Ok tt, with_ctx (set_dmx_speed 12) (speed_world "12 baud")).
Proof.
  apply (main_speed_configured _ 1 {[ "DMXPort" := {[ "Speed" := "12 baud" ]} ]} 12 " baud");
    reflexivity.
Defined.

Lemma main_speed_out_of_range_witness :
  main_speed (speed_world "4294967296") =
    (Ok tt, with_ctx (set_dmx_speed 250000) (speed_world "4294967296")).
Proof.
  apply (main_speed_out_of_range _ 1 {[ "DMXPort" := {[ "Speed" := "4294967296" ]} ]}
           4294967296 ""); [reflexivity.. | lia | reflexivity].
Defined.

Lemma main_run_blocks_without_sigint_witness : (main_run quiet_env init_world).1 = Halt Blocked.
Proof. apply (main_run_blocks_without_sigint quiet_env init_world 2). reflexivity. Defined.

End Main.
