(* ===== verification/ReadOnly.v ===== *)
(** * ReadOnly: the configuration is read-only once loaded

    The spec (1) describes the ConfigStore as "read-only after load".
    In [src/src/main.c] the key file is filled once, by
    [g_key_file_load_from_file] (line 125); the stages of [main] that
    follow (lines 133-167: the device and speed lookups, the receiver,
    the server and its configuration, the loop and the teardown) only
    read it.  This file states that as a relation between the state
    where those stages start and every state they reach: each block
    holding key-file data at the end was already there, with the same
    content ([kf_from]).  The proof is call by call:
    [preserves (kf_from w0)] for every library call and function of
    the program, composed with [preserves_bind] and the hint database
    [readonly]. *)

From S2P Require Import Prelude CommandLine KeyFile Json GLib App Loop Main.
Open Scope glib_scope.

Module ReadOnly.
Import GLib App Loop Main.

Definition is_keyfile (d : data) : bool :=
  match d with DKeyFile _ => true | _ => false end.

(** Every block of [w] that holds key-file data is a block of [w0]. *)
Definition kf_from (w0 w : world) : Prop :=
  forall l b, w_heap w !! l = Some b -> is_keyfile (b_data b) = true -> w_heap w0 !! l = Some b.

(** What [main] does once the configuration is loaded (lines 133-167). *)
Definition main_after_config (E : env) : M Z :=
  main_device ;;
  main_speed ;;
  main_acquire E ;;
  main_http E ;;
  main_run E.

Create HintDb readonly.

(** ** The heap updates *)

Section Updates.
Variable w0 : world.

Lemma kf_from_refl : kf_from w0 w0.
Proof. by intros l b ? _. Qed.

Lemma kf_from_alloc s d w :
  is_keyfile d = false -> kf_from w0 w -> kf_from w0 (alloc_world s d w).
Proof.
  intros Hd Hw l b. cbn. rewrite lookup_insert_Some.
  intros [[_ <-]|[_ Hl]] Hk; [cbn in Hk; congruence | by apply Hw].
Qed.

Lemma kf_from_put l s d w :
  is_keyfile d = false -> kf_from w0 w -> kf_from w0 (put_block l (mkBlock s d) w).
Proof.
  intros Hd Hw l' b. cbn. rewrite lookup_insert_Some.
  intros [[_ <-]|[_ Hl]] Hk; [cbn in Hk; congruence | by apply Hw].
Qed.

Lemma kf_from_drop l b w : kf_from w0 w -> kf_from w0 (drop_block l b w).
Proof. intros Hw l' b'. cbn. rewrite lookup_delete_Some. intros [_ Hl]. by apply Hw. Qed.

(** A call that leaves the heap as it is. *)
Lemma preserves_kf_same {A} (m : M A) :
  (forall w, w_heap (snd (m w)) = w_heap w) -> preserves (kf_from w0) m.
Proof.
  intros Hm w r w' Hw Hr l b. specialize (Hm w). rewrite Hr in Hm. cbn in Hm.
  rewrite Hm. apply Hw.
Qed.

End Updates.

(** Unfold a call applied to the state and case on every lookup and
    match, keeping the equations. *)
Ltac ro_unfold :=
  let w := fresh "w" in let Hw := fresh "Hw" in let Hr := fresh "Hr" in
  intros w ? ? Hw Hr;
  repeat (try unfold bind, ret, halt, get, put, modify, load, store, release, alloc in Hr;
          first [ progress simplify_eq/= | case_match ]).

Ltac ro_close :=
  first [ done
        | by apply kf_from_drop
        | by apply kf_from_put
        | by apply kf_from_alloc ].

(** Decompose a program into its calls, casing on every match. *)
Ltac ro_auto :=
  repeat match goal with
  | |- preserves (kf_from _) (bind _ _) => apply preserves_bind; [| intros ?]
  | |- preserves (kf_from _) (match ?x with _ => _ end) => destruct x
  | |- preserves (kf_from _) ((fun _ => _) _) => cbv beta
  end; eauto with readonly glib.

(** ** The calls *)

Section Calls.
Variable w0 : world.

Lemma ro_load l : preserves (kf_from w0) (load l).
Proof. apply preserves_kf_same. intros w. unfold load. by case_match. Qed.
Lemma ro_release l : preserves (kf_from w0) (release l).
Proof. unfold release. ro_unfold; ro_close. Qed.
Lemma ro_alloc s d : is_keyfile d = false -> preserves (kf_from w0) (alloc s d).
Proof. intros ?. unfold alloc. ro_unfold; ro_close. Qed.
Lemma ro_modify f : (forall w, w_heap (f w) = w_heap w) -> preserves (kf_from w0) (modify (H:=stop) f).
Proof. intros. by apply preserves_kf_same. Qed.
Lemma ro_log e : preserves (kf_from w0) (log e).
Proof. by apply ro_modify. Qed.
Lemma ro_set_ctx f : preserves (kf_from w0) (set_ctx f).
Proof. by apply ro_modify. Qed.
Lemma ro_set_sigint src : preserves (kf_from w0) (modify (H:=stop) (set_sigint src)).
Proof. by apply ro_modify. Qed.
Lemma ro_get_ctx : preserves (kf_from w0) get_ctx.
Proof. by apply preserves_kf_same. Qed.
Lemma ro_get_sigint_source : preserves (kf_from w0) get_sigint_source.
Proof. by apply preserves_kf_same. Qed.
Lemma ro_g_object_unref l : preserves (kf_from w0) (g_object_unref l).
Proof. unfold g_object_unref. ro_unfold; ro_close. Qed.

End Calls.

#[export] Hint Resolve ro_load ro_release ro_log ro_set_ctx ro_set_sigint ro_get_ctx
  ro_get_sigint_source ro_g_object_unref : readonly.
#[export] Hint Extern 1 (preserves (kf_from _) (alloc _ _)) =>
  apply ro_alloc; reflexivity : readonly.

Section Library.
Variable w0 : world.

Lemma ro_g_free p : preserves (kf_from w0) (g_free p).
Proof. unfold g_free. ro_auto. Qed.
Lemma ro_g_clear_object p : preserves (kf_from w0) (g_clear_object p).
Proof. unfold g_clear_object. ro_auto. Qed.
Lemma ro_g_key_file_unref p : preserves (kf_from w0) (g_key_file_unref p).
Proof. unfold g_key_file_unref. ro_auto. Qed.
Lemma ro_g_printerr what e : preserves (kf_from w0) (g_printerr what e).
Proof. unfold g_printerr, deref_error. ro_auto. Qed.
Lemma ro_load_string p : preserves (kf_from w0) (load_string p).
Proof. unfold load_string. ro_auto. Qed.
Lemma ro_load_keyfile l : preserves (kf_from w0) (load_keyfile l).
Proof. unfold load_keyfile. ro_auto. Qed.

End Library.

#[export] Hint Resolve ro_g_free ro_g_clear_object ro_g_key_file_unref ro_g_printerr
  ro_load_string ro_load_keyfile : readonly.

Section Objects.
Variable w0 : world.

(** The lookups only read the key file. *)
Lemma ro_g_key_file_get_string s kfp group key :
  preserves (kf_from w0) (g_key_file_get_string s kfp group key).
Proof. unfold g_key_file_get_string. ro_auto. Qed.
Lemma ro_g_key_file_get_integer kfp group key :
  preserves (kf_from w0) (g_key_file_get_integer kfp group key).
Proof. unfold g_key_file_get_integer. ro_auto. Qed.
Lemma ro_dmx_recv_new E dev : preserves (kf_from w0) (dmx_recv_new E dev).
Proof. unfold dmx_recv_new. ro_auto. Qed.
Lemma ro_http_server_new : preserves (kf_from w0) http_server_new.
Proof. unfold http_server_new. ro_auto. Qed.
Lemma ro_http_server_start E p : preserves (kf_from w0) (http_server_start E p).
Proof. unfold http_server_start, load_server_props. ro_auto. Qed.
Lemma ro_g_object_set p prop v : preserves (kf_from w0) (g_object_set p prop v).
Proof. unfold g_object_set, log. ro_unfold; ro_close. Qed.
Lemma ro_json_builder_call l o : preserves (kf_from w0) (json_builder_call l o).
Proof. unfold json_builder_call, log. ro_unfold; ro_close. Qed.
Lemma ro_json_builder_get_root l : preserves (kf_from w0) (json_builder_get_root l).
Proof. unfold json_builder_get_root. ro_auto. Qed.
Lemma ro_json_builder_new : preserves (kf_from w0) json_builder_new.
Proof. unfold json_builder_new. ro_auto. Qed.
Lemma ro_load_node p : preserves (kf_from w0) (load_node p).
Proof. unfold load_node. ro_auto. Qed.

End Objects.

#[export] Hint Resolve ro_g_key_file_get_string ro_g_key_file_get_integer ro_dmx_recv_new
  ro_http_server_new ro_http_server_start ro_g_object_set ro_json_builder_call
  ro_json_builder_get_root ro_json_builder_new ro_load_node : readonly.

Lemma ro_load_loop w0 l : preserves (kf_from w0) (load_loop l).
Proof. unfold load_loop. ro_auto. Qed.
#[export] Hint Resolve ro_load_loop : readonly.

Lemma ro_g_main_loop_quit w0 l : preserves (kf_from w0) (g_main_loop_quit l).
Proof. unfold g_main_loop_quit, load_loop. ro_unfold; ro_close. Qed.
Lemma ro_g_main_loop_unref w0 l : preserves (kf_from w0) (g_main_loop_unref l).
Proof. unfold g_main_loop_unref. ro_auto. Qed.
Lemma ro_g_unix_signal_add w0 l : preserves (kf_from w0) (g_unix_signal_add l).
Proof. unfold g_unix_signal_add. ro_auto. Qed.
#[export] Hint Resolve ro_g_main_loop_quit ro_g_main_loop_unref ro_g_unix_signal_add : readonly.

Lemma ro_dispatch w0 ev : preserves (kf_from w0) (dispatch ev).
Proof. unfold dispatch, sigint_handler. ro_auto. Qed.
#[export] Hint Resolve ro_dispatch : readonly.

Lemma ro_loop_iterate w0 l evs : preserves (kf_from w0) (loop_iterate l evs).
Proof. induction evs; cbn [loop_iterate]; ro_auto. Qed.

Lemma ro_g_main_loop_run w0 E l : preserves (kf_from w0) (g_main_loop_run E l).
Proof.
  unfold g_main_loop_run. apply preserves_reassoc, preserves_bind; [| intros ?].
  - unfold load_loop. ro_unfold; ro_close.
  - ro_auto. apply ro_loop_iterate.
Qed.
#[export] Hint Resolve ro_loop_iterate ro_g_main_loop_run : readonly.

Lemma ro_app_cleanup w0 : preserves (kf_from w0) app_cleanup.
Proof. unfold app_cleanup. ro_auto. Qed.
Lemma ro_configure_string_property w0 obj property config group key :
  preserves (kf_from w0) (configure_string_property obj property config group key).
Proof. unfold configure_string_property. ro_auto. Qed.
#[export] Hint Resolve ro_app_cleanup ro_configure_string_property : readonly.

Lemma ro_json_builder_calls w0 b os : preserves (kf_from w0) (json_builder_calls b os).
Proof. induction os; cbn [json_builder_calls]; ro_auto. Qed.
#[export] Hint Resolve ro_json_builder_calls : readonly.

Lemma ro_configure_http_server w0 : preserves (kf_from w0) configure_http_server.
Proof. unfold configure_http_server. ro_auto. Qed.
Lemma ro_fail_with w0 what err A : preserves (kf_from w0) (fail_with what err (A:=A)).
Proof. unfold fail_with. ro_auto. Qed.
#[export] Hint Resolve ro_configure_http_server ro_fail_with : readonly.

Lemma ro_main_after_config w0 E : preserves (kf_from w0) (main_after_config E).
Proof.
  unfold main_after_config, main_device, main_speed, main_acquire, main_http, main_run,
    g_main_loop_new.
  ro_auto.
Qed.

(** C10: The ConfigStore is read-only after load (spec, 1): [main] is
    its option and configuration stages followed by
    [main_after_config] (lines 133-167), and from any state in which
    that part starts, every state it ends in (by its return, an early
    [return], a crash or the loop) holds key-file data only in blocks
    that held the same data at its start: nothing after line 132
    creates, overwrites or reloads a key file. *)
Theorem main_config_read_only E w :
  main E = (main_options E ;; main_config E ;; main_after_config E) /\
  kf_from w (main_after_config E w).2.
Proof.
  split; [reflexivity|].
  destruct (main_after_config E w) as [r w'] eqn:Hr.
  exact (ro_main_after_config w E w r w' (kf_from_refl w) Hr).
Qed.

End ReadOnly.
