(* ===== verification/Safety.v ===== *)
(** * Safety: what every run of [main] leaves behind

    The ownership invariant [Ownership.inv] holds at each stage of
    [main] ([src/src/main.c] lines 107-168), and every way the process
    can end is accounted for:
    - an [Exit] (the [return EXIT_FAILURE] of a fatal stage, or the
      [return EXIT_SUCCESS] after the loop) happens after [app_cleanup],
      and no block of the context's sites is live then;
    - the only crash is the dereference of a [NULL] [GError]: no
      double free, no access to a freed block, no misuse of an object;
    - a run may also stay in the loop (the environment offers no more
      stimuli) or be killed by a SIGINT before the source is installed.
    Each stage of [main] has a [wp] specification from one stage
    predicate to the next; the theorem [main_safe] chains them. *)

From S2P Require Import Prelude KeyFile Json GLib Ownership App Loop Main.
Open Scope glib_scope.

Module Safety.
Import GLib Ownership App Loop Main.

(** No block of a site the context owns is live. *)
Definition released (w : world) : Prop :=
  forall l b, w_heap w !! l = Some b -> ctx_site (b_site b) = false.

(** The acceptable ends of a run. *)
Definition exit_ok (h : stop) (w : world) : Prop :=
  match h with
  | Exit _ => released w
  | Crash c => c = NullError
  | Blocked | Signalled => True
  end.

(** The stage predicates: the invariant and the fields still [NULL]
    before each stage (before the options, the key file, the device,
    the receiver and the server). *)
Definition S0 (w : world) : Prop :=
  inv w /\ config_filename (w_ctx w) = None /\ config_file (w_ctx w) = None /\
  dmx_device (w_ctx w) = None /\ dmx_recv (w_ctx w) = None /\ http_server (w_ctx w) = None.
Definition S1 (w : world) : Prop :=
  inv w /\ config_file (w_ctx w) = None /\ dmx_device (w_ctx w) = None /\
  dmx_recv (w_ctx w) = None /\ http_server (w_ctx w) = None.
Definition S2 (w : world) : Prop :=
  inv w /\ dmx_device (w_ctx w) = None /\ dmx_recv (w_ctx w) = None /\ http_server (w_ctx w) = None.
Definition S3 (w : world) : Prop :=
  inv w /\ is_Some (dmx_device (w_ctx w)) /\ dmx_recv (w_ctx w) = None /\ http_server (w_ctx w) = None.
Definition S4 (w : world) : Prop :=
  inv w /\ http_server (w_ctx w) = None.

(** The main loop's block is live, running or not. *)
Definition loop_held (l : loc) (running : bool) (w : world) : Prop :=
  w_heap w !! l = Some (mkBlock SiteMainLoop (DMainLoop running)).

(** ** The teardown and the loop *)

(** A state whose context holds nothing has nothing of the context
    live. *)
Lemma released_empty w : inv w -> (forall s, field_of s (w_ctx w) = None) -> released w.
Proof.
  intros [Hwf _] Hn l b Hb. destruct (ctx_site (b_site b)) eqn:Hs; [|done].
  pose proof (wf_owned _ Hwf l b Hb Hs) as Hf. by rewrite Hn in Hf.
Qed.

Lemma cleanup_released w : inv w -> released (cleanup_world w).
Proof. intros [Hwf _] l b Hb. by apply cleanup_world_heap in Hb as [_ ?]. Qed.

Lemma wp_app_cleanup (Q : unit -> world -> Prop) R w :
  inv w -> Q tt (cleanup_world w) -> wp app_cleanup Q R w.
Proof. intros [Hwf _] HQ. eapply wp_eval; [by apply app_cleanup_run|done]. Qed.

Lemma wp_fail_with {A} what err (Q : A -> world -> Prop) w :
  inv w -> wp (fail_with what err) Q exit_ok w.
Proof.
  intros Hi. unfold fail_with. apply wp_bind, wp_g_printerr.
  destruct err as [g|]; [|done]. apply wp_bind, wp_app_cleanup; [inv_tac|].
  apply wp_halt, cleanup_released. inv_tac.
Qed.

Lemma wp_get_sigint_source (Q : option loc -> world -> Prop) R w :
  Q (w_sigint w) w -> wp get_sigint_source Q R w.
Proof. done. Qed.

(** The loop keeps the invariant and the context, and stops with its
    block live and not running; it runs out of stimuli only when no
    SIGINT comes. *)
Lemma wp_loop_iterate l evs w R :
  inv w -> loop_held l true w -> w_sigint w = Some l ->
  (SigInt ∈ evs \/ forall w', R Blocked w') ->
  wp (loop_iterate l evs) (fun _ w' => kept w w' /\ loop_held l false w') R w.
Proof.
  unfold loop_held. revert w. induction evs as [|ev evs IH]; intros w Hi Hl Hsrc Hev.
  { destruct Hev as [Hin|HB]; [by apply not_elem_of_nil in Hin | apply HB]. }
  cbn [loop_iterate]. destruct ev; unfold dispatch, sigint_handler, g_main_loop_quit, load_loop.
  - apply wp_bind, wp_bind, wp_get_sigint_source. rewrite Hsrc. wp_run.
    split; [kept_tac | lookup_tac].
  - wp_run. eapply wp_mono; [apply IH; try done | | done].
    + destruct Hev as [Hin|]; [left | by right]. by apply elem_of_cons in Hin as [|].
    + intros _ w' [[Hi' Hc] Hl']. split; [split|]; done.
Qed.

(** Without a SIGINT among the stimuli, the loop ends [Blocked]. *)
Lemma wp_loop_iterate_blocked l evs w Q (R : stop -> world -> Prop) :
  loop_held l true w -> SigInt ∉ evs -> (forall w', R Blocked w') -> wp (loop_iterate l evs) Q R w.
Proof.
  unfold loop_held. intros Hl Hev HB. induction evs as [|[] evs IH]; [apply HB| |].
  - by apply not_elem_of_cons in Hev as [[] _].
  - cbn [loop_iterate]. unfold dispatch, load_loop. wp_run. apply IH.
    by apply not_elem_of_cons in Hev as [_ ?].
Qed.

Lemma inv_init : inv init_world.
Proof. split; [apply ctx_wfb_sound; vm_compute; reflexivity | intros l _; done]. Qed.

Ltac wp_special ::=
  lazymatch goal with
  | |- wp (fail_with _ _) _ _ _ => apply wp_fail_with; inv_tac
  | |- wp (bind (fail_with _ _) _) _ _ _ => apply wp_bind, wp_fail_with; inv_tac
  | |- wp (bind configure_http_server _) _ _ _ => wp_call wp_configure_http_server
  | |- wp (bind app_cleanup _) _ _ _ => apply wp_bind, wp_app_cleanup; [inv_tac|]
  | |- wp (loop_iterate _ _) _ _ _ =>
      eapply wp_mono; [apply wp_loop_iterate; [inv_tac | unfold loop_held; lookup_tac | reflexivity | done]
                      | intros _ ?w [[?Hi _] ?Hl]; unfold loop_held in * | done]
  end.

Ltac stage_tac := split; [inv_tac|]; ctx_simpl; repeat split; ctx_tac.

(** ** The stages of [main] *)

Lemma wp_main_options E w : S0 w -> wp (main_options E) (fun _ => S1) exit_ok w.
Proof.
  intros (Hi & Hn & Hk & Hd & Hr & Hs). unfold main_options. wp_auto; [|stage_tac..].
  apply released_empty; [inv_tac | intros []; ctx_tac].
Qed.

Lemma wp_main_config E w : S1 w -> wp (main_config E) (fun _ => S2) exit_ok w.
Proof. intros (Hi & Hk & Hd & Hr & Hs). unfold main_config. wp_auto; stage_tac. Qed.

Lemma wp_main_device w : S2 w -> wp main_device (fun _ => S3) exit_ok w.
Proof. intros (Hi & Hd & Hr & Hs). unfold main_device. wp_auto; stage_tac. Qed.

Lemma wp_main_speed w : S3 w -> wp main_speed (fun _ => S3) exit_ok w.
Proof. intros (Hi & Hd & Hr & Hs). unfold main_speed. wp_auto; stage_tac. Qed.

Lemma wp_main_acquire E w : S3 w -> wp (main_acquire E) (fun _ => S4) exit_ok w.
Proof. intros (Hi & [ld Hd] & Hr & Hs). unfold main_acquire. wp_auto; stage_tac. Qed.

(** The server's stage never ends the run, whatever the outcome of
    [http_server_start]. *)
Lemma wp_main_http E w R : S4 w -> wp (main_http E) (fun _ => inv) R w.
Proof. intros (Hi & Hs). unfold main_http. wp_auto; first [inv_tac | ctx_contra]. Qed.

(** The run returns [EXIT_SUCCESS] after the loop, with every handle
    released. *)
Lemma wp_main_run E w R :
  inv w -> (SigInt ∈ env_events E \/ forall w', R Blocked w') ->
  wp (main_run E) (fun c w' => c = EXIT_SUCCESS /\ released w') R w.
Proof.
  intros Hi Hev. unfold main_run, g_main_loop_new, g_unix_signal_add, g_main_loop_run,
    g_main_loop_unref, load_loop.
  wp_run. split; [done|]. apply cleanup_released. inv_tac.
Qed.

(** Without a SIGINT the run ends [Blocked] in the loop. *)
Lemma wp_main_run_blocked E w Q (R : stop -> world -> Prop) :
  inv w -> SigInt ∉ env_events E -> (forall w', R Blocked w') -> wp (main_run E) Q R w.
Proof.
  intros Hi Hev HB. unfold main_run, g_main_loop_new, g_unix_signal_add, g_main_loop_run, load_loop.
  repeat lazymatch goal with
         | |- wp (loop_iterate _ _) _ _ _ => fail
         | _ => first [wp_step | wp_simpl]
         end.
  apply wp_loop_iterate_blocked; [unfold loop_held; lookup_tac | done..].
Qed.

(** ** The whole run *)

(** C1: For every environment (command line, files, device, HTTP
    outcome, stimuli), a run of [main] from the initial process state
    either returns with every handle of [app_ctxt] released, exits
    early with every handle released, crashes only by dereferencing a
    [NULL] [GError], or stays in (or is killed before) the loop: no
    double free, no use of a freed block, no leak of a context handle
    at exit. *)
Theorem main_safe E : wp (main E) (fun _ => released) exit_ok init_world.
Proof.
  unfold main.
  eapply wp_seq; [apply wp_main_options; repeat split; first [apply inv_init | done]|].
  intros ? w1 H1. eapply wp_seq; [by apply wp_main_config|].
  intros ? w2 H2. eapply wp_seq; [by apply wp_main_device|].
  intros ? w3 H3. eapply wp_seq; [by apply wp_main_speed|].
  intros ? w4 H4. eapply wp_seq; [by apply wp_main_acquire|].
  intros ? w5 H5. eapply wp_seq; [by apply wp_main_http|].
  intros ? w6 H6. eapply wp_mono with (R := exit_ok); [apply wp_main_run; [done | right; intros; exact I] | by intros ? ? [_ ?] | done].
Qed.

End Safety.
