(* ===== verification/Scenarios.v ===== *)
(** * Scenarios: the runs of [main] the specification describes

    Whole runs of [main] ([src/src/main.c] lines 107-168) from the
    initial process state, for every environment that satisfies the
    scenario's hypotheses: how the run ends (exit status or crash),
    the heap left behind and the observable calls, in order.  The
    proofs execute [main] symbolically with the [wp] rules of [GLib]:
    the heap addresses are concrete (the run starts from
    [init_world]), the key file, the paths and the outcomes of the
    library calls are not; the server's stage and the loop use the
    stage specifications of [Safety]. *)

From S2P Require Import Prelude CommandLine KeyFile KeyFileParse Json GLib Ownership App Loop Main Safety.
Open Scope glib_scope.

Module Scenarios.
Import CommandLine KeyFile KeyFileParse GLib Ownership App Loop Main Safety.

(** A whole run: how it ends and the final state. *)
Definition run_main (E : env) : stop * world :=
  match main E init_world with
  | (Ok code, w) => (Exit code, w)
  | (Halt s, w) => (s, w)
  end.

(** A text of lines, each ended by ['\n']. *)
Definition text_of_lines (ls : list string) : string :=
  foldr (fun l t => (l ++ String c_nl t)%string) EmptyString ls.

(** The environment of the end-to-end scenario of the specification
    (8): the file [dmx.conf] holds [DMXPort.Device=/dev/ttyUSB0] and
    [HTTP.Port=8080] (with a comment, a blank line and spaces around
    an ['=']); the port opens; the server starts only with the
    port 8080 set and its own defaults for the user, the password and
    the root; one SIGINT arrives. *)
Definition e2e_keyfile : keyfile :=
  {[ "DMXPort" := {[ "Device" := "/dev/ttyUSB0" ]}; "HTTP" := {[ "Port" := "8080" ]} ]}.

Definition e2e_text : string :=
  text_of_lines ["# dmx2c2ip"; "[DMXPort]"; "Device = /dev/ttyUSB0"; EmptyString;
                 "[HTTP]"; "Port=8080"].

Definition e2e_http (props : gmap string gvalue) : bool :=
  match props !! "http-port", props !! "user", props !! "password", props !! "http-root" with
  | Some (VUInt n), None, None, None => bool_decide (n = 8080)
  | _, _, _, _ => false
  end.

Definition e2e_env : env :=
  mkEnv ["dmx2c2ip"; "-c"; "dmx.conf"]
        (fun p => if bool_decide (p = "dmx.conf") then Some e2e_text else None)
        (fun d => bool_decide (d = "/dev/ttyUSB0")) e2e_http [IoEvent; SigInt].

(** Environments for the examples: the same file, port and stimuli,
    with one outcome changed. *)
Definition env_bad_options : env := mkEnv ["dmx2c2ip"; "--config"; "dmx.conf"] (env_files e2e_env) (env_dmx e2e_env) e2e_http [SigInt].
Definition env_help : env := mkEnv ["dmx2c2ip"; "dmx.conf"; "--help"; "-x"] (env_files e2e_env) (env_dmx e2e_env) e2e_http [SigInt].
Definition env_no_config : env := mkEnv ["dmx2c2ip"] (env_files e2e_env) (env_dmx e2e_env) e2e_http [SigInt].
Definition env_unreadable : env := mkEnv (env_argv e2e_env) (fun _ => None) (env_dmx e2e_env) e2e_http [SigInt].
Definition env_empty_file : env := mkEnv (env_argv e2e_env) (fun _ => Some EmptyString) (env_dmx e2e_env) e2e_http [SigInt].
Definition env_no_group : env :=
  mkEnv (env_argv e2e_env) (fun _ => Some (text_of_lines ["Device=/dev/ttyUSB0"; "[DMXPort]"]))
        (env_dmx e2e_env) e2e_http [SigInt].
Definition env_no_port : env := mkEnv (env_argv e2e_env) (env_files e2e_env) (fun _ => false) e2e_http [SigInt].
Definition env_http_down : env := mkEnv (env_argv e2e_env) (env_files e2e_env) (env_dmx e2e_env) (fun _ => false) [IoEvent; IoEvent; SigInt].

(** The outcome the LifecycleSequencer prescribes (spec 4.4, 6, 7): a
    failed parse, an unreadable file named by [-c], a missing device
    (also when no file is given: every lookup is then absent) and a
    device that does not open are fatal ([EXIT_FAILURE]); a failed
    server start is not; a run that reaches the loop returns
    [EXIT_SUCCESS] at the first SIGINT and runs forever without one.
    The help option is GOption's own (not in the spec): it exits with
    status 0. *)
Definition config_outcome (E : env) (kf : keyfile) : stop :=
  match get_string kf "DMXPort" "Device" with
  | inl _ => Exit EXIT_FAILURE
  | inr dev =>
      if env_dmx E dev
      then if bool_decide (SigInt ∈ env_events E) then Exit EXIT_SUCCESS else Blocked
      else Exit EXIT_FAILURE
  end.

Definition lifecycle_outcome (E : env) : stop :=
  match goption_parse app_options (env_argv E) with
  | ParseError _ => Exit EXIT_FAILURE
  | ParseHelp => Exit EXIT_SUCCESS
  | Parsed None => Exit EXIT_FAILURE
  | Parsed (Some path) =>
      match read_keyfile E path with
      | inl _ => Exit EXIT_FAILURE
      | inr kf => config_outcome E kf
      end
  end.

(** ** Reading a run through [wp] *)

Lemma run_main_spec E (P : stop -> world -> Prop) :
  wp (main E) (fun c => P (Exit c)) P init_world -> P (run_main E).1 (run_main E).2.
Proof. unfold wp, run_main. by destruct (main E init_world) as [[c|h] w]. Qed.

Ltac wp_rewrite_hyp :=
  match goal with
  | H : ?x = _ |- context [?x] => lazymatch x with w_ctx _ => fail | _ => rewrite H end
  end.

Ltac wp_special ::=
  lazymatch goal with
  | |- wp (bind (main_http _) _) _ _ _ =>
      eapply wp_seq; [apply wp_main_http; split; [inv_tac | ctx_tac]
                     | let Hi := fresh "Hi" in intros ? ?w Hi; cbv beta in Hi |- *]
  | |- wp (main_run _) _ ?RR _ =>
      first [eapply wp_mono with (R := RR); [apply wp_main_run; [done | by left] | intros ? ? [-> ?] | done]
            | apply wp_main_run_blocked; [done | done | intros ?]]
  end.

(** Symbolic execution from [init_world]: the fields of the initial
    context are read off, the hypotheses on the environment rewrite
    the calls they decide. *)
Ltac wp_env :=
  repeat first [wp_special | wp_step | wp_simpl
               | progress cbn [w_ctx w_heap w_next w_log w_sigint app_ctxt_init config_filename
                               config_file dmx_device dmx_recv http_server dmx_speed]
               | wp_rewrite_ctx | wp_rewrite_hyp | wp_case].

Ltac run_stages := unfold main, main_options, main_config, main_device,
  main_speed, main_acquire, init_world; wp_env.
Ltac run_tac := apply run_main_spec; run_stages.

(** ** Fatal startup failures *)

(** C21: A command line GOption rejects ends the run with
    [EXIT_FAILURE] after the diagnostic; nothing of the context is
    held, but the option context of line 115 is never freed on this
    path. *)
Theorem main_options_error E e :
  goption_parse app_options (env_argv E) = ParseError e ->
  (run_main E).1 = Exit EXIT_FAILURE /\
  w_heap (run_main E).2 = {[1%positive := mkBlock SiteOptionContext DOptionContext]} /\
  w_log (run_main E).2 = [EvOptionParse false; EvPrintErr "Failed to parse options" (EOption e)].
Proof. intros Ho. run_tac. split; [done | split; vm_compute; reflexivity]. Qed.

(** C18: [--help] as the first option word of the command line (after
    any number of words that are not options, and whatever follows it,
    even an unknown option or a [-c] without its value) makes GOption
    print the help and end the process with [exit (0)] from inside
    [g_option_context_parse]: nothing of the context was obtained yet,
    the option context stays allocated and [app_cleanup] does not run.
    (After [-c], [--help] is the value of [-c], not the help.) *)
Theorem main_help E prog args rest :
  env_argv E = prog :: args ++ "--help" :: rest ->
  Forall (fun a => is_option_word a = false) args ->
  (run_main E).1 = Exit EXIT_SUCCESS /\
  w_heap (run_main E).2 = {[1%positive := mkBlock SiteOptionContext DOptionContext]} /\
  w_log (run_main E).2 = [EvHelp].
Proof.
  intros Ha Hp.
  assert (Ho : goption_parse app_options (env_argv E) = ParseHelp)
    by (rewrite Ha; by apply goption_help_after_plains).
  run_tac. split; [done | split; vm_compute; reflexivity].
Qed.

(** C19: A configuration file named by [-c] that cannot be read ends
    the run with [EXIT_FAILURE] after the diagnostic, with the heap
    empty: the file name and the key file are released. *)
Theorem main_config_error E path e :
  goption_parse app_options (env_argv E) = Parsed (Some path) -> read_keyfile E path = inl e ->
  (run_main E).1 = Exit EXIT_FAILURE /\ w_heap (run_main E).2 = ∅ /\
  w_log (run_main E).2 = [EvOptionParse true; EvRelease SiteOptionContext; EvKeyFileLoad path false;
                          EvPrintErr "Failed to read configuration file" (EKeyFileLoad e);
                          EvRelease SiteConfigFilename; EvRelease SiteKeyFile].
Proof. intros Ho Hf. run_tac. split; [done | split; vm_compute; reflexivity]. Qed.

(** C9: A configuration without [DMXPort.Device] ends the run with
    [EXIT_FAILURE] after the diagnostic "No device" with the cause of
    the failed lookup; no acquisition of the device is attempted and
    the heap is empty at exit (spec, 8). *)
Theorem main_missing_device E path kf e :
  goption_parse app_options (env_argv E) = Parsed (Some path) -> read_keyfile E path = inr kf ->
  get_string kf "DMXPort" "Device" = inl e ->
  (run_main E).1 = Exit EXIT_FAILURE /\ w_heap (run_main E).2 = ∅ /\
  w_log (run_main E).2 = [EvOptionParse true; EvRelease SiteOptionContext; EvKeyFileLoad path true;
                          EvPrintErr "No device" (EKeyFile e);
                          EvRelease SiteConfigFilename; EvRelease SiteKeyFile].
Proof. intros Ho Hf Hd. run_tac. split; [done | split; vm_compute; reflexivity]. Qed.

(** C5: Without [-c] the program does not report a missing device:
    [g_key_file_get_string] on the [NULL] key file returns [NULL]
    without setting the error, and line 136 dereferences the [NULL]
    [GError] (the spec, 8, expects the fatal "missing device" path). *)
Theorem main_no_config_crash E :
  goption_parse app_options (env_argv E) = Parsed None ->
  (run_main E).1 = Crash NullError /\
  w_log (run_main E).2 = [EvOptionParse true; EvRelease SiteOptionContext;
                          EvCritical "g_key_file_get_string"].
Proof. intros Ho. run_tac. split; [done | vm_compute; reflexivity]. Qed.

(** C20: A device that cannot be opened ends the run with
    [EXIT_FAILURE] after the diagnostic, with the heap empty: the
    device name is released with the file name and the key file. *)
Theorem main_dmx_error E path kf dev :
  goption_parse app_options (env_argv E) = Parsed (Some path) -> read_keyfile E path = inr kf ->
  get_string kf "DMXPort" "Device" = inr dev -> env_dmx E dev = false ->
  (run_main E).1 = Exit EXIT_FAILURE /\ w_heap (run_main E).2 = ∅ /\
  w_log (run_main E).2 = [EvOptionParse true; EvRelease SiteOptionContext; EvKeyFileLoad path true;
                          EvDmxRecvNew dev false; EvPrintErr "Failed setup DMX port" EDmx;
                          EvRelease SiteConfigFilename; EvRelease SiteKeyFile; EvRelease SiteDevice].
Proof. intros Ho Hf Hd Hx. run_tac; split; try done; split; vm_compute; reflexivity. Qed.

(** ** Runs that reach the loop *)

(** C4: Once the device is open the run is committed: whether the HTTP
    server starts or not (a failed start is not fatal, spec 4.4 step
    5), a SIGINT among the stimuli makes [main] return [EXIT_SUCCESS]
    with every handle of the context released. *)
Theorem main_sigint_exit E path kf dev :
  goption_parse app_options (env_argv E) = Parsed (Some path) -> read_keyfile E path = inr kf ->
  get_string kf "DMXPort" "Device" = inr dev -> env_dmx E dev = true ->
  SigInt ∈ env_events E ->
  (run_main E).1 = Exit EXIT_SUCCESS /\ released (run_main E).2.
Proof. intros Ho Hf Hd Hx Hev. pose proof inv_init. run_tac; done. Qed.

(** ** The lifecycle *)

(** C2: [main] implements the LifecycleSequencer: for every environment
    in which [-c] is given, the help is asked for or the command line
    is rejected, the run ends
    as [lifecycle_outcome] prescribes (the run without [-c] is the one
    exception, see [main_no_config_crash]). *)
Theorem main_refines_lifecycle E :
  goption_parse app_options (env_argv E) <> Parsed None -> (run_main E).1 = lifecycle_outcome E.
Proof.
  intros Hno. apply (run_main_spec E (fun h _ => h = lifecycle_outcome E)).
  pose proof inv_init. unfold lifecycle_outcome, config_outcome.
  destruct (decide (SigInt ∈ env_events E)) as [Hev|Hev];
    [rewrite bool_decide_true by done | rewrite bool_decide_false by done];
    run_stages; first [done | congruence].
Qed.

(** ** Examples *)

Lemma main_options_error_witness : (run_main env_bad_options).1 = Exit EXIT_FAILURE.
Proof. apply (main_options_error env_bad_options (UnknownOption "--config")). reflexivity. Defined.

Lemma main_help_witness : (run_main env_help).1 = Exit EXIT_SUCCESS.
Proof. apply (main_help env_help "dmx2c2ip" ["dmx.conf"] ["-x"]); [reflexivity | repeat constructor]. Defined.

Lemma main_config_error_witness : (run_main env_no_group).1 = Exit EXIT_FAILURE.
Proof. apply (main_config_error env_no_group "dmx.conf" (LoadParse NoGroup)); reflexivity. Defined.

Lemma main_missing_device_witness : (run_main env_empty_file).1 = Exit EXIT_FAILURE.
Proof. apply (main_missing_device env_empty_file "dmx.conf" ∅ (GroupNotFound "DMXPort")); reflexivity. Defined.

Lemma main_no_config_crash_witness : (run_main env_no_config).1 = Crash NullError.
Proof. apply (main_no_config_crash env_no_config). reflexivity. Defined.

Lemma main_dmx_error_witness : (run_main env_no_port).1 = Exit EXIT_FAILURE.
Proof.
  apply (main_dmx_error env_no_port "dmx.conf" e2e_keyfile "/dev/ttyUSB0"); reflexivity.
Defined.

Lemma main_sigint_exit_witness : (run_main env_http_down).1 = Exit EXIT_SUCCESS.
Proof.
  apply (main_sigint_exit env_http_down "dmx.conf" e2e_keyfile "/dev/ttyUSB0");
    [reflexivity.. | cbn; set_solver].
Defined.

Lemma main_refines_lifecycle_witness :
  (run_main env_http_down).1 = lifecycle_outcome env_http_down.
Proof. apply main_refines_lifecycle. discriminate. Defined.

End Scenarios.
