(* ===== verification/Lifecycle.v ===== *)
(** * Lifecycle: the LifecycleSequencer's state machine and the runs of [main]

    The specification (4.4) describes the startup and shutdown of the
    service as a state machine: [Init -> OptionsParsed -> ConfigLoaded
    -> DeviceAcquired -> ServerConfigured -> {ServerStarted |
    ServerDegraded} -> Running -> ShuttingDown -> Terminated], with a
    fatal exit (diagnostic, teardown) from each of the first three
    steps and a non-fatal degradation when the server does not start.
    This file states that machine as a labelled transition relation
    [lc_step] over the observable calls of [GLib.event], with the
    phases the code has between them ([phase]), and proves that the
    log of every run of [main] ([src/src/main.c] lines 107-168) is a
    trace of it from [Init] ([lc_trace]) whose last phase matches how
    the run ended ([lc_final]).  The relation is decided by the
    executable [lc_next]/[lc_run], which the proofs compute with.

    Each stage of [main] has a [wp] specification from the phase it
    starts in to the phase it ends in; the ownership facts each stage
    needs come from the stage specifications of [Safety], joined with
    [wp_conj]. *)

From S2P Require Import Prelude CommandLine KeyFile Json GLib Ownership App Loop Main Safety Scenarios.
Open Scope glib_scope.

Module Lifecycle.
Import CommandLine KeyFile Json GLib Ownership App Loop Main Safety Scenarios.

(** The phases of a run: the states of the specification, the points
    between a failed call and its diagnostic, and the teardown. *)
Inductive phase :=
| Init | HelpShown
| OptionsParsed | OptionsRejected
| ConfigLoaded | ConfigRejected
| DeviceAcquired | DeviceRejected
| ServerCreated | ServerConfigured
| ServerStarted | ServerDegraded | DegradedReported | DmxOnly
| HandlerInstalled | Running | ShuttingDown
| Failing.

#[export] Instance phase_eq_dec : EqDecision phase.
Proof. solve_decision. Defined.

(** The phases from which a fatal diagnostic is printed: after a
    failed parse, load or acquisition, and (for the missing device,
    whose lookup logs nothing) once the options or the file are in. *)
Definition fatal_origin (p : phase) : bool :=
  match p with
  | OptionsRejected | ConfigRejected | DeviceRejected | OptionsParsed | ConfigLoaded => true
  | _ => false
  end.

(** The transitions.  A [g_return_if_fail] warning ([EvCritical]) does
    not change the phase. *)
Inductive lc_step : phase -> event -> phase -> Prop :=
| LcCritical p fn : lc_step p (EvCritical fn) p
| LcParsed : lc_step Init (EvOptionParse true) OptionsParsed
| LcRejected : lc_step Init (EvOptionParse false) OptionsRejected
| LcHelp : lc_step Init EvHelp HelpShown
| LcOptionsFreed : lc_step OptionsParsed (EvRelease SiteOptionContext) OptionsParsed
| LcLoaded f : lc_step OptionsParsed (EvKeyFileLoad f true) ConfigLoaded
| LcLoadFailed f : lc_step OptionsParsed (EvKeyFileLoad f false) ConfigRejected
| LcAcquiredNoFile d : lc_step OptionsParsed (EvDmxRecvNew d true) DeviceAcquired
| LcAcquired d : lc_step ConfigLoaded (EvDmxRecvNew d true) DeviceAcquired
| LcAcquireFailedNoFile d : lc_step OptionsParsed (EvDmxRecvNew d false) DeviceRejected
| LcAcquireFailed d : lc_step ConfigLoaded (EvDmxRecvNew d false) DeviceRejected
| LcFatal p what g : fatal_origin p = true -> lc_step p (EvPrintErr what g) Failing
| LcFailingRelease s : lc_step Failing (EvRelease s) Failing
| LcServerNew : lc_step DeviceAcquired EvHttpServerNew ServerCreated
| LcTreeAttached : lc_step ServerCreated (EvRelease SiteJsonBuilder) ServerConfigured
| LcStarted : lc_step ServerConfigured (EvHttpServerStart true) ServerStarted
| LcDegraded : lc_step ServerConfigured (EvHttpServerStart false) ServerDegraded
| LcDegradedReport what g : lc_step ServerDegraded (EvPrintErr what g) DegradedReported
| LcServerReleased : lc_step DegradedReported (EvRelease SiteHttpServer) DmxOnly
| LcHandler : lc_step ServerStarted EvSignalAdd HandlerInstalled
| LcHandlerDmxOnly : lc_step DmxOnly EvSignalAdd HandlerInstalled
| LcRun : lc_step HandlerInstalled EvLoopRun Running
| LcInterrupt : lc_step Running EvSigInt ShuttingDown
| LcTeardown s : lc_step ShuttingDown (EvRelease s) ShuttingDown.

(** The traces of the machine. *)
Inductive lc_trace : phase -> list event -> phase -> Prop :=
| TrNil p : lc_trace p [] p
| TrCons p e q es r : lc_step p e q -> lc_trace q es r -> lc_trace p (e :: es) r.

(** How a run may end in each phase: [EXIT_SUCCESS] after the teardown
    that follows the interrupt (or after GOption's help), [EXIT_FAILURE]
    after a fatal diagnostic and its teardown, waiting in the loop, or
    the crash of the missing device without a key file. *)
Definition lc_final (h : stop) (p : phase) : Prop :=
  match h with
  | Exit c => (c = EXIT_SUCCESS /\ (p = ShuttingDown \/ p = HelpShown)) \/
              (c = EXIT_FAILURE /\ p = Failing)
  | Blocked => p = Running
  | Crash c => c = NullError /\ p = OptionsParsed
  | Signalled => False
  end.

(** ** The machine, executable *)

Definition lc_next (p : phase) (e : event) : option phase :=
  match e with
  | EvCritical _ => Some p
  | EvPrintErr _ _ =>
      if fatal_origin p then Some Failing
      else if decide (p = ServerDegraded) then Some DegradedReported else None
  | EvRelease s =>
      match p, s with
      | Failing, _ => Some Failing
      | ShuttingDown, _ => Some ShuttingDown
      | OptionsParsed, SiteOptionContext => Some OptionsParsed
      | ServerCreated, SiteJsonBuilder => Some ServerConfigured
      | DegradedReported, SiteHttpServer => Some DmxOnly
      | _, _ => None
      end
  | _ =>
      match p, e with
      | Init, EvOptionParse true => Some OptionsParsed
      | Init, EvOptionParse false => Some OptionsRejected
      | Init, EvHelp => Some HelpShown
      | OptionsParsed, EvKeyFileLoad _ true => Some ConfigLoaded
      | OptionsParsed, EvKeyFileLoad _ false => Some ConfigRejected
      | (OptionsParsed | ConfigLoaded), EvDmxRecvNew _ true => Some DeviceAcquired
      | (OptionsParsed | ConfigLoaded), EvDmxRecvNew _ false => Some DeviceRejected
      | DeviceAcquired, EvHttpServerNew => Some ServerCreated
      | ServerConfigured, EvHttpServerStart true => Some ServerStarted
      | ServerConfigured, EvHttpServerStart false => Some ServerDegraded
      | (ServerStarted | DmxOnly), EvSignalAdd => Some HandlerInstalled
      | HandlerInstalled, EvLoopRun => Some Running
      | Running, EvSigInt => Some ShuttingDown
      | _, _ => None
      end
  end.

Fixpoint lc_run (p : phase) (es : list event) : option phase :=
  match es with
  | [] => Some p
  | e :: es => lc_next p e ≫= fun q => lc_run q es
  end.

(** The calls of a teardown: releases, and the warning of
    [g_key_file_unref (NULL)]. *)
Definition teardown_event (e : event) : bool :=
  match e with EvRelease _ | EvCritical _ => true | _ => false end.

(** The phase the log of a state has reached. *)
Definition at_phase (p : phase) (w : world) : Prop := lc_run Init (w_log w) = Some p.

(** A run ends with its log in a phase that matches its end. *)
Definition final (h : stop) (w : world) : Prop :=
  exists p, at_phase p w /\ lc_final h p.

(** ** The machine and its executable form *)

Lemma lc_next_sound p e q : lc_next p e = Some q -> lc_step p e q.
Proof. intros H. destruct e, p; cbn in H; repeat case_match; simplify_eq; by econstructor. Qed.

Lemma lc_run_sound p es r : lc_run p es = Some r -> lc_trace p es r.
Proof.
  revert p. induction es as [|e es IH]; intros p H; cbn in H; [simplify_eq; constructor|].
  destruct (lc_next p e) as [q|] eqn:Hn; [|done]. econstructor; [by apply lc_next_sound | by apply IH].
Qed.

Lemma lc_run_app p l1 l2 : lc_run p (l1 ++ l2) = lc_run p l1 ≫= fun q => lc_run q l2.
Proof.
  revert p. induction l1 as [|e l1 IH]; intros p; [done|]. cbn.
  destruct (lc_next p e); [apply IH | done].
Qed.

Lemma lc_run_teardown p es :
  p = Failing \/ p = ShuttingDown -> Forall (fun e => teardown_event e = true) es ->
  lc_run p es = Some p.
Proof.
  intros Hp Hes. induction Hes as [|e es He _ IH]; [done|].
  destruct e; try done; destruct Hp as [->| ->]; cbn; apply IH.
Qed.

Lemma cleanup_events_teardown a : Forall (fun e => teardown_event e = true) (cleanup_events a).
Proof.
  unfold cleanup_events, rel. rewrite !Forall_app.
  repeat split; repeat case_match; repeat constructor.
Qed.

Lemma lc_run_cleanup p a :
  p = Failing \/ p = ShuttingDown -> lc_run p (cleanup_events a) = Some p.
Proof. intros Hp. apply lc_run_teardown; [done | apply cleanup_events_teardown]. Qed.

(** Compute the phase of a log built from a known one: split the log
    at its appends, replace the known prefix by its phase, and run the
    machine on the calls that follow. *)
Ltac phase_run :=
  unfold at_phase in *;
  repeat rewrite cleanup_world_log by (apply inv_ctx_wf; inv_tac);
  autorewrite with glib_rw; rewrite ?lc_run_app;
  repeat match goal with H : lc_run Init (w_log _) = Some _ |- _ => rewrite H end;
  cbn [lc_run lc_next mbind option_bind fatal_origin decide];
  rewrite ?lc_run_cleanup by auto; cbn [mbind option_bind]; try reflexivity.

Ltac phase_final :=
  cbn [lc_final]; unfold EXIT_SUCCESS, EXIT_FAILURE;
  first [ left; split; [reflexivity | first [left; reflexivity | right; reflexivity]]
        | right; split; reflexivity
        | reflexivity
        | split; reflexivity ].

(** Close a goal on the phase of the state a stage leaves (and on the
    fields of its context). *)
Ltac phase_goal :=
  lazymatch goal with
  | |- _ \/ _ => first [left; phase_goal | right; phase_goal]
  | |- _ /\ _ => split; phase_goal
  | |- exists _, _ => eexists; phase_goal
  | |- lc_final _ _ => phase_final
  | |- lc_run _ _ = _ => solve [phase_run]
  | |- _ => first [done | solve [ctx_tac] | solve [wp_simpl; eauto]]
  end.

Ltac phase_tac := unfold final, at_phase in *; first [phase_goal | solve [ctx_contra]].

(** ** The stages *)

(** A fatal failure prints its diagnostic and tears down; the [NULL]
    error of the missing device (no key file) crashes instead. *)
Lemma lc_fail_with {A} what err p (Q : A -> world -> Prop) w :
  inv w -> at_phase p w -> fatal_origin p = true -> (err = None -> p = OptionsParsed) ->
  wp (fail_with what err) Q final w.
Proof.
  intros Hi Hp Hf Hn. unfold fail_with. apply wp_bind, wp_g_printerr.
  destruct err as [g|].
  - apply wp_bind, wp_app_cleanup; [inv_tac|]. apply wp_halt.
    exists Failing. split; [|by right].
    unfold at_phase in *. rewrite cleanup_world_log by (apply inv_ctx_wf; inv_tac).
    rewrite add_log_log, !lc_run_app, Hp. cbn. rewrite Hf. cbn. by apply lc_run_cleanup; left.
  - exists p. split; [done|]. split; [done | by apply Hn].
Qed.

Ltac lc_fail :=
  eapply lc_fail_with; [inv_tac | phase_run | reflexivity | intros ?; first [discriminate | reflexivity]].

Ltac wp_special ::=
  lazymatch goal with
  | |- wp (fail_with _ _) _ _ _ => lc_fail
  | |- wp (bind (fail_with _ _) _) _ _ _ => apply wp_bind; lc_fail
  | |- wp (bind app_cleanup _) _ _ _ => apply wp_bind, wp_app_cleanup; [inv_tac|]
  end.

Lemma lc_main_options E w :
  S0 w -> at_phase Init w -> wp (main_options E) (fun _ => at_phase OptionsParsed) final w.
Proof.
  intros (Hi & Hn & Hk & Hd & Hr & Hs) Hp. unfold main_options. wp_auto; phase_tac.
Qed.

(** After the key file stage: no file and the options' phase, or a
    loaded file. *)
Definition config_phase (w : world) : Prop :=
  (at_phase OptionsParsed w /\ config_file (w_ctx w) = None) \/
  (at_phase ConfigLoaded w /\ is_Some (config_file (w_ctx w))).

Lemma lc_main_config E w :
  S1 w -> at_phase OptionsParsed w -> wp (main_config E) (fun _ => config_phase) final w.
Proof.
  intros (Hi & Hk & Hd & Hr & Hs) Hp. unfold main_config, config_phase.
  wp_auto; phase_tac.
Qed.

Lemma lc_main_device w :
  S2 w -> config_phase w -> wp main_device (fun _ => at_phase ConfigLoaded) final w.
Proof.
  intros (Hi & Hd & Hr & Hs) [[Hp Hk] | [Hp [lk Hk]]]; unfold main_device; wp_auto; phase_tac.
Qed.

Lemma lc_main_speed w :
  S3 w -> at_phase ConfigLoaded w -> wp main_speed (fun _ => at_phase ConfigLoaded) final w.
Proof. intros (Hi & Hd & Hr & Hs) Hp. unfold main_speed. wp_auto; phase_tac. Qed.

Lemma lc_main_acquire E w :
  S3 w -> at_phase ConfigLoaded w -> wp (main_acquire E) (fun _ => at_phase DeviceAcquired) final w.
Proof. intros (Hi & [ld Hd] & Hr & Hs) Hp. unfold main_acquire. wp_auto; phase_tac. Qed.

(** ** The server's stage *)

Lemma lc_configure_string_property w obj ls prop c g k p R :
  inv w -> obj = Some ls -> http_server (w_ctx w) = Some ls -> config_file (w_ctx w) = c ->
  at_phase p w ->
  wp (configure_string_property obj prop c g k) (fun _ w' => kept w w' /\ at_phase p w') R w.
Proof.
  intros Hi -> Hs <- Hp. unfold configure_string_property. wp_auto; (split; [kept_tac | phase_tac]).
Qed.

Ltac wp_special ::=
  lazymatch goal with
  | |- wp (fail_with _ _) _ _ _ => lc_fail
  | |- wp (bind (fail_with _ _) _) _ _ _ => apply wp_bind; lc_fail
  | |- wp (bind app_cleanup _) _ _ _ => apply wp_bind, wp_app_cleanup; [inv_tac|]
  | |- wp (bind (json_builder_calls _ _) _) _ _ _ =>
      apply wp_bind; eapply wp_json_builder_calls; [lookup_tac | apply value_root_ops_run |]
  | |- wp (bind (configure_string_property _ _ _ _ _) _) _ _ _ =>
      eapply wp_seq;
        [eapply lc_configure_string_property;
           [inv_tac | ctx_tac | ctx_tac | ctx_tac
           | unfold at_phase in *; autorewrite with glib_rw; eassumption]
        | let Hc := fresh "Hc" in
          intros ? ?w [[?Hi Hc] ?Hp]; autorewrite with glib_rw in Hc; chain_ctx Hc]
  end.

Lemma lc_configure_http_server w ls R :
  inv w -> http_server (w_ctx w) = Some ls -> at_phase ServerCreated w ->
  wp configure_http_server (fun _ w' => kept w w' /\ at_phase ServerConfigured w') R w.
Proof.
  intros Hi Hs Hp. unfold configure_http_server. wp_auto; (split; [kept_tac | phase_tac]).
Qed.

Ltac wp_special ::=
  lazymatch goal with
  | |- wp (fail_with _ _) _ _ _ => lc_fail
  | |- wp (bind (fail_with _ _) _) _ _ _ => apply wp_bind; lc_fail
  | |- wp (bind app_cleanup _) _ _ _ => apply wp_bind, wp_app_cleanup; [inv_tac|]
  | |- wp (bind configure_http_server _) _ _ _ =>
      eapply wp_seq;
        [eapply lc_configure_http_server; [inv_tac | ctx_tac | phase_run]
        | let Hc := fresh "Hc" in
          intros ? ?w [[?Hi Hc] ?Hp]; autorewrite with glib_rw in Hc; chain_ctx Hc]
  end.

Lemma lc_main_http E w :
  S4 w -> at_phase DeviceAcquired w ->
  wp (main_http E) (fun _ w' => at_phase ServerStarted w' \/ at_phase DmxOnly w') final w.
Proof. intros (Hi & Hs) Hp. unfold main_http. wp_auto; phase_tac. Qed.

(** ** The loop and the teardown *)

(** The loop takes the log from [Running] to [ShuttingDown] at the
    first SIGINT, or waits in [Running]. *)
Lemma lc_loop_iterate l evs w :
  inv w -> loop_held l true w -> w_sigint w = Some l -> at_phase Running w ->
  wp (loop_iterate l evs)
     (fun _ w' => kept w w' /\ loop_held l false w' /\ at_phase ShuttingDown w')
     (fun h w' => h = Blocked /\ at_phase Running w') w.
Proof.
  unfold loop_held. revert w. induction evs as [|ev evs IH]; intros w Hi Hl Hsrc Hp; [done|].
  cbn [loop_iterate]. destruct ev; unfold dispatch, sigint_handler, g_main_loop_quit, load_loop.
  - apply wp_bind, wp_bind, wp_get_sigint_source. rewrite Hsrc. wp_run.
    split; [kept_tac | split; [lookup_tac | phase_tac]].
  - wp_run. eapply wp_mono; [by apply IH | | done].
    intros _ w' [[Hi' Hc] [Hl' Hp']]. split; [split|]; done.
Qed.

Ltac wp_special ::=
  lazymatch goal with
  | |- wp (bind app_cleanup _) _ _ _ => apply wp_bind, wp_app_cleanup; [inv_tac|]
  | |- wp (loop_iterate _ _) _ _ _ =>
      eapply wp_mono;
        [apply lc_loop_iterate; [inv_tac | unfold loop_held; lookup_tac | reflexivity | phase_run]
        | intros _ ?w [[?Hi _] [?Hl ?Hp]]; unfold loop_held in *
        | intros ? ?w [-> ?Hp]; phase_tac]
  end.

Lemma lc_main_run E w :
  inv w -> at_phase ServerStarted w \/ at_phase DmxOnly w ->
  wp (main_run E) (fun c w' => final (Exit c) w') final w.
Proof.
  intros Hi [Hp|Hp]; unfold main_run, g_main_loop_new, g_unix_signal_add, g_main_loop_run,
    g_main_loop_unref, load_loop; wp_run; phase_tac.
Qed.

(** ** The whole run *)

(** A stage specified twice: by its ownership specification of
    [Safety] and by its phase specification. *)
Lemma wp_stage {A B} (m : M A) (k : A -> M B) P1 P2 R1 Q w :
  wp m P1 R1 w -> wp m P2 final w ->
  (forall a w', P1 a w' -> P2 a w' -> wp (k a) Q final w') -> wp (bind m k) Q final w.
Proof.
  intros H1 H2 Hk. apply wp_bind.
  eapply wp_mono; [exact (wp_conj _ _ _ _ _ _ H1 H2) | intros a w' [Ha Hb]; by apply Hk |].
  by intros h w' [_ Hf].
Qed.

Lemma lc_main E : wp (main E) (fun c => final (Exit c)) final init_world.
Proof.
  unfold main.
  assert (H0 : S0 init_world) by (repeat split; first [apply inv_init | done]).
  eapply wp_stage; [by apply wp_main_options | by apply lc_main_options |].
  intros ? w1 H1 P1. eapply wp_stage; [by apply wp_main_config | by apply lc_main_config |].
  intros ? w2 H2 P2. eapply wp_stage; [by apply wp_main_device | by apply lc_main_device |].
  intros ? w3 H3 P3. eapply wp_stage; [by apply wp_main_speed | by apply lc_main_speed |].
  intros ? w4 H4 P4. eapply wp_stage; [by apply wp_main_acquire | by apply lc_main_acquire |].
  intros ? w5 H5 P5. eapply wp_stage; [by apply (wp_main_http E w5 exit_ok) | by apply lc_main_http |].
  intros ? w6 H6 P6. by apply lc_main_run.
Qed.

(** C3: Every run of [main] follows the LifecycleSequencer's state
    machine (spec, 4.4): for every environment, the observable calls
    of the run, in order, are a trace of [lc_step] from [Init], and the
    phase it reaches matches how the run ends: [EXIT_SUCCESS] only in
    the teardown after the interrupt (or after GOption's help),
    [EXIT_FAILURE] only after a fatal diagnostic, waiting only in the
    running loop, and a crash only as the [NULL] [GError] of the
    missing device when no key file was given.  So the startup steps
    happen in the order of the spec, each at most once, the server's
    failure is never fatal, and the teardown comes last. *)
Theorem main_follows_lifecycle E :
  exists p, lc_trace Init (w_log (run_main E).2) p /\ lc_final (run_main E).1 p.
Proof.
  apply (run_main_spec E (fun h w => exists p, lc_trace Init (w_log w) p /\ lc_final h p)).
  eapply wp_mono; [apply lc_main | |]; intros ? w [p [Hp Hf]];
    exists p; (split; [by apply lc_run_sound | done]).
Qed.

End Lifecycle.
